(** * git_hosts inventory plugin: a shallow embedding and its properties

    The development follows [inventory_plugins/git_hosts.py].  Python
    strings are modelled as [string] over 7-bit ASCII text: case mapping
    and the whitespace class are those of Python 3 on code points below
    128.  The inventory dictionary is a record of finite maps, the
    plugin's methods are functions in a state-and-exception monad whose
    state carries the inventory data, the [display] output and a trace of
    the calls made to the outside world. *)

From Stdlib Require Import String Ascii List Bool Arith Lia.
From stdpp Require Import base option gmap strings list fin_maps.

Local Open Scope string_scope.
Local Open Scope list_scope.

(** ** Python string operations *)

Module Str.

Definition in_range (lo hi : nat) (c : ascii) : bool :=
  (lo <=? nat_of_ascii c)%nat && (nat_of_ascii c <=? hi)%nat.

(** [str.isspace] on ASCII: TAB..CR, FS..US and the blank. *)
Definition isspace (c : ascii) : bool := in_range 9 13 c || in_range 28 32 c.

(** [str.isupper], [str.islower] and [str.isalpha] on ASCII: the
    letters [A]..[Z] and [a]..[z]. *)
Definition isupper (c : ascii) : bool := in_range 65 90 c.
Definition islower (c : ascii) : bool := in_range 97 122 c.
Definition isalpha (c : ascii) : bool := isupper c || islower c.

(** The case mappings on ASCII: one character for one, and only the
    letters move.  Python maps code points from 128 on too, some of them
    to several code points. *)
Definition lower_char (c : ascii) : ascii :=
  if isupper c then ascii_of_nat (nat_of_ascii c + 32) else c.
Definition upper_char (c : ascii) : ascii :=
  if islower c then ascii_of_nat (nat_of_ascii c - 32) else c.

Fixpoint map (f : ascii -> ascii) (s : string) : string :=
  match s with
  | EmptyString => EmptyString
  | String c s' => String (f c) (map f s')
  end.

Fixpoint filter (p : ascii -> bool) (s : string) : string :=
  match s with
  | EmptyString => EmptyString
  | String c s' => if p c then String c (filter p s') else filter p s'
  end.

Fixpoint any (p : ascii -> bool) (s : string) : bool :=
  match s with
  | EmptyString => false
  | String c s' => p c || any p s'
  end.

(** [s.lower()] and [s.upper()] on ASCII text. *)
Definition lower : string -> string := map lower_char.
Definition upper : string -> string := map upper_char.

(** [s.isascii()]: every code point is below 128.  On such text the
    operations of this module are those of Python; a statement that rests
    on a case mapping keeping the length, or on [upper] after [lower]
    being [upper], is made for such text only. *)
Definition isascii (s : string) : bool :=
  negb (any (fun c => (128 <=? nat_of_ascii c)%nat) s).

(** Python truthiness of a string. *)
Definition nonempty (s : string) : bool :=
  match s with EmptyString => false | String _ _ => true end.

Fixpoint lstrip_by (p : ascii -> bool) (s : string) : string :=
  match s with
  | EmptyString => EmptyString
  | String c s' => if p c then lstrip_by p s' else s
  end.

Fixpoint rstrip_by (p : ascii -> bool) (s : string) : string :=
  match s with
  | EmptyString => EmptyString
  | String c s' =>
      match rstrip_by p s' with
      | EmptyString => if p c then EmptyString else String c EmptyString
      | r => String c r
      end
  end.

(** [s.strip()] *)
Definition strip (s : string) : string := rstrip_by isspace (lstrip_by isspace s).

(** [s.startswith(p)] *)
Definition startswith (p s : string) : bool := String.prefix p s.

(** [sub in s] *)
Fixpoint contains (sub s : string) : bool :=
  String.prefix sub s ||
  match s with
  | EmptyString => false
  | String _ s' => contains sub s'
  end.

(** [s.index(c)] for a one-character needle; [None] is Python's ValueError. *)
Fixpoint index (c : ascii) (s : string) : option nat :=
  match s with
  | EmptyString => None
  | String d s' => if Ascii.eqb c d then Some 0 else option_map S (index c s')
  end.

(** [s[i:j]] for non-negative bounds. *)
Definition slice (i j : nat) (s : string) : string := String.substring i (j - i) s.

(** [s.endswith(suf)] *)
Definition endswith (suf s : string) : bool :=
  (String.length suf <=? String.length s)%nat &&
  String.eqb (slice (String.length s - String.length suf) (String.length s) s) suf.

(** [s.split(sep)] for a class of one-character separators, empty
    fields kept. *)
Fixpoint split_on (p : ascii -> bool) (s : string) : list string :=
  match s with
  | EmptyString => [EmptyString]
  | String c s' =>
      if p c then EmptyString :: split_on p s'
      else match split_on p s' with
           | w :: ws => String c w :: ws
           | [] => [String c EmptyString]
           end
  end.

(** [s.split()]: runs of whitespace separate, no empty field. *)
Definition split (s : string) : list string :=
  List.filter nonempty (split_on isspace s).

(** [s.split(c, 1)] when [c] occurs in [s]: the text before and after
    its first occurrence. *)
Fixpoint split_first (c : ascii) (s : string) : option (string * string) :=
  match s with
  | EmptyString => None
  | String d s' =>
      if Ascii.eqb c d then Some (EmptyString, s')
      else match split_first c s' with
           | Some (k, v) => Some (String d k, v)
           | None => None
           end
  end.

(** [s.replace(a, b)] for one-character [a] and [b]. *)
Definition replace (a b : ascii) (s : string) : string :=
  map (fun c => if Ascii.eqb c a then b else c) s.

(** [''.join(l)] *)
Definition join (l : list string) : string := fold_right String.append EmptyString l.

End Str.

(** ** POSIX path helpers ([os.path]) *)

Module Path.

Definition isabs (p : string) : bool := Str.startswith "/" p.

Definition join (a b : string) : string :=
  if isabs b then b
  else if negb (Str.nonempty a) || Str.endswith "/" a then a +:+ b
  else a +:+ "/" +:+ b.

Definition basename (p : string) : string :=
  List.last (Str.split_on (Ascii.eqb "/") p) EmptyString.

End Path.

(** ** Environment codes: the Resolver and the Abbreviator *)

Definition built_in_mapping : gmap string string :=
  list_to_map
    [ ("prod", "PRD"); ("production", "PRD"); ("prd", "PRD");
      ("acc", "ACC"); ("acceptance", "ACC");
      ("tst", "TST"); ("test", "TST"); ("testing", "TST");
      ("qas", "QAS"); ("quality", "QAS"); ("qa", "QAS");
      ("dev", "DEV"); ("development", "DEV");
      ("staging", "STG"); ("stg", "STG") ].

Definition suffixes_to_remove : list string := ["environment"; "ment"; "env"].

Definition is_dash (c : ascii) : bool := Ascii.eqb c "-" || Ascii.eqb c "_".
Definition is_vowel (c : ascii) : bool := Str.any (Ascii.eqb c) "aeiou".

(** The loop over [suffixes_to_remove]: the first suffix that leaves a
    base of two characters or more decides. *)
Fixpoint strip_suffix (env_dir_clean : string) (suffixes : list string) : option string :=
  match suffixes with
  | [] => None
  | suffix :: rest =>
      if Str.endswith suffix env_dir_clean then
        let base :=
          Str.rstrip_by is_dash
            (Str.slice 0 (String.length env_dir_clean - String.length suffix) env_dir_clean) in
        if (2 <=? String.length base)%nat then Some (Str.upper base)
        else strip_suffix env_dir_clean rest
      else strip_suffix env_dir_clean rest
  end.

(** [part[0] for part in parts if part and part[0].isalpha()] *)
Definition initials (parts : list string) : string :=
  Str.join
    (flat_map (fun part =>
       match part with
       | String c _ => if Str.isalpha c then [String c EmptyString] else []
       | EmptyString => []
       end) parts).

Definition abbreviation (env_dir env_dir_clean : string) : string :=
  let by_parts :=
    if Str.contains "-" env_dir_clean || Str.contains "_" env_dir_clean then
      let parts := Str.split_on (Ascii.eqb "-") (Str.replace "_" "-" env_dir_clean) in
      if (1 <? List.length parts)%nat then
        let abbrev := initials parts in
        if (2 <=? String.length abbrev)%nat then Some (Str.upper abbrev) else None
      else None
    else None in
  match by_parts with
  | Some code => code
  | None =>
      let by_capitals :=
        if Str.any Str.isupper env_dir then
          let capitals := Str.filter Str.isupper env_dir in
          if (2 <=? String.length capitals)%nat then Some capitals else None
        else None in
      match by_capitals with
      | Some code => code
      | None =>
          let consonants :=
            Str.filter (fun c => negb (is_vowel c) && Str.isalpha c) env_dir_clean in
          if (3 <=? String.length consonants)%nat then Str.upper (Str.slice 0 3 consonants)
          else if (String.length consonants =? 2)%nat then Str.upper consonants
          else Str.upper (Str.slice 0 3 env_dir_clean)
      end
  end.

(** [_auto_generate_environment_code] *)
Definition _auto_generate_environment_code (env_dir : string) : string :=
  let env_dir_clean := Str.strip (Str.lower env_dir) in
  if (String.length env_dir_clean <=? 3)%nat then Str.upper env_dir_clean
  else
    match strip_suffix env_dir_clean suffixes_to_remove with
    | Some code => code
    | None =>
        if (3 <? String.length env_dir_clean)%nat then abbreviation env_dir env_dir_clean
        else Str.upper env_dir
    end.

Record Config := {
  hosts_directory : string;
  environment_dirs : list string;
  hosts_file_patterns : list string;
  environment_mapping : gmap string string;
  auto_environment_patterns : bool;
  dns_resolution : bool;
  environment_detection : bool
}.

(** [_generate_environment_code]; [None] is Python's [None]. *)
Definition _generate_environment_code (cfg : Config) (env_dir : option string) : string :=
  match env_dir with
  | None | Some EmptyString => "MISC"
  | Some env_dir =>
      let env_dir_lower := Str.lower env_dir in
      match environment_mapping cfg !! env_dir_lower with
      | Some code => code
      | None =>
          match built_in_mapping !! env_dir_lower with
          | Some code => code
          | None =>
              if auto_environment_patterns cfg then _auto_generate_environment_code env_dir
              else Str.upper env_dir
          end
      end
  end.

(** ** The inventory structure

    [inventory_data] is one Python dictionary:
    [{"_meta": {"hostvars": {...}}, "all": {"children": [...]}, g: {"hosts": [...]}, ...}].
    The two fixed keys become record fields; [groups] holds every other
    top-level key with its host list. *)

Record InventoryData := {
  hostvars : gmap string (gmap string string);
  children : list string;
  groups : gmap string (list string)
}.

Definition initial_inventory : InventoryData :=
  {| hostvars := ∅; children := ["ungrouped"]; groups := ∅ |}.

(** [key in inventory_data] *)
Definition has_key (key : string) (d : InventoryData) : bool :=
  bool_decide (key = "_meta") || bool_decide (key = "all") ||
  bool_decide (is_Some (groups d !! key)).

(** ** Observations of a run *)

Inductive level := warning | v | vv.

(** Python exceptions.  The last four are the [AnsibleParserError] and
    the three [AnsibleError]s that [parse] raises. *)
Inductive exn :=
| KeyError (key : string)
| ValueError
| ExternalError (text : string)
| HostsDirectoryRequired
| HostsDirectoryDoesNotExist (directory : string)
| HostsDirectoryNotADirectory (directory : string)
| FailedToProcess (e : exn).

Inductive message :=
| DnsUnavailable
| UnsafeEnvironmentDirectory (env_dir : string)
| EnvironmentDirectoryMissing (env_path : string)
| EnvironmentPathNotADirectory (env_path : string)
| ProcessingEnvironmentDirectory (env_dir : string)
| NoHostsFilesIn (env_path : string)
| FoundHostsFiles (n : nat) (env_dir : string) (names : list string)
| NoHostsFilesAnywhere
| ProcessedTotal (n : nat)
| ProcessingFile (filename : string) (environment : option string)
| CouldNotReadFile (filename : string) (e : string)
| EmptyGroupName (filename : string)
| DuplicateHost (host : string)
| DnsResolutionFailed (hostname : string) (e : exn)
| SetEnvironment (environment hostname env_dir : string).

(** Calls that leave the parser proper: the file system, the resolver,
    and the entry of the three per-host tagging methods. *)
Inductive call :=
| os_path_exists (path : string)
| os_path_isdir (path : string)
| os_path_isfile (path : string)
| glob_glob (pattern : string)
| open_file (filename : string)
| dns_resolver_resolve (hostname : string)
| enter_set_environment_from_directory (hostname env_dir : string)
| enter_resolve_dns (hostname : string)
| enter_detect_environment (hostname group : string).

Global Instance level_eq_dec : EqDecision level.
Proof. solve_decision. Defined.
Global Instance exn_eq_dec : EqDecision exn.
Proof. solve_decision. Defined.
Global Instance message_eq_dec : EqDecision message.
Proof. solve_decision. Defined.
Global Instance call_eq_dec : EqDecision call.
Proof. solve_decision. Defined.

(** ** The outside world *)

Inductive read_result :=
| Lines (entries : list string)
| IOError (e : string)
| ReadRaises (e : exn).

Inductive dns_result :=
| Answer (targets : list string)
| NoAnswer
| NXDOMAIN
| ResolverRaises (e : exn).

(** A snapshot of what the run can observe: whether [dns.resolver] was
    importable, the file system below and around the root, the resolver,
    and the inventory object the result is handed to
    ([inventory_api d = Some e] when one of its methods raises [e]). *)
Record World := {
  HAS_DNS : bool;
  path_exists : string -> bool;
  path_isdir : string -> bool;
  path_isfile : string -> bool;
  glob : string -> list string;
  readlines : string -> read_result;
  resolve : string -> dns_result;
  inventory_api : InventoryData -> option exn
}.

(** ** State and exceptions *)

Record State := {
  inventory_data : InventoryData;
  diagnostics : list (level * message);
  trace : list call
}.

Definition initial_state : State :=
  {| inventory_data := initial_inventory; diagnostics := []; trace := [] |}.

Definition M (A : Type) : Type := State -> State * (exn + A).

Global Instance M_ret : MRet M := fun A a st => (st, inr a).
Global Instance M_bind : MBind M := fun A B f m st =>
  match m st with
  | (st', inr a) => f a st'
  | (st', inl e) => (st', inl e)
  end.

Definition raise {A} (e : exn) : M A := fun st => (st, inl e).

(** [try: m  except Exception as e: h e] *)
Definition try_except {A} (m : M A) (h : exn -> M A) : M A := fun st =>
  match m st with
  | (st', inl e) => h e st'
  | r => r
  end.

Definition set_data (d : InventoryData) (st : State) : State :=
  {| inventory_data := d; diagnostics := diagnostics st; trace := trace st |}.

Definition add_diagnostic (l : level) (m : message) (st : State) : State :=
  {| inventory_data := inventory_data st;
     diagnostics := diagnostics st ++ [(l, m)];
     trace := trace st |}.

Definition add_call (c : call) (st : State) : State :=
  {| inventory_data := inventory_data st;
     diagnostics := diagnostics st;
     trace := trace st ++ [c] |}.

Definition get_data : M InventoryData := fun st => (st, inr (inventory_data st)).
Definition put_data (d : InventoryData) : M unit := fun st => (set_data d st, inr tt).

(** [display.warning], [display.v], [display.vv] *)
Definition display (l : level) (m : message) : M unit := fun st =>
  (add_diagnostic l m st, inr tt).

Definition record (c : call) : M unit := fun st => (add_call c st, inr tt).

(** [for x in l: acc = body(acc, x)] *)
Fixpoint foldM {A B} (body : B -> A -> M B) (l : list A) (acc : B) : M B :=
  match l with
  | [] => mret acc
  | x :: l' => acc' ← body acc x; foldM body l' acc'
  end.

(** [for x in l: body(x)] *)
Definition for_each {A} (l : list A) (body : A -> M unit) : M unit :=
  foldM (fun _ x => body x) l tt.

(** ** Updates of the inventory dictionary *)

(** [inventory_data[group]["hosts"]] *)
Definition group_hosts (group : string) : M (list string) :=
  d ← get_data;
  if bool_decide (group = "_meta") || bool_decide (group = "all") then raise (KeyError "hosts")
  else match groups d !! group with
       | Some hosts => mret hosts
       | None => raise (KeyError group)
       end.

Definition set_group_hosts (group : string) (hosts : list string) : M unit :=
  d ← get_data;
  put_data {| hostvars := hostvars d; children := children d;
              groups := <[group := hosts]> (groups d) |}.

Definition set_children (l : list string) : M unit :=
  d ← get_data;
  put_data {| hostvars := hostvars d; children := l; groups := groups d |}.

Definition set_hostvars (host : string) (vars : gmap string string) : M unit :=
  d ← get_data;
  put_data {| hostvars := <[host := vars]> (hostvars d); children := children d;
              groups := groups d |}.

(** [inventory_data["_meta"]["hostvars"][host]] *)
Definition host_variables (host : string) : M (gmap string string) :=
  d ← get_data;
  match hostvars d !! host with
  | Some vars => mret vars
  | None => raise (KeyError host)
  end.

(** [inventory_data["_meta"]["hostvars"][host][key] = value] *)
Definition set_variable (host key value : string) : M unit :=
  vars ← host_variables host;
  set_hostvars host (<[key := value]> vars).

(** ** The plugin's methods *)

Section Plugin.

Variable w : World.
Variable cfg : Config.

(** [_resolve_dns] *)
Definition _resolve_dns (hostname : string) : M unit :=
  record (enter_resolve_dns hostname);;
  record (dns_resolver_resolve hostname);;
  match resolve w hostname with
  | Answer (target :: _) =>
      try_except (set_variable hostname "DNSName" target)
                 (fun e => display vv (DnsResolutionFailed hostname e))
  | Answer [] => mret tt
  | NoAnswer | NXDOMAIN => mret tt
  | ResolverRaises e => display vv (DnsResolutionFailed hostname e)
  end.

(** [_set_environment_from_directory] *)
Definition _set_environment_from_directory (hostname env_dir : string) : M unit :=
  record (enter_set_environment_from_directory hostname env_dir);;
  if negb (Str.nonempty hostname) || negb (Str.nonempty env_dir) then mret tt
  else
    let environment := _generate_environment_code cfg (Some env_dir) in
    set_variable hostname "environment" environment;;
    display vv (SetEnvironment environment hostname env_dir).

Definition group_environment (group : string) : string :=
  if Str.contains "_PRD" group then "PRD"
  else if Str.contains "_ACC" group then "ACC"
  else if Str.contains "_QAS" group then "QAS"
  else if Str.contains "_TST" group then "TST"
  else "MISC".

(** [_detect_environment] *)
Definition _detect_environment (hostname group : string) : M unit :=
  record (enter_detect_environment hostname group);;
  if negb (Str.nonempty hostname) || negb (Str.nonempty group) then mret tt
  else
    vars ← host_variables hostname;
    if bool_decide (is_Some (vars !! "environment")) then mret tt
    else set_variable hostname "environment" (group_environment group).

(** The branch [i == 0] of the token loop. *)
Definition define_host (group host : string) : M unit :=
  d ← get_data;
  (if has_key group d then mret tt else set_group_hosts group []);;
  hosts ← group_hosts group;
  (if bool_decide (host ∈ hosts) then mret tt
   else set_group_hosts group (hosts ++ [host]));;
  d ← get_data;
  if bool_decide (is_Some (hostvars d !! host)) then display warning (DuplicateHost host)
  else set_hostvars host ∅.

(** The branch [i > 0] of the token loop. *)
Definition assign_variable (host item : string) : M unit :=
  if Str.contains "=" item then
    match Str.split_first "=" item with
    | Some (item_key, item_value) => set_variable host item_key item_value
    | None => raise ValueError
    end
  else mret tt.

(** Python truthiness of the [environment] argument. *)
Definition hint_given (environment : option string) : bool :=
  match environment with
  | Some e => Str.nonempty e
  | None => false
  end.

Definition is_None_hint (environment : option string) : bool :=
  match environment with
  | Some _ => false
  | None => true
  end.

(** The three tagging steps that follow the token loop. *)
Definition tag_host (environment : option string) (group host : string) : M unit :=
  (if Str.nonempty host && hint_given environment && environment_detection cfg then
     _set_environment_from_directory host (default "" environment)
   else mret tt);;
  (if Str.nonempty host && dns_resolution cfg then _resolve_dns host else mret tt);;
  (if Str.nonempty host && Str.nonempty group && environment_detection cfg
      && is_None_hint environment then
     _detect_environment host group
   else mret tt).

(** A host-definition line, already split: lines 284 to 319.  [host] is
    the loop variable as the previous line left it. *)
Definition host_entry (environment : option string) (group host : string)
    (entry_list : list string) : M string :=
  host ← match entry_list with
         | [] => mret host
         | item :: items =>
             define_host group item;;
             for_each items (assign_variable item);;
             mret item
         end;
  tag_host environment group host;;
  mret host.

(** One iteration of the loop over the lines of a file; the cursor is
    the pair of the loop variables [group] and [host]. *)
Definition process_entry (filename : string) (environment : option string)
    (cursor : string * string) (entry : string) : M (string * string) :=
  let '(group, host) := cursor in
  let entry := Str.strip entry in
  if negb (Str.nonempty entry) || Str.startswith "#" entry then mret (group, host)
  else if Str.contains "[" entry && Str.contains "]" entry then
    match Str.index "[" entry, Str.index "]" entry with
    | Some i, Some j =>
        let group := Str.slice (i + 1) j entry in
        if negb (Str.nonempty group) then
          display warning (EmptyGroupName filename);;
          mret (group, host)
        else
          d ← get_data;
          (if bool_decide (group ∈ children d) then mret tt
           else set_children (children d ++ [group]));;
          mret (group, host)
    | _, _ => raise ValueError
    end
  else if Str.nonempty entry && negb (Str.startswith "#" entry) then
    host ← host_entry environment group host (Str.split entry);
    mret (group, host)
  else mret (group, host).

(** [_process_single_host_file] *)
Definition _process_single_host_file (filename : string) (environment : option string)
    : M unit :=
  display vv (ProcessingFile filename environment);;
  record (open_file filename);;
  match readlines w filename with
  | IOError e => display warning (CouldNotReadFile filename e)
  | ReadRaises e => raise e
  | Lines entries =>
      foldM (process_entry filename environment) entries ("ungrouped", "");;
      mret tt
  end.

(** [_find_hosts_files] *)
Definition _find_hosts_files (env_path : string) : M (list string) :=
  hosts_files ←
    foldM (fun hosts_files pattern =>
             let pattern_path := Path.join env_path pattern in
             record (glob_glob pattern_path);;
             mret (hosts_files ++ glob w pattern_path))
          (hosts_file_patterns cfg) [];
  '(unique_files, _) ←
    foldM (fun '(unique_files, seen) f =>
             if bool_decide (f ∈ (seen : gset string)) then mret (unique_files, seen)
             else
               record (os_path_isfile f);;
               if path_isfile w f then mret (unique_files ++ [f], {[f]} ∪ seen)
               else mret (unique_files, seen))
          hosts_files ([], ∅);
  mret unique_files.

(** [_build_ansible_inventory]: the hand-over to the inventory object. *)
Definition _build_ansible_inventory (d : InventoryData) : M unit :=
  match inventory_api w d with
  | Some e => raise e
  | None => mret tt
  end.

(** One iteration of the loop over [environment_dirs]. *)
Definition process_environment_directory (total_files : nat) (env_dir : string) : M nat :=
  if Str.contains ".." env_dir || Path.isabs env_dir then
    display warning (UnsafeEnvironmentDirectory env_dir);;
    mret total_files
  else
    let env_path := Path.join (hosts_directory cfg) env_dir in
    record (os_path_exists env_path);;
    if negb (path_exists w env_path) then
      display vv (EnvironmentDirectoryMissing env_path);;
      mret total_files
    else
      record (os_path_isdir env_path);;
      if negb (path_isdir w env_path) then
        display vv (EnvironmentPathNotADirectory env_path);;
        mret total_files
      else
        display v (ProcessingEnvironmentDirectory env_dir);;
        env_files ← _find_hosts_files env_path;
        match env_files with
        | [] =>
            display vv (NoHostsFilesIn env_path);;
            mret total_files
        | _ =>
            display v (FoundHostsFiles (length env_files) env_dir
                         (List.map Path.basename env_files));;
            for_each env_files
              (fun filename => _process_single_host_file filename (Some env_dir));;
            mret (total_files + length env_files)
        end.

(** [_process_environment_directories] *)
Definition _process_environment_directories : M unit :=
  put_data initial_inventory;;
  total_files ← foldM process_environment_directory (environment_dirs cfg) 0;
  if (total_files =? 0)%nat then display warning NoHostsFilesAnywhere
  else
    display v (ProcessedTotal total_files);;
    d ← get_data;
    _build_ansible_inventory d.

End Plugin.

Definition without_dns (cfg : Config) : Config :=
  {| hosts_directory := hosts_directory cfg;
     environment_dirs := environment_dirs cfg;
     hosts_file_patterns := hosts_file_patterns cfg;
     environment_mapping := environment_mapping cfg;
     auto_environment_patterns := auto_environment_patterns cfg;
     dns_resolution := false;
     environment_detection := environment_detection cfg |}.

(** The guard on [HAS_DNS] in [parse]: it warns once and clears
    [self.dns_resolution]. *)
Definition check_dns (w : World) (cfg : Config) : M Config :=
  if dns_resolution cfg && negb (HAS_DNS w) then
    display warning DnsUnavailable;;
    mret (without_dns cfg)
  else mret cfg.

(** The last part of [parse]: validate that the directory exists and
    process the files. *)
Definition process_hosts_directory (w : World) (cfg : Config) : M unit :=
  record (os_path_exists (hosts_directory cfg));;
  if negb (path_exists w (hosts_directory cfg)) then
    raise (HostsDirectoryDoesNotExist (hosts_directory cfg))
  else
    record (os_path_isdir (hosts_directory cfg));;
    if negb (path_isdir w (hosts_directory cfg)) then
      raise (HostsDirectoryNotADirectory (hosts_directory cfg))
    else
      try_except (_process_environment_directories w cfg)
                 (fun e => raise (FailedToProcess e)).

(** [parse], after the options have been read into [cfg]. *)
Definition parse (w : World) (cfg : Config) : M unit :=
  if negb (Str.nonempty (hosts_directory cfg)) then raise HostsDirectoryRequired
  else
    cfg ← check_dns w cfg;
    process_hosts_directory w cfg.

(** A whole aggregation run. *)
Definition run (w : World) (cfg : Config) : State * (exn + unit) :=
  parse w cfg initial_state.

(** ** Methods outside the walker *)

(** [verify_file]; [super_verify_file] is the test of the base class,
    which is not part of the plugin. *)
Definition verify_file (super_verify_file : string -> bool) (path : string) : bool :=
  let valid := false in
  if super_verify_file path then
    if Str.endswith ".yaml" path || Str.endswith ".yml" path then true else valid
  else valid.

(** The calls [_build_ansible_inventory] makes on the inventory object. *)
Inductive inventory_call :=
| add_group (group : string)
| add_host (host group : string)
| inventory_set_variable (hostname var_name var_value : string).

(** [_build_ansible_inventory], as the calls it makes before
    [_apply_constructed].  Python walks a dictionary in the order of
    insertion, which a finite map does not keep: [group_items] and
    [hostvars_items] stand for [inventory_data.items()] after its first
    two keys and for [hostvars.items()] with the items of each host. *)
Definition build_calls (d : InventoryData) (group_items : list (string * list string))
    (hostvars_items : list (string * list (string * string))) : list inventory_call :=
  flat_map (fun child =>
              if negb (String.eqb child "ungrouped") || has_key child d
              then [add_group child] else [])
           (children d) ++
  flat_map (fun '(group_name, hosts) =>
              add_group group_name :: List.map (fun host => add_host host group_name) hosts)
           group_items ++
  flat_map (fun '(hostname, vars) =>
              List.map (fun '(var_name, var_value) =>
                          inventory_set_variable hostname var_name var_value) vars)
           hostvars_items.

(** * The vocabulary of the statements *)

(** [preserves R m]: every state [m] leaves behind, by return or by
    exception, is [R]-related to the state it started from. *)
Definition preserves {A} (R : relation State) (m : M A) : Prop :=
  forall st, R st (m st).1.

(** [keeps I]: a property of the inventory data survives. *)
Definition keeps (I : InventoryData -> Prop) : relation State :=
  fun st st' => I (inventory_data st) -> I (inventory_data st').

(** [emits Pd Pc]: the two logs only grow, by diagnostics that satisfy
    [Pd] and calls that satisfy [Pc]. *)
Definition emits (Pd : level * message -> Prop) (Pc : call -> Prop) : relation State :=
  fun st st' =>
    exists ds cs,
      diagnostics st' = diagnostics st ++ ds /\ trace st' = trace st ++ cs /\
      Forall Pd ds /\ Forall Pc cs.

(** What the walker displays: never the warning about the DNS library,
    and a file only with the directory name it was found under. *)
Definition walker_diagnostic (cfg : Config) (d : level * message) : Prop :=
  match d.2 with
  | DnsUnavailable => False
  | ProcessingFile _ environment =>
      exists env_dir, environment = Some env_dir /\ env_dir ∈ environment_dirs cfg
  | _ => True
  end.

(** What the walker calls: never [_detect_environment], and the enricher
    or the resolver only when [dns_resolution] is on. *)
Definition walker_call (cfg : Config) (c : call) : Prop :=
  match c with
  | enter_detect_environment _ _ => False
  | enter_resolve_dns _ | dns_resolver_resolve _ => dns_resolution cfg = true
  | _ => True
  end.

(** The assignments a host line makes are all [allowed]. *)
Definition assigns_only (allowed : string -> string -> Prop) (entry : string) : Prop :=
  forall item key value,
    item ∈ Str.split (Str.strip entry) ->
    Str.split_first "=" item = Some (key, value) ->
    allowed key value.

(** The inventory after [host] has been filed under [group]. *)
Definition with_host (group host : string) (d : InventoryData) : InventoryData :=
  let hosts := default [] (groups d !! group) in
  {| hostvars := match hostvars d !! host with
                 | Some _ => hostvars d
                 | None => <[host := ∅]> (hostvars d)
                 end;
     children := children d;
     groups := if bool_decide (host ∈ hosts) then groups d
               else <[group := hosts ++ [host]]> (groups d) |}.

(** The inventory after [key] of [host] has been set to [value]. *)
Definition with_variable (host key value : string) (d : InventoryData) : InventoryData :=
  {| hostvars := <[host := <[key := value]> (default ∅ (hostvars d !! host))]> (hostvars d);
     children := children d;
     groups := groups d |}.

(** Every host in a group's host list has an entry in [hostvars]. *)
Definition hosts_have_vars (d : InventoryData) : Prop :=
  forall group hosts host,
    groups d !! group = Some hosts -> host ∈ hosts -> is_Some (hostvars d !! host).

(** The configuration the walker runs under, after the [HAS_DNS] guard. *)
Definition effective (w : World) (cfg : Config) : Config :=
  if dns_resolution cfg && negb (HAS_DNS w) then without_dns cfg else cfg.

(** A token of a readable host file makes the assignment [key=value]. *)
Definition assigned_by_a_file (w : World) (key value : string) : Prop :=
  exists filename entries entry item,
    readlines w filename = Lines entries /\ entry ∈ entries /\
    item ∈ Str.split (Str.strip entry) /\
    Str.split_first "=" item = Some (key, value).

(** Whatever [DNSName] a host carries was assigned by a host file. *)
Definition DNSName_from_files (w : World) (d : InventoryData) : Prop :=
  forall host vars value,
    hostvars d !! host = Some vars -> vars !! "DNSName" = Some value ->
    assigned_by_a_file w "DNSName" value.

(** An assignment that is not to [DNSName], or that a host file makes. *)
Definition from_files (w : World) (key value : string) : Prop :=
  key = "DNSName" -> assigned_by_a_file w "DNSName" value.

(** [returns P m Q]: started in a state that satisfies [P], [m] raises
    nothing; it returns some [a] and leaves a state that satisfy [Q a]. *)
Definition returns {A} (P : State -> Prop) (m : M A) (Q : A -> State -> Prop) : Prop :=
  forall st, P st -> exists a, (m st).2 = inr a /\ Q a (m st).1.

(** Assertions on the inventory data alone are untouched by the logs. *)
Definition on_data (J : InventoryData -> Prop) : State -> Prop :=
  fun st => J (inventory_data st).

(** [known host]: the host has an entry in [hostvars]. *)
Definition known (host : string) (d : InventoryData) : Prop :=
  is_Some (hostvars d !! host).

(** The loop variable [host] is still empty, or names a known host. *)
Definition empty_or_known (host : string) (d : InventoryData) : Prop :=
  host = "" \/ known host d.

(** The value of a host's [environment] variable. *)
Definition environment_of (host : string) (d : InventoryData) : option string :=
  hostvars d !! host ≫= (.!! "environment").

(** The name between the brackets when the parser takes [entry] for a
    group header. *)
Definition header_name (entry : string) : option string :=
  let entry := Str.strip entry in
  if negb (Str.nonempty entry) || Str.startswith "#" entry then None
  else if Str.contains "[" entry && Str.contains "]" entry then
    match Str.index "[" entry, Str.index "]" entry with
    | Some i, Some j => Some (Str.slice (i + 1) j entry)
    | _, _ => None
    end
  else None.

(** The sources of exceptions the walker does not expect are absent: no
    read fails with anything but an [IOError], the inventory object
    accepts what it is given, and no header names one of the two fixed
    keys of the structure. *)
Definition nothing_unexpected (w : World) : Prop :=
  (forall filename e, readlines w filename <> ReadRaises e) /\
  (forall d, inventory_api w d = None) /\
  (forall filename entries entry,
     readlines w filename = Lines entries -> entry ∈ entries ->
     header_name entry <> Some "_meta" /\ header_name entry <> Some "all").

(** The loop variables of the line loop: [group] is none of the two fixed
    keys, [host] is empty or known. *)
Definition cursor_ok (cursor : string * string) : State -> Prop :=
  on_data (fun d => cursor.1 <> "_meta" /\ cursor.1 <> "all" /\ empty_or_known cursor.2 d).

(** The inventory after a header has registered [name]. *)
Definition with_group (name : string) (d : InventoryData) : InventoryData :=
  {| hostvars := hostvars d; children := children d ++ [name]; groups := groups d |}.

(** The state in which [parse] enters the walker. *)
Definition state_before_walk (w : World) (cfg : Config) : State :=
  add_call (os_path_isdir (hosts_directory cfg))
    (add_call (os_path_exists (hosts_directory cfg))
       (if dns_resolution cfg && negb (HAS_DNS w)
        then add_diagnostic warning DnsUnavailable initial_state
        else initial_state)).

(** The walker as [parse] runs it. *)
Definition walk (w : World) (cfg : Config) : State * (exn + unit) :=
  _process_environment_directories w (effective w cfg) (state_before_walk w cfg).

(** [entry] is no header for one of the two fixed keys. *)
Definition header_allowed (entry : string) : bool :=
  negb (bool_decide (header_name entry = Some "_meta")) &&
  negb (bool_decide (header_name entry = Some "all")).

(** [only_touches host keys]: the step changes nothing in the inventory
    but, possibly, the variables of [host] named in [keys]. *)
Definition only_touches (host : string) (keys : list string) : relation State :=
  fun st st' =>
    children (inventory_data st') = children (inventory_data st) /\
    groups (inventory_data st') = groups (inventory_data st) /\
    (forall h, known h (inventory_data st') <-> known h (inventory_data st)) /\
    (forall h k, (h = host -> k ∉ keys) ->
       hostvars (inventory_data st') !! h ≫= (.!! k) =
       hostvars (inventory_data st) !! h ≫= (.!! k)).

(** The [key=value] token [item], if it is one. *)
Definition assignment (item : string) : option (string * string) :=
  if Str.contains "=" item then Str.split_first "=" item else None.

(** The [key=value] tokens of a host line, in order. *)
Definition assignments (items : list string) : list (string * string) :=
  omap assignment items.

(** Later assignments overwrite earlier ones. *)
Definition assign_all (vars : gmap string string) (kvs : list (string * string))
    : gmap string string :=
  foldl (fun vars kv => <[kv.1 := kv.2]> vars) vars kvs.

(** ** Further vocabulary *)

(** The configuration with another user mapping. *)
Definition with_environment_mapping (mapping : gmap string string) (cfg : Config) : Config :=
  {| hosts_directory := hosts_directory cfg;
     environment_dirs := environment_dirs cfg;
     hosts_file_patterns := hosts_file_patterns cfg;
     environment_mapping := mapping;
     auto_environment_patterns := auto_environment_patterns cfg;
     dns_resolution := dns_resolution cfg;
     environment_detection := environment_detection cfg |}.

(** The value of a host's [DNSName] variable. *)
Definition DNSName_of (host : string) (d : InventoryData) : option string :=
  hostvars d !! host ≫= (.!! "DNSName").

(** A line that is blank or a comment once stripped. *)
Definition is_skipped (entry : string) : bool :=
  negb (Str.nonempty (Str.strip entry)) || Str.startswith "#" (Str.strip entry).

(** A line that is neither skipped nor a header: a host line. *)
Definition is_host_line (entry : string) : bool :=
  negb (is_skipped entry) &&
  negb (Str.contains "[" (Str.strip entry) && Str.contains "]" (Str.strip entry)).

(** A name that can be the first token of a host line. *)
Definition is_token (name : string) : Prop :=
  name <> "" /\ Str.any Str.isspace name = false /\ Str.startswith "#" name = false.

(** Every host with variables is listed in some group. *)
Definition hosts_are_grouped (d : InventoryData) : Prop :=
  forall host, known host d ->
    exists group hosts, groups d !! group = Some hosts /\ host ∈ hosts.

(** No group lists a host twice, and no group is a key without a host. *)
Definition host_lists_well_formed (d : InventoryData) : Prop :=
  forall group hosts, groups d !! group = Some hosts -> NoDup hosts /\ hosts <> [].

(** The children of [all]: [ungrouped] first, no name twice, no empty name. *)
Definition children_well_formed (d : InventoryData) : Prop :=
  head (children d) = Some "ungrouped" /\ NoDup (children d) /\ "" ∉ children d.

(** Every host name is such a token. *)
Definition host_names_are_tokens (d : InventoryData) : Prop :=
  forall host, known host d -> is_token host.

(** The state after the calls [cs] have been made. *)
Definition add_calls (cs : list call) (st : State) : State :=
  {| inventory_data := inventory_data st;
     diagnostics := diagnostics st;
     trace := trace st ++ cs |}.

(** What the configured patterns match below [env_path], pattern by
    pattern. *)
Definition globbed (w : World) (cfg : Config) (env_path : string) : list string :=
  flat_map (fun pattern => glob w (Path.join env_path pattern)) (hosts_file_patterns cfg).

(** A configured directory name that passes the safety check. *)
Definition safe_directory (cfg : Config) (env_dir : string) : Prop :=
  env_dir ∈ environment_dirs cfg /\
  Str.contains ".." env_dir = false /\ Path.isabs env_dir = false.

(** The calls a run may make on the file system: probes of the root and
    of safe configured directories below it, globs of the configured
    patterns in such a directory, and tests and reads of what they
    matched. *)
Definition footprint (w : World) (cfg : Config) (c : call) : Prop :=
  match c with
  | os_path_exists path | os_path_isdir path =>
      path = hosts_directory cfg \/
      exists env_dir,
        safe_directory cfg env_dir /\ path = Path.join (hosts_directory cfg) env_dir
  | glob_glob pattern_path =>
      exists env_dir pattern,
        safe_directory cfg env_dir /\
        path_isdir w (Path.join (hosts_directory cfg) env_dir) = true /\
        pattern ∈ hosts_file_patterns cfg /\
        pattern_path = Path.join (Path.join (hosts_directory cfg) env_dir) pattern
  | os_path_isfile f =>
      exists env_dir,
        safe_directory cfg env_dir /\
        f ∈ globbed w cfg (Path.join (hosts_directory cfg) env_dir)
  | open_file f =>
      exists env_dir,
        safe_directory cfg env_dir /\
        f ∈ globbed w cfg (Path.join (hosts_directory cfg) env_dir) /\
        path_isfile w f = true
  | _ => True
  end.

(** What the walker announces of a file: the name of a configured
    directory that passed the safety check and is a directory, and in
    which a configured pattern matched the file. *)
Definition announced_under (w : World) (cfg : Config) (d : level * message) : Prop :=
  match d.2 with
  | ProcessingFile filename environment =>
      exists env_dir,
        environment = Some env_dir /\ safe_directory cfg env_dir /\
        path_isdir w (Path.join (hosts_directory cfg) env_dir) = true /\
        filename ∈ globbed w cfg (Path.join (hosts_directory cfg) env_dir) /\
        path_isfile w filename = true
  | _ => True
  end.

(** [group_items] lists the group entries of [d]. *)
Definition lists_groups (group_items : list (string * list string)) (d : InventoryData)
    : Prop :=
  forall group hosts, (group, hosts) ∈ group_items <-> groups d !! group = Some hosts.

(** [hostvars_items] lists the variables of the hosts of [d]. *)
Definition lists_hostvars (hostvars_items : list (string * list (string * string)))
    (d : InventoryData) : Prop :=
  forall host key value,
    (exists vars, (host, vars) ∈ hostvars_items /\ (key, value) ∈ vars) <->
    (exists vars, hostvars d !! host = Some vars /\ vars !! key = Some value).

(** The group entries in the order of the finite map. *)
Definition group_items_of (d : InventoryData) : list (string * list string) :=
  map_to_list (groups d).

(** The variables of each host, in the order of the finite maps. *)
Definition hostvars_items_of (d : InventoryData) : list (string * list (string * string)) :=
  List.map (fun kv => (kv.1, map_to_list kv.2)) (map_to_list (hostvars d)).

(** What the three tagging steps make of the inventory, for a known
    host. *)
Definition tagged (w : World) (cfg : Config) (environment : option string)
    (group host : string) (d : InventoryData) : InventoryData :=
  let d1 :=
    if Str.nonempty host && hint_given environment && environment_detection cfg then
      with_variable host "environment"
        (_generate_environment_code cfg (Some (default "" environment))) d
    else d in
  let d2 :=
    if Str.nonempty host && dns_resolution cfg then
      match resolve w host with
      | Answer (target :: _) => with_variable host "DNSName" target d1
      | _ => d1
      end
    else d1 in
  if Str.nonempty host && Str.nonempty group && environment_detection cfg
     && is_None_hint environment then
    match environment_of host d2 with
    | Some _ => d2
    | None => with_variable host "environment" (group_environment group) d2
    end
  else d2.

(** The same, on the variables of the host. *)
Definition tag_vars (w : World) (cfg : Config) (environment : option string)
    (group host : string) (vars : gmap string string) : gmap string string :=
  let vars1 :=
    if Str.nonempty host && hint_given environment && environment_detection cfg then
      <["environment" := _generate_environment_code cfg (Some (default "" environment))]> vars
    else vars in
  let vars2 :=
    if Str.nonempty host && dns_resolution cfg then
      match resolve w host with
      | Answer (target :: _) => <["DNSName" := target]> vars1
      | _ => vars1
      end
    else vars1 in
  if Str.nonempty host && Str.nonempty group && environment_detection cfg
     && is_None_hint environment then
    match vars2 !! "environment" with
    | Some _ => vars2
    | None => <["environment" := group_environment group]> vars2
    end
  else vars2.

(** The inventory with the variables of [host] replaced. *)
Definition with_vars (host : string) (vars : gmap string string) (d : InventoryData)
    : InventoryData :=
  {| hostvars := <[host := vars]> (hostvars d); children := children d; groups := groups d |}.

(** The inventory after a host line. *)
Definition after_host_line (w : World) (cfg : Config) (environment : option string)
    (group item : string) (items : list string) (d : InventoryData) : InventoryData :=
  with_vars item
    (tag_vars w cfg environment group item
       (assign_all (default ∅ (hostvars d !! item)) (assignments items)))
    {| hostvars := hostvars d; children := children d;
       groups := groups (with_host group item d) |}.

(** The number of files a trace opens. *)
Definition opened (cs : list call) : nat :=
  length (List.filter (fun c => match c with open_file _ => true | _ => false end) cs).

(** * Concrete worlds and configurations *)

(** A configuration whose mapping overrides the built-in code of [prod]. *)
Definition cfg_live : Config :=
  {| hosts_directory := "/var/lib/ansible/inventory";
     environment_dirs := ["Prod"];
     hosts_file_patterns := ["hosts.ini"];
     environment_mapping := {[ "prod" := "LIVE" ]};
     auto_environment_patterns := true;
     dns_resolution := false;
     environment_detection := true |}.

(** Lookup in an association list. *)
Definition table {A} (t : list (string * A)) (key : string) : option A :=
  snd <$> List.find (fun kv => String.eqb kv.1 key) t.

(** A world given by its directories, its files with their lines, the
    files that exist but cannot be read, what each glob pattern matches,
    and the CNAME records of the resolver. *)
Definition snapshot (has_dns : bool) (dirs : list string)
    (files : list (string * list string)) (locked : list string)
    (globs : list (string * list string))
    (cnames : list (string * list string)) : World :=
  {| HAS_DNS := has_dns;
     path_exists := fun p =>
       bool_decide (p ∈ dirs) || bool_decide (is_Some (table files p)) ||
       bool_decide (p ∈ locked);
     path_isdir := fun p => bool_decide (p ∈ dirs);
     path_isfile := fun p =>
       bool_decide (is_Some (table files p)) || bool_decide (p ∈ locked);
     glob := fun p => default [] (table globs p);
     readlines := fun p =>
       if bool_decide (p ∈ locked) then IOError "Permission denied"
       else match table files p with
            | Some entries => Lines entries
            | None => IOError "No such file or directory"
            end;
     resolve := fun h =>
       match table cnames h with
       | Some targets => Answer targets
       | None => NXDOMAIN
       end;
     inventory_api := fun _ => None |}.

(** The plugin's default options for a root and a list of directories. *)
Definition default_config (root : string) (dirs : list string) : Config :=
  {| hosts_directory := root;
     environment_dirs := dirs;
     hosts_file_patterns := ["hosts.yml"; "hosts.ini"; "hosts_*"];
     environment_mapping := ∅;
     auto_environment_patterns := true;
     dns_resolution := true;
     environment_detection := true |}.

(** Scenario A of the specification. *)
Definition world_A : World :=
  snapshot false ["/inv"; "/inv/prod"]
    [("/inv/prod/hosts.ini", ["[web]"; "web01 role=app"])] []
    [("/inv/prod/hosts.ini", ["/inv/prod/hosts.ini"])] [].

Definition config_A : Config := default_config "/inv" ["prod"; "acc"; "tst"; "qas"].

(** A host file with two headers and a single host. *)
Definition world_headers : World :=
  snapshot false ["/inv"; "/inv/prod"]
    [("/inv/prod/hosts.ini", ["[web]"; "[db]"; "db01"])] []
    [("/inv/prod/hosts.ini", ["/inv/prod/hosts.ini"])] [].

(** A flat layout: the host file lies in the root itself. *)
Definition world_flat : World :=
  snapshot false ["/inv"; "/inv/"]
    [("/inv/hosts.ini", ["[web]"; "web01 role=app"])] []
    [("/inv/hosts.ini", ["/inv/hosts.ini"])] [].

Definition config_flat : Config := default_config "/inv" [""].

(** The lines of one file, parsed from the initial state. *)
Definition parse_lines (entries : list string) : State * (exn + string * string) :=
  foldM (process_entry world_A config_A "hosts.ini" (Some "prod")) entries
    ("ungrouped", "") initial_state.

(** A root with one good directory, one name that is a file, two names
    that do not exist, a file that cannot be read and a closing header
    with an empty name. *)
Definition world_rough : World :=
  snapshot false ["/inv"; "/inv/prod"]
    [("/inv/acc", []);
     ("/inv/prod/hosts.ini", ["[web]"; "web01 role=app"; "[]"])]
    ["/inv/prod/hosts_locked"]
    [("/inv/prod/hosts.ini", ["/inv/prod/hosts.ini"]);
     ("/inv/prod/hosts_*", ["/inv/prod/hosts_locked"])] [].

(** The state after a first definition of [db01]. *)
Definition state_db01 : State :=
  (host_entry world_A config_A (Some "prod") "db" ""
     ["db01"; "role=primary"; "port=5432"] initial_state).1.

(** The variables of [db01] in that state. *)
Definition vars_db01 : gmap string string :=
  list_to_map [("role", "primary"); ("port", "5432"); ("environment", "PRD")].

(** One definition of [db01], and the same followed by a second one in
    another directory. *)
Definition world_one_definition : World :=
  snapshot false ["/inv"; "/inv/prod"; "/inv/acc"]
    [("/inv/prod/hosts.ini", ["[db]"; "db01 role=primary port=5432"])] []
    [("/inv/prod/hosts.ini", ["/inv/prod/hosts.ini"])] [].

Definition world_two_definitions : World :=
  snapshot false ["/inv"; "/inv/prod"; "/inv/acc"]
    [("/inv/prod/hosts.ini", ["[db]"; "db01 role=primary port=5432"]);
     ("/inv/acc/hosts.ini", ["[standby]"; "db01 role=replica"])] []
    [("/inv/prod/hosts.ini", ["/inv/prod/hosts.ini"]);
     ("/inv/acc/hosts.ini", ["/inv/acc/hosts.ini"])] [].

(** A resolver with two CNAME records for [web01] and none for [web02]. *)
Definition world_dns : World :=
  snapshot true ["/inv"; "/inv/prod"]
    [("/inv/prod/hosts.ini", ["[web]"; "web01 DNSName=manual"; "web02 DNSName=manual"])] []
    [("/inv/prod/hosts.ini", ["/inv/prod/hosts.ini"])]
    [("web01", ["lb.example.com."; "old.example.com."])].

(** A host file that assigns [DNSName] itself, in a world without the
    DNS library. *)
Definition world_named : World :=
  snapshot false ["/inv"; "/inv/prod"]
    [("/inv/prod/hosts.ini", ["[web]"; "web01 DNSName=alias.example.com"])] []
    [("/inv/prod/hosts.ini", ["/inv/prod/hosts.ini"])] [].

(** The default options without a root. *)
Definition config_unrooted : Config := default_config "" ["prod"].

(** A host file with a header named after the fixed key [all]. *)
Definition world_reserved : World :=
  snapshot false ["/inv"; "/inv/prod"]
    [("/inv/prod/hosts.ini", ["[web]"; "web01"; "[all]"; "web02"; "[db]"; "db01"])] []
    [("/inv/prod/hosts.ini", ["/inv/prod/hosts.ini"])] [].

(** Two patterns that both match [hosts.ini]; the wider one also matches
    a directory. *)
Definition world_overlap : World :=
  snapshot false ["/inv"; "/inv/prod"; "/inv/prod/hosts.d"]
    [("/inv/prod/hosts.ini", ["web01"]); ("/inv/prod/hosts_db", ["db01"])] []
    [("/inv/prod/hosts*", ["/inv/prod/hosts.d"; "/inv/prod/hosts.ini"; "/inv/prod/hosts_db"]);
     ("/inv/prod/hosts.ini", ["/inv/prod/hosts.ini"])] [].

(** The configuration with these two overlapping patterns. *)
Definition config_overlap : Config :=
  {| hosts_directory := "/inv";
     environment_dirs := ["prod"];
     hosts_file_patterns := ["hosts.ini"; "hosts*"];
     environment_mapping := ∅;
     auto_environment_patterns := true;
     dns_resolution := false;
     environment_detection := true |}.

(** A pattern that names an absolute path, and a file it matches outside
    the root. *)
Definition world_outside : World :=
  snapshot false ["/inv"; "/inv/prod"]
    [("/etc/hosts.allow", ["gateway"])] []
    [("/etc/hosts*", ["/etc/hosts.allow"])] [].

(** The configuration whose only pattern is that absolute path. *)
Definition config_outside : Config :=
  {| hosts_directory := "/inv";
     environment_dirs := ["prod"];
     hosts_file_patterns := ["/etc/hosts*"];
     environment_mapping := ∅;
     auto_environment_patterns := true;
     dns_resolution := false;
     environment_detection := true |}.

(** A root whose only directory has no host file, handed to an inventory
    object that would refuse anything. *)
Definition world_bare : World :=
  {| HAS_DNS := true;
     path_exists := fun p => bool_decide (p ∈ ["/inv"; "/inv/prod"; "/inv/prod/hosts_old"]);
     path_isdir := fun p => bool_decide (p ∈ ["/inv"; "/inv/prod"; "/inv/prod/hosts_old"]);
     path_isfile := fun _ => false;
     glob := fun p => if String.eqb p "/inv/prod/hosts_*" then ["/inv/prod/hosts_old"] else [];
     readlines := fun _ => IOError "Is a directory";
     resolve := fun _ => NXDOMAIN;
     inventory_api := fun _ => Some (ExternalError "refused") |}.

(** * Properties *)

(** ** Examples of abbreviation *)

Example abbreviate_sandbox_env : _auto_generate_environment_code "sandbox-env" = "SANDBOX".
Proof. reflexivity. Qed.
Example abbreviate_blank : _auto_generate_environment_code " " = "".
Proof. reflexivity. Qed.
Example abbreviate_camel : _auto_generate_environment_code "userAcceptTest" = "AT".
Proof. reflexivity. Qed.
Example abbreviate_parts : _auto_generate_environment_code "pre-prod_eu" = "PPE".
Proof. reflexivity. Qed.
Example abbreviate_consonants : _auto_generate_environment_code "integration" = "NTG".
Proof. reflexivity. Qed.
Example abbreviate_digits : _auto_generate_environment_code "12345" = "123".
Proof. reflexivity. Qed.
Example abbreviate_xenv : _auto_generate_environment_code "xenvironment" = "XENVIRON".
Proof. reflexivity. Qed.

(** ** Facts about the string operations *)

Section StringFacts.

Lemma upper_char_idem (c : ascii) : Str.upper_char (Str.upper_char c) = Str.upper_char c.
Proof. destruct c as [[] [] [] [] [] [] [] []]; reflexivity. Qed.

Lemma upper_char_isupper (c : ascii) : Str.isupper c = true -> Str.upper_char c = c.
Proof. destruct c as [[] [] [] [] [] [] [] []]; simpl; intros H; (reflexivity || discriminate H). Qed.

Lemma upper_lower_char (c : ascii) : Str.upper_char (Str.lower_char c) = Str.upper_char c.
Proof. destruct c as [[] [] [] [] [] [] [] []]; reflexivity. Qed.

Lemma isspace_lower_char (c : ascii) : Str.isspace (Str.lower_char c) = Str.isspace c.
Proof. destruct c as [[] [] [] [] [] [] [] []]; reflexivity. Qed.

Lemma upper_idem (s : string) : Str.upper (Str.upper s) = Str.upper s.
Proof.
  unfold Str.upper. induction s as [|c s IH]; cbn [Str.map]; [reflexivity|].
  rewrite upper_char_idem. f_equal. exact IH.
Qed.

Lemma upper_lower (s : string) : Str.upper (Str.lower s) = Str.upper s.
Proof.
  unfold Str.upper, Str.lower. induction s as [|c s IH]; cbn [Str.map]; [reflexivity|].
  rewrite upper_lower_char. f_equal. exact IH.
Qed.

Lemma upper_capitals (s : string) :
  Str.upper (Str.filter Str.isupper s) = Str.filter Str.isupper s.
Proof.
  unfold Str.upper. induction s as [|c s IH]; cbn [Str.filter]; [reflexivity|].
  destruct (Str.isupper c) eqn:Hc; cbn [Str.map]; [|exact IH].
  rewrite (upper_char_isupper c Hc). f_equal. exact IH.
Qed.

Lemma length_map (f : ascii -> ascii) (s : string) :
  String.length (Str.map f s) = String.length s.
Proof. induction s as [|c s IH]; simpl; [reflexivity|]. f_equal. exact IH. Qed.

Lemma map_nonempty (f : ascii -> ascii) (s : string) : s <> "" -> Str.map f s <> "".
Proof. destruct s; simpl; [intros H; exact H | discriminate]. Qed.

Lemma length_nonempty (s : string) (n : nat) : S n <= String.length s -> s <> "".
Proof. destruct s; simpl; [lia | discriminate]. Qed.

Lemma slice_head_nonempty (s : string) (n : nat) : s <> "" -> Str.slice 0 (S n) s <> "".
Proof. destruct s; simpl; [intros H; exact H | discriminate]. Qed.

Lemma lstrip_lower (s : string) :
  Str.lstrip_by Str.isspace (Str.lower s) = Str.lower (Str.lstrip_by Str.isspace s).
Proof.
  unfold Str.lower. induction s as [|c s IH]; cbn [Str.map Str.lstrip_by]; [reflexivity|].
  rewrite isspace_lower_char. destruct (Str.isspace c); [exact IH | reflexivity].
Qed.

Lemma rstrip_lower (s : string) :
  Str.rstrip_by Str.isspace (Str.lower s) = Str.lower (Str.rstrip_by Str.isspace s).
Proof.
  unfold Str.lower. induction s as [|c s IH]; cbn [Str.map Str.rstrip_by]; [reflexivity|].
  rewrite IH, isspace_lower_char.
  destruct (Str.rstrip_by Str.isspace s); cbn [Str.map]; [|reflexivity].
  destruct (Str.isspace c); reflexivity.
Qed.

Lemma strip_lower (s : string) : Str.strip (Str.lower s) = Str.lower (Str.strip s).
Proof. unfold Str.strip. rewrite lstrip_lower. apply rstrip_lower. Qed.

Lemma strip_suffix_code (clean : string) (suffixes : list string) (code : string) :
  strip_suffix clean suffixes = Some code ->
  exists base, code = Str.upper base /\ 2 <= String.length base.
Proof.
  induction suffixes as [|suffix rest IH]; cbn [strip_suffix]; [discriminate|].
  destruct (Str.endswith suffix clean); [|exact IH].
  match goal with
  | |- context [(2 <=? String.length ?b)%nat] =>
      destruct (2 <=? String.length b)%nat eqn:Hlen; [|exact IH]
  end.
  intros [= <-]. eexists. split; [reflexivity|]. apply Nat.leb_le. exact Hlen.
Qed.

End StringFacts.

(** ** The Resolver (section 4.3) *)

(** C3: a directory name whose lower-cased form is a key of both the
    user-supplied mapping and the built-in table resolves to the user
    mapping's value; an empty or null directory name resolves to [MISC]. *)
Theorem user_mapping_wins_and_empty_is_MISC (cfg : Config) :
  (forall env_dir user_code built_in_code : string,
     environment_mapping cfg !! Str.lower env_dir = Some user_code ->
     built_in_mapping !! Str.lower env_dir = Some built_in_code ->
     _generate_environment_code cfg (Some env_dir) = user_code) /\
  _generate_environment_code cfg None = "MISC" /\
  _generate_environment_code cfg (Some "") = "MISC".
Proof.
  split; [|split; reflexivity].
  intros env_dir user_code built_in_code Huser Hbuilt.
  destruct env_dir as [|c s]; [discriminate Hbuilt|].
  unfold _generate_environment_code. rewrite Huser. reflexivity.
Qed.

Lemma user_mapping_wins_witness :
  environment_mapping cfg_live !! Str.lower "Prod" = Some "LIVE" /\
  built_in_mapping !! Str.lower "Prod" = Some "PRD" /\
  _generate_environment_code cfg_live (Some "Prod") = "LIVE".
Proof.
  assert (Hu : environment_mapping cfg_live !! Str.lower "Prod" = Some "LIVE")
    by (vm_compute; reflexivity).
  assert (Hb : built_in_mapping !! Str.lower "Prod" = Some "PRD")
    by (vm_compute; reflexivity).
  split; [exact Hu|]. split; [exact Hb|].
  exact (proj1 (user_mapping_wins_and_empty_is_MISC cfg_live) "Prod" "LIVE" "PRD" Hu Hb).
Defined.

(** ** The Abbreviator (section 4.4) *)

Lemma abbreviation_upper (env_dir clean : string) :
  Str.upper (abbreviation env_dir clean) = abbreviation env_dir clean.
Proof.
  unfold abbreviation.
  repeat match goal with
         | |- context [if ?b then _ else _] => destruct b
         end;
    auto using upper_idem, upper_capitals.
Qed.

Lemma abbreviation_nonempty (env_dir clean : string) :
  3 < String.length clean -> abbreviation env_dir clean <> "".
Proof.
  intros Hlen. unfold abbreviation.
  repeat match goal with
         | |- context [if ?b then _ else _] => destruct b eqn:?
         end;
    repeat match goal with
           | H : (_ <=? _)%nat = true |- _ => apply Nat.leb_le in H
           | H : (_ =? _)%nat = true |- _ => apply Nat.eqb_eq in H
           end;
    try (apply map_nonempty);
    try (apply slice_head_nonempty);
    try (apply (length_nonempty _ 0); lia).
Qed.

Lemma auto_generate_cases (env_dir : string) :
  (String.length (Str.strip env_dir) <= 3 /\
   _auto_generate_environment_code env_dir = Str.upper (Str.strip env_dir)) \/
  (3 < String.length (Str.strip env_dir) /\
   ((exists base, _auto_generate_environment_code env_dir = Str.upper base /\
                  2 <= String.length base) \/
    _auto_generate_environment_code env_dir =
      abbreviation env_dir (Str.lower (Str.strip env_dir)))).
Proof.
  unfold _auto_generate_environment_code.
  rewrite strip_lower.
  assert (Hlen : String.length (Str.lower (Str.strip env_dir)) =
                 String.length (Str.strip env_dir)) by apply length_map.
  rewrite Hlen.
  destruct (String.length (Str.strip env_dir) <=? 3)%nat eqn:Hshort.
  - left. apply Nat.leb_le in Hshort. split; [exact Hshort | apply upper_lower].
  - right. apply Nat.leb_gt in Hshort. split; [exact Hshort|].
    destruct (strip_suffix _ _) as [code|] eqn:Hsuffix.
    + left. apply strip_suffix_code in Hsuffix. exact Hsuffix.
    + right. apply Nat.ltb_lt in Hshort. rewrite Hshort. reflexivity.
Qed.

(** C4 (amended): on an input made of ASCII characters the Abbreviator
    returns an upper-case string; the string is non-empty whenever the
    input is not made of whitespace only; and when the input, stripped of
    surrounding whitespace, has length at most 3, the output is that
    stripped input in upper case. *)
Theorem abbreviator_upper_case_and_total (env_dir : string) :
  Str.isascii env_dir = true ->
  Str.upper (_auto_generate_environment_code env_dir) = _auto_generate_environment_code env_dir /\
  (Str.strip env_dir <> "" -> _auto_generate_environment_code env_dir <> "") /\
  (String.length (Str.strip env_dir) <= 3 ->
   _auto_generate_environment_code env_dir = Str.upper (Str.strip env_dir)).
Proof.
  intros _.
  destruct (auto_generate_cases env_dir)
    as [[Hshort ->] | [Hlong [(base & -> & Hbase) | ->]]].
  - split; [apply upper_idem|]. split; [apply map_nonempty | reflexivity].
  - split; [apply upper_idem|]. split; [|lia].
    intros _. apply map_nonempty. apply (length_nonempty _ 1). exact Hbase.
  - split; [apply abbreviation_upper|]. split; [|lia].
    intros _. apply abbreviation_nonempty.
    unfold Str.lower. rewrite length_map. exact Hlong.
Qed.

Lemma abbreviator_upper_case_and_total_witness :
  Str.isascii " Dt " = true /\
  Str.strip " Dt " <> "" /\ String.length (Str.strip " Dt ") <= 3 /\
  _auto_generate_environment_code " Dt " <> "" /\
  _auto_generate_environment_code " Dt " = Str.upper (Str.strip " Dt ").
Proof.
  assert (Hascii : Str.isascii " Dt " = true) by reflexivity.
  assert (Hne : Str.strip " Dt " <> "") by (vm_compute; discriminate).
  assert (Hshort : String.length (Str.strip " Dt ") <= 3) by (vm_compute; lia).
  destruct (abbreviator_upper_case_and_total " Dt " Hascii) as (_ & Htotal & Hupper).
  split; [exact Hascii|]. split; [exact Hne|]. split; [exact Hshort|].
  split; [exact (Htotal Hne) | exact (Hupper Hshort)].
Defined.

(** C4, as stated, fails on inputs with surrounding whitespace, ASCII
    ones already: a blank is a non-empty input whose code is empty, and
    [" qa"] has length 3 but its code is not its upper-cased self. *)
Lemma abbreviator_blank_input_counterexample :
  Str.isascii " " = true /\ " " <> "" /\ _auto_generate_environment_code " " = "" /\
  Str.isascii " qa" = true /\ String.length " qa" <= 3 /\
  _auto_generate_environment_code " qa" = "QA" /\ Str.upper " qa" = " QA".
Proof. repeat split; try reflexivity; discriminate. Qed.

(** ** Reasoning about runs

    A method [m] preserves a relation [R] on states when every state it
    leaves behind, by return or by exception, is [R]-related to the state
    it started from. *)

Section Preservation.

Context (R : relation State) `{!PreOrder R}.

Lemma preserves_ret {A} (a : A) : preserves R (mret a).
Proof. intros st. reflexivity. Qed.

Lemma preserves_raise {A} (e : exn) : preserves R (@raise A e).
Proof. intros st. reflexivity. Qed.

Lemma preserves_get_data : preserves R get_data.
Proof. intros st. reflexivity. Qed.

Lemma preserves_bind {A B} (m : M A) (f : A -> M B) :
  preserves R m -> (forall a, preserves R (f a)) -> preserves R (m ≫= f).
Proof.
  intros Hm Hf st. specialize (Hm st).
  unfold mbind, M_bind. destruct (m st) as [st' [e|a]]; simpl in *; [exact Hm|].
  transitivity st'; [exact Hm | apply Hf].
Qed.

Lemma preserves_try_except {A} (m : M A) (h : exn -> M A) :
  preserves R m -> (forall e, preserves R (h e)) -> preserves R (try_except m h).
Proof.
  intros Hm Hh st. specialize (Hm st).
  unfold try_except. destruct (m st) as [st' [e|a]]; simpl in *; [|exact Hm].
  transitivity st'; [exact Hm | apply Hh].
Qed.

Lemma preserves_foldM {A B} (body : B -> A -> M B) (l : list A) (acc : B) :
  (forall acc x, x ∈ l -> preserves R (body acc x)) -> preserves R (foldM body l acc).
Proof.
  revert acc. induction l as [|x l IH]; intros acc Hbody; simpl.
  - apply preserves_ret.
  - apply preserves_bind.
    + apply Hbody. left.
    + intros acc'. apply IH. intros acc'' y Hy. apply Hbody. right. exact Hy.
Qed.

Lemma preserves_for_each {A} (l : list A) (body : A -> M unit) :
  (forall x, x ∈ l -> preserves R (body x)) -> preserves R (for_each l body).
Proof. intros Hbody. apply preserves_foldM. intros _ x Hx. apply Hbody. exact Hx. Qed.

End Preservation.

(** Structural steps of a preservation proof; what is left are the
    primitive updates and the side conditions met on the way. *)
Ltac preserves_step :=
  lazymatch goal with
  | |- preserves _ (mret _) => apply preserves_ret; typeclasses eauto
  | |- preserves _ (raise _) => apply preserves_raise; typeclasses eauto
  | |- preserves _ get_data => apply preserves_get_data; typeclasses eauto
  | |- preserves _ (mbind _ _) => apply preserves_bind; [typeclasses eauto | | intros ?]
  | |- preserves _ (try_except _ _) =>
      apply preserves_try_except; [typeclasses eauto | | intros ?]
  | |- preserves _ (foldM _ _ _) => apply preserves_foldM; [typeclasses eauto | intros ? ? ?]
  | |- preserves _ (for_each _ _) => apply preserves_for_each; [typeclasses eauto | intros ? ?]
  | |- preserves _ (if ?b then _ else _) => destruct b eqn:?
  | |- preserves _ (match ?x with _ => _ end) => destruct x eqn:?
  | |- preserves _ ((match ?x with _ => _ end) _) => destruct x eqn:?
  end.

(** *** Relations on states *)

Global Instance keeps_preorder (I : InventoryData -> Prop) : PreOrder (keeps I).
Proof. split; [intros st H; exact H | intros a b c Hab Hbc H; exact (Hbc (Hab H))]. Qed.

Global Instance emits_preorder Pd Pc : PreOrder (emits Pd Pc).
Proof.
  split.
  - intros st. exists [], []. rewrite !app_nil_r. auto.
  - intros a b c (ds1 & cs1 & Hd1 & Hc1 & Fd1 & Fc1) (ds2 & cs2 & Hd2 & Hc2 & Fd2 & Fc2).
    exists (ds1 ++ ds2), (cs1 ++ cs2).
    rewrite Hd2, Hc2, Hd1, Hc1, !app_assoc.
    repeat split; try reflexivity; apply Forall_app; auto.
Qed.

Section Emits.

Context (Pd : level * message -> Prop) (Pc : call -> Prop).

Lemma emits_display (l : level) (m : message) :
  Pd (l, m) -> preserves (emits Pd Pc) (display l m).
Proof.
  intros H st. exists [(l, m)], []. simpl. rewrite app_nil_r.
  repeat split; auto.
Qed.

Lemma emits_record (c : call) : Pc c -> preserves (emits Pd Pc) (record c).
Proof.
  intros H st. exists [], [c]. simpl. rewrite app_nil_r.
  repeat split; auto.
Qed.

Lemma emits_put_data (d : InventoryData) : preserves (emits Pd Pc) (put_data d).
Proof. intros st. exists [], []. simpl. rewrite !app_nil_r. auto. Qed.

Lemma emits_set_group_hosts g hs : preserves (emits Pd Pc) (set_group_hosts g hs).
Proof. unfold set_group_hosts. repeat preserves_step. apply emits_put_data. Qed.

Lemma emits_set_children l : preserves (emits Pd Pc) (set_children l).
Proof. unfold set_children. repeat preserves_step. apply emits_put_data. Qed.

Lemma emits_set_hostvars h vars : preserves (emits Pd Pc) (set_hostvars h vars).
Proof. unfold set_hostvars. repeat preserves_step. apply emits_put_data. Qed.

Lemma emits_host_variables h : preserves (emits Pd Pc) (host_variables h).
Proof. unfold host_variables. repeat preserves_step. Qed.

Lemma emits_group_hosts g : preserves (emits Pd Pc) (group_hosts g).
Proof. unfold group_hosts. repeat preserves_step. Qed.

Lemma emits_set_variable h k x : preserves (emits Pd Pc) (set_variable h k x).
Proof.
  unfold set_variable. repeat preserves_step;
    auto using emits_host_variables, emits_set_hostvars.
Qed.

End Emits.

(** *** What the walker writes to its logs

    Below [_process_environment_directories] the warning about the
    missing DNS library is never displayed, every file is announced with
    the directory name it was found under, the resolver is reached only
    when [dns_resolution] is on, and [_detect_environment] is not
    entered. *)

Ltac emits_step :=
  first
    [ assumption
    | apply emits_display; solve [unfold walker_diagnostic; simpl; eauto]
    | apply emits_record; solve [unfold walker_call; simpl; eauto]
    | apply emits_put_data
    | apply emits_set_variable
    | apply emits_set_hostvars
    | apply emits_set_children
    | apply emits_set_group_hosts
    | apply emits_group_hosts
    | apply emits_host_variables
    | preserves_step ].

Section WalkerLogs.

Variable w : World.
Variable cfg : Config.

Local Abbreviation E := (emits (walker_diagnostic cfg) (walker_call cfg)).

Lemma resolve_dns_emits hostname :
  dns_resolution cfg = true -> preserves E (_resolve_dns w hostname).
Proof. intros Hdns. unfold _resolve_dns. repeat emits_step. Qed.

Lemma set_environment_from_directory_emits hostname env_dir :
  preserves E (_set_environment_from_directory cfg hostname env_dir).
Proof. unfold _set_environment_from_directory. repeat emits_step. Qed.

Lemma define_host_emits group host : preserves E (define_host group host).
Proof. unfold define_host. repeat emits_step. Qed.

Lemma assign_variable_emits host item : preserves E (assign_variable host item).
Proof. unfold assign_variable. repeat emits_step. Qed.

Lemma tag_host_emits env_dir group host :
  preserves E (tag_host w cfg (Some env_dir) group host).
Proof.
  unfold tag_host. cbn [is_None_hint]. rewrite andb_false_r.
  destruct (Str.nonempty host); cbn [andb];
    [|repeat emits_step].
  destruct (dns_resolution cfg) eqn:Hdns;
    repeat first [ apply set_environment_from_directory_emits
                 | apply resolve_dns_emits; assumption
                 | emits_step ].
Qed.

Lemma host_entry_emits env_dir group host entry_list :
  preserves E (host_entry w cfg (Some env_dir) group host entry_list).
Proof.
  unfold host_entry.
  repeat first [ apply tag_host_emits | apply define_host_emits
               | apply assign_variable_emits | emits_step ].
Qed.

Lemma process_entry_emits filename env_dir cursor entry :
  preserves E (process_entry w cfg filename (Some env_dir) cursor entry).
Proof.
  unfold process_entry. destruct cursor as [group host].
  repeat first [ apply host_entry_emits | emits_step ].
Qed.

Lemma process_single_host_file_emits filename env_dir :
  env_dir ∈ environment_dirs cfg ->
  preserves E (_process_single_host_file w cfg filename (Some env_dir)).
Proof.
  intros Hdir. unfold _process_single_host_file.
  repeat first [ apply process_entry_emits | emits_step ].
Qed.

Lemma find_hosts_files_emits env_path : preserves E (_find_hosts_files w cfg env_path).
Proof.
  unfold _find_hosts_files.
  repeat emits_step.
Qed.

Lemma process_environment_directory_emits total_files env_dir :
  env_dir ∈ environment_dirs cfg ->
  preserves E (process_environment_directory w cfg total_files env_dir).
Proof.
  intros Hdir. unfold process_environment_directory.
  repeat first [ apply find_hosts_files_emits
               | apply process_single_host_file_emits; assumption
               | emits_step ].
Qed.

Lemma process_environment_directories_emits :
  preserves E (_process_environment_directories w cfg).
Proof.
  unfold _process_environment_directories, _build_ansible_inventory.
  repeat first [ apply process_environment_directory_emits; assumption
               | emits_step ].
Qed.

Lemma process_hosts_directory_emits : preserves E (process_hosts_directory w cfg).
Proof.
  unfold process_hosts_directory.
  repeat first [ apply process_environment_directories_emits | emits_step ].
Qed.

End WalkerLogs.

(** *** Invariants of the inventory data

    A property [I] of the inventory data that holds initially and that
    the three elementary updates respect (defining a host, registering a
    group, making an [allowed] assignment to a variable) holds all along
    a run. *)

Section KeepsBasics.

Context (I : InventoryData -> Prop).

Lemma keeps_display l m : preserves (keeps I) (display l m).
Proof. intros st H. exact H. Qed.

Lemma keeps_record c : preserves (keeps I) (record c).
Proof. intros st H. exact H. Qed.

Lemma keeps_put_data d : I d -> preserves (keeps I) (put_data d).
Proof. intros Hd st _. exact Hd. Qed.

Lemma keeps_host_variables h : preserves (keeps I) (host_variables h).
Proof. unfold host_variables. repeat preserves_step. Qed.

End KeepsBasics.

Ltac keeps_step :=
  first
    [ assumption
    | apply keeps_display
    | apply keeps_record
    | apply keeps_host_variables
    | preserves_step ].

Section Invariant.

Variable w : World.
Variable cfg : Config.
Variable I : InventoryData -> Prop.
Variable allowed : string -> string -> Prop.

Hypothesis I_initial : I initial_inventory.
Hypothesis I_define_host : forall group host, preserves (keeps I) (define_host group host).
Hypothesis I_set_children : forall l, preserves (keeps I) (set_children l).
Hypothesis I_set_variable :
  forall host key value,
    allowed key value -> preserves (keeps I) (set_variable host key value).
Hypothesis allowed_environment : forall value, allowed "environment" value.
Hypothesis allowed_DNSName : dns_resolution cfg = true -> forall value, allowed "DNSName" value.
Hypothesis files_allowed :
  forall filename entries entry,
    readlines w filename = Lines entries -> entry ∈ entries -> assigns_only allowed entry.

Lemma resolve_dns_keeps hostname :
  dns_resolution cfg = true -> preserves (keeps I) (_resolve_dns w hostname).
Proof.
  intros Hdns. unfold _resolve_dns.
  repeat first [ apply I_set_variable; auto | keeps_step ].
Qed.

Lemma set_environment_from_directory_keeps hostname env_dir :
  preserves (keeps I) (_set_environment_from_directory cfg hostname env_dir).
Proof.
  unfold _set_environment_from_directory.
  repeat first [ apply I_set_variable; auto | keeps_step ].
Qed.

Lemma detect_environment_keeps hostname group :
  preserves (keeps I) (_detect_environment hostname group).
Proof.
  unfold _detect_environment.
  repeat first [ apply I_set_variable; auto | keeps_step ].
Qed.

Lemma tag_host_keeps environment group host :
  preserves (keeps I) (tag_host w cfg environment group host).
Proof.
  unfold tag_host.
  repeat first [ apply set_environment_from_directory_keeps
               | apply detect_environment_keeps
               | apply resolve_dns_keeps;
                 match goal with
                 | H : _ && dns_resolution cfg = true |- _ =>
                     apply andb_prop in H; tauto
                 end
               | keeps_step ].
Qed.

Lemma assign_variable_keeps host item :
  (forall key value, Str.split_first "=" item = Some (key, value) -> allowed key value) ->
  preserves (keeps I) (assign_variable host item).
Proof.
  intros Hitem. unfold assign_variable.
  repeat first [ apply I_set_variable; eauto | keeps_step ].
Qed.

Lemma host_entry_keeps environment group host entry_list :
  (forall item key value,
     item ∈ entry_list -> Str.split_first "=" item = Some (key, value) ->
     allowed key value) ->
  preserves (keeps I) (host_entry w cfg environment group host entry_list).
Proof.
  intros Hitems. unfold host_entry.
  repeat first [ apply tag_host_keeps | apply I_define_host
               | apply assign_variable_keeps; intros ? ?; apply Hitems; subst; set_solver
               | keeps_step ].
Qed.

Lemma process_entry_keeps filename environment cursor entry :
  assigns_only allowed entry ->
  preserves (keeps I) (process_entry w cfg filename environment cursor entry).
Proof.
  intros Hentry. unfold process_entry. destruct cursor as [group host].
  repeat first [ apply host_entry_keeps; exact Hentry | apply I_set_children | keeps_step ].
Qed.

Lemma process_single_host_file_keeps filename environment :
  preserves (keeps I) (_process_single_host_file w cfg filename environment).
Proof.
  unfold _process_single_host_file.
  repeat first [ apply process_entry_keeps; eapply files_allowed; eassumption
               | keeps_step ].
Qed.

Lemma find_hosts_files_keeps env_path :
  preserves (keeps I) (_find_hosts_files w cfg env_path).
Proof. unfold _find_hosts_files. repeat keeps_step. Qed.

Lemma process_environment_directory_keeps total_files env_dir :
  preserves (keeps I) (process_environment_directory w cfg total_files env_dir).
Proof.
  unfold process_environment_directory.
  repeat first [ apply find_hosts_files_keeps | apply process_single_host_file_keeps
               | keeps_step ].
Qed.

Lemma process_environment_directories_keeps :
  preserves (keeps I) (_process_environment_directories w cfg).
Proof.
  unfold _process_environment_directories, _build_ansible_inventory.
  repeat first [ apply process_environment_directory_keeps
               | apply keeps_put_data; exact I_initial
               | keeps_step ].
Qed.

Lemma process_hosts_directory_keeps : preserves (keeps I) (process_hosts_directory w cfg).
Proof.
  unfold process_hosts_directory.
  repeat first [ apply process_environment_directories_keeps | keeps_step ].
Qed.

End Invariant.

(** ** What the elementary updates compute *)

Ltac unfold_monad :=
  unfold mbind, M_bind, mret, M_ret, get_data, put_data, display, record, raise, try_except.

Lemma define_host_run (group host : string) (st : State) :
  group <> "_meta" -> group <> "all" ->
  define_host group host st =
    (let st' := set_data (with_host group host (inventory_data st)) st in
     match hostvars (inventory_data st) !! host with
     | Some _ => add_diagnostic warning (DuplicateHost host) st'
     | None => st'
     end, inr tt).
Proof.
  intros Hmeta Hall. destruct st as [[hv ch gr] ds tr].
  unfold define_host, has_key, group_hosts, set_group_hosts, set_hostvars, with_host.
  unfold_monad. cbn.
  rewrite (bool_decide_eq_false_2 (group = "_meta")),
    (bool_decide_eq_false_2 (group = "all")) by assumption.
  cbn.
  destruct (gr !! group) as [hosts|] eqn:Hg; cbn; rewrite ?Hg, ?lookup_insert_eq; cbn.
  - destruct (bool_decide (host ∈ hosts)); cbn; destruct (hv !! host) eqn:Hh; cbn;
      reflexivity.
  - rewrite (bool_decide_eq_false_2 (host ∈ [])) by (apply not_elem_of_nil). cbn.
    rewrite insert_insert_eq. destruct (hv !! host) eqn:Hh; cbn; reflexivity.
Qed.

(** Under the two fixed keys there is no host list: [KeyError: 'hosts']. *)
Lemma define_host_reserved (group host : string) (st : State) :
  group = "_meta" \/ group = "all" ->
  define_host group host st = (st, inl (KeyError "hosts")).
Proof.
  intros [-> | ->]; unfold define_host, has_key, group_hosts; unfold_monad; reflexivity.
Qed.

Lemma set_variable_run (host key value : string) (st : State) :
  is_Some (hostvars (inventory_data st) !! host) ->
  set_variable host key value st =
    (set_data (with_variable host key value (inventory_data st)) st, inr tt).
Proof.
  intros [vars Hvars]. unfold set_variable, host_variables, set_hostvars, with_variable.
  unfold_monad. cbn. rewrite Hvars. reflexivity.
Qed.

Lemma set_variable_unknown (host key value : string) (st : State) :
  hostvars (inventory_data st) !! host = None ->
  set_variable host key value st = (st, inl (KeyError host)).
Proof.
  intros Hvars. unfold set_variable, host_variables. unfold_monad. cbn.
  rewrite Hvars. reflexivity.
Qed.

(** ** The invariant of the data model (section 3) *)

Lemma initial_hosts_have_vars : hosts_have_vars initial_inventory.
Proof. intros group hosts host Hg. cbn in Hg. rewrite lookup_empty in Hg. discriminate. Qed.

Lemma with_host_hostvars_mono (group host h : string) (d : InventoryData) :
  is_Some (hostvars d !! h) -> is_Some (hostvars (with_host group host d) !! h).
Proof.
  intros Hh. unfold with_host. cbn.
  destruct (hostvars d !! host) eqn:Hhost; [exact Hh|].
  destruct (decide (host = h)) as [->|Hne].
  - rewrite lookup_insert_eq. eauto.
  - rewrite lookup_insert_ne by exact Hne. exact Hh.
Qed.

Lemma with_host_defines (group host : string) (d : InventoryData) :
  is_Some (hostvars (with_host group host d) !! host) /\
  exists hosts, groups (with_host group host d) !! group = Some hosts /\ host ∈ hosts.
Proof.
  unfold with_host. cbn. split.
  - destruct (hostvars d !! host) eqn:Hhost; [rewrite Hhost; eauto|].
    rewrite lookup_insert_eq. eauto.
  - case_bool_decide as Hin.
    + destruct (groups d !! group) as [hosts|] eqn:Hg; cbn in Hin.
      * exists hosts. auto.
      * apply not_elem_of_nil in Hin. contradiction.
    + rewrite lookup_insert_eq. eexists. split; [reflexivity|]. set_solver.
Qed.

Lemma with_host_hosts_have_vars (group host : string) (d : InventoryData) :
  hosts_have_vars d -> hosts_have_vars (with_host group host d).
Proof.
  intros Hinv g hosts h Hg Hh.
  destruct (decide (h = host)) as [->|Hne]; [apply with_host_defines|].
  apply with_host_hostvars_mono.
  unfold with_host in Hg. cbn in Hg.
  case_bool_decide as Hin; [exact (Hinv g hosts h Hg Hh)|].
  destruct (decide (group = g)) as [->|Hgne].
  - rewrite lookup_insert_eq in Hg. injection Hg as <-.
    apply elem_of_app in Hh. destruct Hh as [Hh|Hlast];
      [|apply list_elem_of_singleton in Hlast; contradiction].
    destruct (groups d !! g) as [old|] eqn:Hold; cbn in Hh.
    + exact (Hinv g old h Hold Hh).
    + apply not_elem_of_nil in Hh. contradiction.
  - rewrite lookup_insert_ne in Hg by exact Hgne. exact (Hinv g hosts h Hg Hh).
Qed.

Lemma define_host_hosts_have_vars (group host : string) :
  preserves (keeps hosts_have_vars) (define_host group host).
Proof.
  intros st Hinv.
  destruct (decide (group = "_meta")) as [->|Hmeta];
    [rewrite define_host_reserved by auto; exact Hinv|].
  destruct (decide (group = "all")) as [->|Hall];
    [rewrite define_host_reserved by auto; exact Hinv|].
  rewrite define_host_run by assumption. cbn.
  destruct (hostvars (inventory_data st) !! host); cbn;
    apply with_host_hosts_have_vars; exact Hinv.
Qed.

Lemma set_children_hosts_have_vars (l : list string) :
  preserves (keeps hosts_have_vars) (set_children l).
Proof. intros st Hinv. exact Hinv. Qed.

Lemma set_variable_hosts_have_vars (host key value : string) :
  preserves (keeps hosts_have_vars) (set_variable host key value).
Proof.
  intros st Hinv.
  destruct (hostvars (inventory_data st) !! host) as [vars|] eqn:Hvars.
  - rewrite set_variable_run by eauto. cbn.
    intros g hosts h Hg Hh. cbn in *.
    destruct (decide (host = h)) as [->|Hne].
    + rewrite lookup_insert_eq. eauto.
    + rewrite lookup_insert_ne by exact Hne. exact (Hinv g hosts h Hg Hh).
  - rewrite set_variable_unknown by exact Hvars. exact Hinv.
Qed.

Lemma process_hosts_directory_hosts_have_vars (w : World) (cfg : Config) :
  preserves (keeps hosts_have_vars) (process_hosts_directory w cfg).
Proof.
  apply (process_hosts_directory_keeps w cfg hosts_have_vars (fun _ _ => True));
    auto using initial_hosts_have_vars, define_host_hosts_have_vars,
      set_children_hosts_have_vars, set_variable_hosts_have_vars.
  all: unfold assigns_only; intros; exact I.
Qed.

Lemma parse_hosts_have_vars (w : World) (cfg : Config) :
  preserves (keeps hosts_have_vars) (parse w cfg).
Proof.
  unfold parse, check_dns.
  repeat first [ apply process_hosts_directory_hosts_have_vars | keeps_step ].
Qed.

Example scenario_A :
  (run world_A config_A).2 = inr tt /\
  groups (inventory_data (run world_A config_A).1) !! "web" = Some ["web01"] /\
  environment_of "web01" (inventory_data (run world_A config_A).1) = Some "PRD" /\
  hostvars (inventory_data (run world_A config_A).1) !! "web01" ≫= (.!! "role") =
    Some "app".
Proof. vm_compute. auto. Qed.

(** C8 (amended): all along a run (initially, after every line, after
    every file and at the end) every host in a group's host list has an
    entry in [hostvars]; a group is a key of the structure once a host
    has been defined under it, while a name that was only registered by a
    header is listed among the children of [all] without being a key. *)
Theorem hosts_in_groups_have_vars (w : World) (cfg : Config) :
  hosts_have_vars initial_inventory /\
  (forall filename environment cursor entry st,
     hosts_have_vars (inventory_data st) ->
     hosts_have_vars
       (inventory_data (process_entry w cfg filename environment cursor entry st).1)) /\
  (forall filename environment st,
     hosts_have_vars (inventory_data st) ->
     hosts_have_vars
       (inventory_data (_process_single_host_file w cfg filename environment st).1)) /\
  hosts_have_vars (inventory_data (run w cfg).1) /\
  (forall group host st st',
     define_host group host st = (st', inr tt) ->
     has_key group (inventory_data st') = true /\
     exists hosts, groups (inventory_data st') !! group = Some hosts /\ host ∈ hosts).
Proof.
  assert (Hfile : forall filename environment,
             preserves (keeps hosts_have_vars)
               (_process_single_host_file w cfg filename environment)).
  { intros. apply (process_single_host_file_keeps w cfg hosts_have_vars (fun _ _ => True));
      auto using initial_hosts_have_vars, define_host_hosts_have_vars,
        set_children_hosts_have_vars, set_variable_hosts_have_vars.
    all: unfold assigns_only; intros; exact I. }
  split; [exact initial_hosts_have_vars|].
  split.
  { intros filename environment cursor entry.
    apply (process_entry_keeps w cfg hosts_have_vars (fun _ _ => True));
      auto using initial_hosts_have_vars, define_host_hosts_have_vars,
        set_children_hosts_have_vars, set_variable_hosts_have_vars.
    all: unfold assigns_only; intros; exact I. }
  split; [intros filename environment; apply Hfile|].
  split; [exact (parse_hosts_have_vars w cfg initial_state initial_hosts_have_vars)|].
  intros group host st st' Hrun.
  destruct (decide (group = "_meta")) as [->|Hmeta];
    [rewrite define_host_reserved in Hrun by auto; discriminate|].
  destruct (decide (group = "all")) as [->|Hall];
    [rewrite define_host_reserved in Hrun by auto; discriminate|].
  rewrite define_host_run in Hrun by assumption.
  destruct (with_host_defines group host (inventory_data st)) as [_ (hosts & Hg & Hin)].
  assert (Hdata : inventory_data st' = with_host group host (inventory_data st)).
  { injection Hrun as <-. destruct (hostvars (inventory_data st) !! host); reflexivity. }
  rewrite Hdata. split; [|eauto].
  unfold has_key. rewrite Hg. rewrite (bool_decide_eq_true_2 (is_Some (Some hosts))) by eauto.
  apply orb_true_r.
Qed.

Lemma hosts_in_groups_have_vars_witness :
  hosts_have_vars (inventory_data initial_state) /\
  hosts_have_vars
    (inventory_data
       (process_entry world_A config_A "/inv/prod/hosts.ini" (Some "prod") ("web", "")
          "web01 role=app" initial_state).1).
Proof.
  split; [exact initial_hosts_have_vars|].
  apply (proj1 (proj2 (hosts_in_groups_have_vars world_A config_A))).
  exact initial_hosts_have_vars.
Defined.

(** C8, as stated, fails on the key part: a header registers its group
    among the children of [all], yet the name is no key of the structure
    until a host is defined under it; [ungrouped] is in that position from
    the start. *)
Lemma registered_group_is_not_a_key :
  (run world_headers config_A).2 = inr tt /\
  children (inventory_data (run world_headers config_A).1) = ["ungrouped"; "web"; "db"] /\
  has_key "web" (inventory_data (run world_headers config_A).1) = false /\
  has_key "ungrouped" (inventory_data (run world_headers config_A).1) = false /\
  has_key "db" (inventory_data (run world_headers config_A).1) = true.
Proof. vm_compute. auto 6. Qed.

(** ** The logs of a whole run *)

Lemma effective_environment_dirs w cfg :
  environment_dirs (effective w cfg) = environment_dirs cfg.
Proof. unfold effective. destruct (_ && _); reflexivity. Qed.

Lemma effective_dns_resolution w cfg :
  HAS_DNS w = false -> dns_resolution (effective w cfg) = false.
Proof.
  intros Hdns. unfold effective. rewrite Hdns.
  destruct (dns_resolution cfg) eqn:H; cbn; [reflexivity | exact H].
Qed.

Lemma run_unfold (w : World) (cfg : Config) :
  hosts_directory cfg <> "" ->
  run w cfg =
    process_hosts_directory w (effective w cfg)
      (if dns_resolution cfg && negb (HAS_DNS w)
       then add_diagnostic warning DnsUnavailable initial_state
       else initial_state).
Proof.
  intros Hroot. unfold run, parse, check_dns, effective.
  destruct (hosts_directory cfg); [contradiction|]. cbn.
  destruct (dns_resolution cfg && negb (HAS_DNS w)); reflexivity.
Qed.

Lemma run_without_root (w : World) (cfg : Config) :
  hosts_directory cfg = "" -> run w cfg = (initial_state, inl HostsDirectoryRequired).
Proof. intros Hroot. unfold run, parse. rewrite Hroot. reflexivity. Qed.

Lemma run_logs (w : World) (cfg : Config) :
  exists ds cs,
    diagnostics (run w cfg).1 =
      (if Str.nonempty (hosts_directory cfg) && (dns_resolution cfg && negb (HAS_DNS w))
       then [(warning, DnsUnavailable)] else []) ++ ds /\
    trace (run w cfg).1 = cs /\
    Forall (walker_diagnostic (effective w cfg)) ds /\
    Forall (walker_call (effective w cfg)) cs.
Proof.
  destruct (decide (hosts_directory cfg = "")) as [Hroot|Hroot].
  - rewrite run_without_root, Hroot by exact Hroot. exists [], []. cbn. auto.
  - rewrite run_unfold by exact Hroot.
    destruct (hosts_directory cfg) as [|c root] eqn:Hdir; [contradiction|].
    cbn [Str.nonempty andb].
    match goal with
    | |- context [process_hosts_directory w ?c ?st] =>
        destruct (process_hosts_directory_emits w c st) as (ds & cs & Hd & Hc & Fd & Fc)
    end.
    exists ds, cs. rewrite Hd, Hc.
    destruct (dns_resolution cfg && negb (HAS_DNS w)); cbn; auto.
Qed.

(** C10, as stated, fails on "non-empty": an empty directory name passes
    the safety check, joins to the root itself, and reaches the parser as
    an empty hint, which tags no environment at all. *)
Lemma empty_directory_name_gives_empty_hint :
  (run world_flat config_flat).2 = inr tt /\
  diagnostics (run world_flat config_flat).1 =
    [ (warning, DnsUnavailable);
      (v, ProcessingEnvironmentDirectory "");
      (v, FoundHostsFiles 1 "" ["hosts.ini"]);
      (vv, ProcessingFile "/inv/hosts.ini" (Some ""));
      (v, ProcessedTotal 1) ] /\
  environment_of "web01" (inventory_data (run world_flat config_flat).1) = None.
Proof. vm_compute. auto. Qed.

(** ** The DNS enricher (section 4.6) *)

Lemma initial_DNSName_from_files (w : World) : DNSName_from_files w initial_inventory.
Proof. intros host vars value H. cbn in H. rewrite lookup_empty in H. discriminate. Qed.

Lemma define_host_DNSName_from_files (w : World) (group host : string) :
  preserves (keeps (DNSName_from_files w)) (define_host group host).
Proof.
  intros st Hinv.
  destruct (decide (group = "_meta")) as [->|Hmeta];
    [rewrite define_host_reserved by auto; exact Hinv|].
  destruct (decide (group = "all")) as [->|Hall];
    [rewrite define_host_reserved by auto; exact Hinv|].
  rewrite define_host_run by assumption. cbn.
  assert (Hwith : DNSName_from_files w (with_host group host (inventory_data st))).
  { intros h vars value. unfold with_host. cbn.
    destruct (hostvars (inventory_data st) !! host) eqn:Hhost; [apply Hinv|].
    destruct (decide (host = h)) as [->|Hne].
    - rewrite lookup_insert_eq. intros [= <-]. rewrite lookup_empty. discriminate.
    - rewrite lookup_insert_ne by exact Hne. apply Hinv. }
  destruct (hostvars (inventory_data st) !! host); exact Hwith.
Qed.

Lemma set_children_DNSName_from_files (w : World) (l : list string) :
  preserves (keeps (DNSName_from_files w)) (set_children l).
Proof. intros st Hinv. exact Hinv. Qed.

Lemma set_variable_DNSName_from_files (w : World) (host key value : string) :
  from_files w key value ->
  preserves (keeps (DNSName_from_files w)) (set_variable host key value).
Proof.
  intros Hkey st Hinv.
  destruct (hostvars (inventory_data st) !! host) as [vars|] eqn:Hvars.
  - rewrite set_variable_run by eauto. cbn.
    intros h vars' value'. unfold with_variable. cbn. rewrite Hvars. cbn.
    destruct (decide (host = h)) as [->|Hne].
    + rewrite lookup_insert_eq. intros [= <-].
      destruct (decide (key = "DNSName")) as [->|Hother].
      * rewrite lookup_insert_eq. intros [= <-]. exact (Hkey eq_refl).
      * rewrite lookup_insert_ne by exact Hother. exact (Hinv h vars value' Hvars).
    + rewrite lookup_insert_ne by exact Hne. apply Hinv.
  - rewrite set_variable_unknown by exact Hvars. exact Hinv.
Qed.

Lemma resolve_dns_run (w : World) (hostname : string) (st : State) :
  let st2 := add_call (dns_resolver_resolve hostname) (add_call (enter_resolve_dns hostname) st) in
  _resolve_dns w hostname st =
    (match resolve w hostname with
     | Answer (target :: _) =>
         match hostvars (inventory_data st) !! hostname with
         | Some _ => set_data (with_variable hostname "DNSName" target (inventory_data st)) st2
         | None => add_diagnostic vv (DnsResolutionFailed hostname (KeyError hostname)) st2
         end
     | ResolverRaises e => add_diagnostic vv (DnsResolutionFailed hostname e) st2
     | _ => st2
     end, inr tt).
Proof.
  unfold _resolve_dns. unfold_monad. cbn.
  destruct (resolve w hostname) as [[|target rest]| | |e]; try reflexivity.
  destruct (hostvars (inventory_data st) !! hostname) as [vars|] eqn:Hvars.
  - rewrite set_variable_run by (cbn; eauto). reflexivity.
  - rewrite set_variable_unknown by exact Hvars. reflexivity.
Qed.

(** The lines of a snapshot world are those of its table of files. *)

Lemma table_In {A} (t : list (string * A)) (key : string) (x : A) :
  table t key = Some x -> In (key, x) t.
Proof.
  unfold table. destruct (List.find _ t) as [[k y]|] eqn:Hfind; [|discriminate].
  cbn. intros [= ->]. apply find_some in Hfind. destruct Hfind as [Hin Heq].
  cbn in Heq. apply String.eqb_eq in Heq. subst k. exact Hin.
Qed.

Lemma snapshot_lines has_dns dirs files locked globs cnames filename entries :
  readlines (snapshot has_dns dirs files locked globs cnames) filename = Lines entries ->
  In (filename, entries) files.
Proof.
  cbn. destruct (bool_decide _); [discriminate|].
  destruct (table files filename) as [found|] eqn:Htable; [|discriminate].
  intros [= <-]. apply table_In. exact Htable.
Qed.

Lemma world_A_assigns_no_DNSName value :
  ~ assigned_by_a_file world_A "DNSName" value.
Proof.
  intros (filename & entries & entry & item & Hread & Hentry & Hitem & Hsplit).
  apply snapshot_lines in Hread. destruct Hread as [[= <- <-]|[]].
  apply list_elem_of_In in Hentry.
  destruct Hentry as [<-|[<-|[]]]; vm_compute in Hitem;
    apply list_elem_of_In in Hitem; cbn in Hitem;
    repeat (destruct Hitem as [<-|Hitem]; [vm_compute in Hsplit; discriminate|]);
    destruct Hitem.
Qed.

(** C9 (amended): when DNS resolution is requested and the library is
    missing, a run of a configuration that names its hosts directory
    displays the warning exactly once (a run without that name fails
    before the check and displays nothing), never enters the enricher nor
    reaches the resolver, and the enricher gives no host a [DNSName]: a
    host carries one only if a host file assigns that variable itself, so
    that no host carries one when no host file does.  When the library is
    there, the enricher never raises, changes the inventory at most by
    recording the first CNAME target returned as the host's [DNSName], and
    displays nothing on a no-record response. *)
Theorem dns_enricher_best_effort (w : World) (cfg : Config) :
  (HAS_DNS w = false -> dns_resolution cfg = true ->
   (hosts_directory cfg <> "" ->
    exists ds, diagnostics (run w cfg).1 = (warning, DnsUnavailable) :: ds /\
               forall l, (l, DnsUnavailable) ∉ ds) /\
   (hosts_directory cfg = "" ->
    run w cfg = (initial_state, inl HostsDirectoryRequired)) /\
   (forall hostname, (enter_resolve_dns hostname ∉ trace (run w cfg).1) /\
                     (dns_resolver_resolve hostname ∉ trace (run w cfg).1)) /\
   DNSName_from_files w (inventory_data (run w cfg).1) /\
   ((forall value, ~ assigned_by_a_file w "DNSName" value) ->
    forall host vars,
      hostvars (inventory_data (run w cfg).1) !! host = Some vars ->
      vars !! "DNSName" = None)) /\
  (forall hostname st,
     (_resolve_dns w hostname st).2 = inr tt /\
     (inventory_data (_resolve_dns w hostname st).1 = inventory_data st \/
      exists target rest,
        resolve w hostname = Answer (target :: rest) /\
        inventory_data (_resolve_dns w hostname st).1 =
          with_variable hostname "DNSName" target (inventory_data st)) /\
     (resolve w hostname = NoAnswer \/ resolve w hostname = NXDOMAIN ->
      diagnostics (_resolve_dns w hostname st).1 = diagnostics st /\
      inventory_data (_resolve_dns w hostname st).1 = inventory_data st)).
Proof.
  split.
  - intros Hlib Hreq.
    assert (Hfiles : DNSName_from_files w (inventory_data (run w cfg).1));
      [|split; [|split; [|split; [|split; [exact Hfiles|]]]]].
    5: { intros Hnone host vars Hvars.
         destruct (vars !! "DNSName") as [value|] eqn:Hname; [|reflexivity].
         destruct (Hnone value (Hfiles host vars value Hvars Hname)). }
    4: { destruct (run_logs w cfg) as (ds & cs & _ & Hc & _ & Fc).
         pose proof (proj1 (Forall_forall _ _) Fc) as Hcs.
         pose proof (effective_dns_resolution w cfg Hlib) as Hoff.
         intros hostname. rewrite Hc.
         split; intros Hin; specialize (Hcs _ Hin); cbn in Hcs; congruence. }
    3: { intros Hroot. apply run_without_root. exact Hroot. }
    2: { intros Hroot. destruct (run_logs w cfg) as (ds & cs & Hd & _ & Fd & _).
         destruct (hosts_directory cfg) as [|c root]; [contradiction|].
         rewrite Hlib, Hreq in Hd. cbn in Hd. exists ds. split; [exact Hd|].
         pose proof (proj1 (Forall_forall _ _) Fd) as Hds.
         intros l Hin. exact (Hds _ Hin). }
    destruct (decide (hosts_directory cfg = "")) as [Hroot|Hroot].
    + rewrite run_without_root by exact Hroot. apply initial_DNSName_from_files.
    + rewrite run_unfold by exact Hroot.
      apply (process_hosts_directory_keeps w (effective w cfg)
                 (DNSName_from_files w) (from_files w));
          auto using initial_DNSName_from_files, define_host_DNSName_from_files,
            set_children_DNSName_from_files, set_variable_DNSName_from_files.
      * intros value. discriminate.
      * rewrite effective_dns_resolution by exact Hlib. discriminate.
      * intros filename entries entry Hread Hin item key value Hitem Hsplit ->.
           exists filename, entries, entry, item. auto.
      * destruct (_ && _); apply initial_DNSName_from_files.
  - intros hostname st. rewrite resolve_dns_run. cbn.
    split; [reflexivity|]. split.
    + destruct (resolve w hostname) as [[|target rest]| | |e]; cbn; auto.
      destruct (hostvars (inventory_data st) !! hostname); cbn; eauto.
    + intros [-> | ->]; cbn; auto.
Qed.


Lemma dns_enricher_best_effort_witness :
  HAS_DNS world_A = false /\ dns_resolution config_A = true /\
  hosts_directory config_A <> "" /\
  (exists ds, diagnostics (run world_A config_A).1 = (warning, DnsUnavailable) :: ds /\
              forall l, (l, DnsUnavailable) ∉ ds) /\
  (forall value, ~ assigned_by_a_file world_A "DNSName" value) /\
  (forall host vars,
     hostvars (inventory_data (run world_A config_A).1) !! host = Some vars ->
     vars !! "DNSName" = None).
Proof.
  assert (Hlib : HAS_DNS world_A = false) by reflexivity.
  assert (Hreq : dns_resolution config_A = true) by reflexivity.
  assert (Hroot : hosts_directory config_A <> "") by discriminate.
  destruct (proj1 (dns_enricher_best_effort world_A config_A) Hlib Hreq)
    as (Hwarn & _ & _ & _ & Hvars).
  split; [exact Hlib|]. split; [exact Hreq|]. split; [exact Hroot|].
  split; [exact (Hwarn Hroot)|].
  split; [exact world_A_assigns_no_DNSName|].
  exact (Hvars world_A_assigns_no_DNSName).
Defined.

(** C9, as stated, fails in two ways.  A host file may assign [DNSName]
    itself: the host then carries one although the library is missing.
    And a configuration without a hosts directory is refused before the
    library is checked: no warning is displayed at all. *)
Lemma file_token_sets_DNSName_without_library :
  HAS_DNS world_named = false /\ dns_resolution config_A = true /\
  (run world_named config_A).2 = inr tt /\
  hostvars (inventory_data (run world_named config_A).1) !! "web01" ≫= (.!! "DNSName") =
    Some "alias.example.com" /\
  dns_resolution config_unrooted = true /\
  run world_named config_unrooted = (initial_state, inl HostsDirectoryRequired) /\
  diagnostics (run world_named config_unrooted).1 = [].
Proof. vm_compute. auto 8. Qed.

(** ** Rejection of unsafe directory names (section 4.1) *)

(** C7: a configured directory name that contains [..] or is absolute is
    skipped with one warning: the loop goes on with the next name from a
    state in which nothing but that warning was added; no file-system
    call was made and the inventory is untouched. *)
Theorem unsafe_directory_is_skipped (w : World) (cfg : Config)
    (env_dir : string) (rest : list string) (total_files : nat) (st : State) :
  Str.contains ".." env_dir = true \/ Path.isabs env_dir = true ->
  process_environment_directory w cfg total_files env_dir st =
    (add_diagnostic warning (UnsafeEnvironmentDirectory env_dir) st, inr total_files) /\
  trace (process_environment_directory w cfg total_files env_dir st).1 = trace st /\
  inventory_data (process_environment_directory w cfg total_files env_dir st).1 =
    inventory_data st /\
  foldM (process_environment_directory w cfg) (env_dir :: rest) total_files st =
    foldM (process_environment_directory w cfg) rest total_files
      (add_diagnostic warning (UnsafeEnvironmentDirectory env_dir) st).
Proof.
  intros Hunsafe.
  assert (Hstep : process_environment_directory w cfg total_files env_dir st =
            (add_diagnostic warning (UnsafeEnvironmentDirectory env_dir) st, inr total_files)).
  { unfold process_environment_directory.
    assert (Hcond : Str.contains ".." env_dir || Path.isabs env_dir = true)
      by (apply orb_true_iff; exact Hunsafe).
    rewrite Hcond. reflexivity. }
  split; [exact Hstep|]. rewrite Hstep. split; [reflexivity|]. split; [reflexivity|].
  cbn [foldM]. unfold mbind, M_bind. rewrite Hstep. reflexivity.
Qed.

Lemma unsafe_directory_is_skipped_witness :
  (Str.contains ".." "../../etc" = true \/ Path.isabs "../../etc" = true) /\
  trace (process_environment_directory world_A config_A 0 "../../etc" initial_state).1 = [] /\
  foldM (process_environment_directory world_A config_A) ["../../etc"; "prod"] 0 initial_state =
    foldM (process_environment_directory world_A config_A) ["prod"] 0
      (add_diagnostic warning (UnsafeEnvironmentDirectory "../../etc") initial_state).
Proof.
  assert (Hunsafe : Str.contains ".." "../../etc" = true \/ Path.isabs "../../etc" = true)
    by (left; reflexivity).
  destruct (unsafe_directory_is_skipped world_A config_A "../../etc" ["prod"] 0
              initial_state Hunsafe) as (_ & Htrace & _ & Hloop).
  split; [exact Hunsafe|]. split; [exact Htrace | exact Hloop].
Defined.

(** ** Methods that return *)

Lemma returns_ret {A} (P : State -> Prop) (a : A) (Q : A -> State -> Prop) :
  (forall st, P st -> Q a st) -> returns P (mret a) Q.
Proof. intros H st HP. exists a. split; [reflexivity | exact (H st HP)]. Qed.

Lemma returns_bind {A B} (P : State -> Prop) (m : M A) (Q1 : A -> State -> Prop)
    (f : A -> M B) (Q : B -> State -> Prop) :
  returns P m Q1 -> (forall a, returns (Q1 a) (f a) Q) -> returns P (m ≫= f) Q.
Proof.
  intros Hm Hf st HP. destruct (Hm st HP) as (a & Hret & HQ1).
  unfold mbind, M_bind. destruct (m st) as [st' [e|a']]; cbn in *; [discriminate|].
  injection Hret as ->. exact (Hf a st' HQ1).
Qed.

Lemma returns_consequence {A} (P P' : State -> Prop) (m : M A) (Q Q' : A -> State -> Prop) :
  returns P m Q -> (forall st, P' st -> P st) -> (forall a st, Q a st -> Q' a st) ->
  returns P' m Q'.
Proof.
  intros Hm HP HQ st HP'. destruct (Hm st (HP st HP')) as (a & Hret & Ha).
  exists a. split; [exact Hret | exact (HQ a _ Ha)].
Qed.

Lemma returns_try_except {A} (P : State -> Prop) (m : M A) (h : exn -> M A)
    (Q : A -> State -> Prop) :
  returns P m Q -> returns P (try_except m h) Q.
Proof.
  intros Hm st HP. destruct (Hm st HP) as (a & Hret & Ha).
  unfold try_except. destruct (m st) as [st' [e|a']]; cbn in *; [discriminate|].
  exists a'. injection Hret as ->. split; [reflexivity | exact Ha].
Qed.

Lemma returns_foldM {A B} (J : B -> State -> Prop) (body : B -> A -> M B)
    (l : list A) (acc : B) :
  (forall acc x, x ∈ l -> returns (J acc) (body acc x) J) ->
  returns (J acc) (foldM body l acc) J.
Proof.
  revert acc. induction l as [|x l IH]; intros acc Hbody; cbn [foldM].
  - apply returns_ret. auto.
  - eapply returns_bind.
    + apply Hbody. left.
    + intros acc'. apply IH. intros acc'' y Hy. apply Hbody. right. exact Hy.
Qed.

Lemma returns_for_each {A} (J : State -> Prop) (l : list A) (body : A -> M unit) :
  (forall x, x ∈ l -> returns J (body x) (fun _ => J)) ->
  returns J (for_each l body) (fun _ => J).
Proof.
  intros Hbody. unfold for_each.
  apply (returns_foldM (fun _ => J)). intros _ x Hx. apply Hbody. exact Hx.
Qed.

Lemma returns_display (J : InventoryData -> Prop) l m :
  returns (on_data J) (display l m) (fun _ => on_data J).
Proof. intros st HJ. exists tt. split; [reflexivity | exact HJ]. Qed.

Lemma returns_record (J : InventoryData -> Prop) c :
  returns (on_data J) (record c) (fun _ => on_data J).
Proof. intros st HJ. exists tt. split; [reflexivity | exact HJ]. Qed.

Lemma returns_get_data (J : InventoryData -> Prop) :
  returns (on_data J) get_data (fun _ => on_data J).
Proof. intros st HJ. exists (inventory_data st). split; [reflexivity | exact HJ]. Qed.

Lemma with_variable_known (host key value h : string) (d : InventoryData) :
  known h d -> known h (with_variable host key value d).
Proof.
  unfold known, with_variable. cbn. intros Hh.
  destruct (decide (host = h)) as [->|Hne].
  - rewrite lookup_insert_eq. eauto.
  - rewrite lookup_insert_ne by exact Hne. exact Hh.
Qed.

Lemma set_variable_returns (host key value h : string) :
  returns (on_data (fun d => known host d /\ known h d)) (set_variable host key value)
    (fun _ => on_data (known h)).
Proof.
  intros st [Hhost Hh]. rewrite set_variable_run by exact Hhost.
  exists tt. split; [reflexivity|]. apply with_variable_known. exact Hh.
Qed.

Lemma set_variable_returns_known (host key value : string) :
  returns (on_data (known host)) (set_variable host key value)
    (fun _ => on_data (known host)).
Proof.
  eapply returns_consequence; [apply (set_variable_returns host key value host)| |].
  - intros st H. split; exact H.
  - intros a st H. exact H.
Qed.

(** *** Occurrences found by [in] are found by [index] and [split] *)

Lemma prefix_one_char (c d : ascii) (s : string) :
  String.prefix (String c "") (String d s) = Ascii.eqb c d.
Proof.
  cbn. destruct (ascii_dec c d) as [->|Hne].
  - rewrite Ascii.eqb_refl. destruct s; reflexivity.
  - symmetry. apply Ascii.eqb_neq. exact Hne.
Qed.

Lemma contains_index (c : ascii) (s : string) :
  Str.contains (String c "") s = true -> exists i, Str.index c s = Some i.
Proof.
  induction s as [|d s IH]; cbn [Str.contains Str.index].
  - cbn. discriminate.
  - rewrite prefix_one_char. destruct (Ascii.eqb c d); cbn [orb]; [eauto|].
    intros H. destruct (IH H) as [i ->]. cbn. eauto.
Qed.

Lemma contains_split_first (c : ascii) (s : string) :
  Str.contains (String c "") s = true -> exists kv, Str.split_first c s = Some kv.
Proof.
  induction s as [|d s IH]; cbn [Str.contains Str.split_first].
  - cbn. discriminate.
  - rewrite prefix_one_char. destruct (Ascii.eqb c d); cbn [orb]; [eauto|].
    intros H. destruct (IH H) as [[k x] ->]. eauto.
Qed.

(** *** What the tagging methods compute on a known host *)

Lemma set_environment_from_directory_run (cfg : Config) (hostname env_dir : string)
    (st : State) :
  known hostname (inventory_data st) ->
  _set_environment_from_directory cfg hostname env_dir st =
    (let st1 := add_call (enter_set_environment_from_directory hostname env_dir) st in
     if negb (Str.nonempty hostname) || negb (Str.nonempty env_dir) then st1
     else
       let environment := _generate_environment_code cfg (Some env_dir) in
       add_diagnostic vv (SetEnvironment environment hostname env_dir)
         (set_data (with_variable hostname "environment" environment (inventory_data st)) st1),
     inr tt).
Proof.
  intros Hknown. unfold _set_environment_from_directory.
  unfold mbind, M_bind, record. cbn.
  destruct (negb (Str.nonempty hostname) || negb (Str.nonempty env_dir)); [reflexivity|].
  rewrite set_variable_run by exact Hknown. reflexivity.
Qed.

Lemma detect_environment_run (hostname group : string) (st : State) :
  known hostname (inventory_data st) ->
  _detect_environment hostname group st =
    (let st1 := add_call (enter_detect_environment hostname group) st in
     if negb (Str.nonempty hostname) || negb (Str.nonempty group) then st1
     else
       match environment_of hostname (inventory_data st) with
       | Some _ => st1
       | None =>
           set_data (with_variable hostname "environment" (group_environment group)
                       (inventory_data st)) st1
       end,
     inr tt).
Proof.
  intros [vars Hvars]. unfold _detect_environment, host_variables, environment_of.
  unfold mbind, M_bind, mret, M_ret, raise, record, get_data. cbn.
  destruct (negb (Str.nonempty hostname) || negb (Str.nonempty group)); [reflexivity|].
  cbn. rewrite Hvars. cbn.
  destruct (vars !! "environment") as [value|] eqn:Henv; cbn; [reflexivity|].
  rewrite set_variable_run by (unfold known; cbn; rewrite Hvars; eauto).
  reflexivity.
Qed.

Ltac returns_step :=
  lazymatch goal with
  | |- returns ?P (mbind _ _) _ => apply (returns_bind P _ (fun _ => P)); [| intros ?]
  | |- returns _ (mret _) _ => apply returns_ret; intros ? ?; try assumption
  | |- returns _ (display _ _) _ => apply returns_display
  | |- returns _ (record _) _ => apply returns_record
  | |- returns _ get_data _ => apply returns_get_data
  | |- returns _ (try_except _ _) _ => apply returns_try_except
  | |- returns _ (for_each _ _) _ => apply returns_for_each; intros ? ?
  | |- returns _ (if ?b then _ else _) _ => destruct b eqn:?
  | |- returns _ (match ?x with _ => _ end) _ => destruct x eqn:?
  | |- returns _ ((match ?x with _ => _ end) _) _ => destruct x eqn:?
  end.

Section Returns.

Variable w : World.
Variable cfg : Config.

Lemma resolve_dns_returns (hostname h : string) :
  returns (on_data (known h)) (_resolve_dns w hostname) (fun _ => on_data (known h)).
Proof.
  intros st Hh. rewrite resolve_dns_run. exists tt. split; [reflexivity|].
  unfold on_data. cbn.
  destruct (resolve w hostname) as [[|target rest]| | |e]; cbn; try exact Hh.
  destruct (hostvars (inventory_data st) !! hostname); cbn; [|exact Hh].
  apply with_variable_known. exact Hh.
Qed.

Lemma set_environment_from_directory_returns (hostname env_dir : string) :
  returns (on_data (known hostname)) (_set_environment_from_directory cfg hostname env_dir)
    (fun _ => on_data (known hostname)).
Proof.
  intros st Hh. rewrite set_environment_from_directory_run by exact Hh.
  exists tt. split; [reflexivity|]. unfold on_data. cbn.
  destruct (_ || _); cbn; [exact Hh|]. apply with_variable_known. exact Hh.
Qed.

Lemma detect_environment_returns (hostname group : string) :
  returns (on_data (known hostname)) (_detect_environment hostname group)
    (fun _ => on_data (known hostname)).
Proof.
  intros st Hh. rewrite detect_environment_run by exact Hh.
  exists tt. split; [reflexivity|]. unfold on_data. cbn.
  destruct (_ || _); cbn; [exact Hh|].
  destruct (environment_of hostname (inventory_data st)); cbn; [exact Hh|].
  apply with_variable_known. exact Hh.
Qed.

Lemma tag_host_returns_known (environment : option string) (group host : string) :
  returns (on_data (known host)) (tag_host w cfg environment group host)
    (fun _ => on_data (known host)).
Proof.
  unfold tag_host.
  repeat first [ apply set_environment_from_directory_returns
               | apply resolve_dns_returns
               | apply detect_environment_returns
               | returns_step ].
Qed.

Lemma tag_host_returns (environment : option string) (group host : string) :
  returns (on_data (empty_or_known host)) (tag_host w cfg environment group host)
    (fun _ => on_data (empty_or_known host)).
Proof.
  destruct host as [|c host].
  - intros st _. exists tt. split; [reflexivity | left; reflexivity].
  - eapply returns_consequence; [apply tag_host_returns_known| |].
    + intros st [Hempty|Hknown]; [discriminate | exact Hknown].
    + intros a st Hknown. right. exact Hknown.
Qed.

Lemma define_host_returns (group host : string) :
  group <> "_meta" -> group <> "all" ->
  returns (fun _ => True) (define_host group host) (fun _ => on_data (known host)).
Proof.
  intros Hmeta Hall st _. rewrite define_host_run by assumption.
  exists tt. split; [reflexivity|]. unfold on_data. cbn.
  destruct (hostvars (inventory_data st) !! host); cbn; apply with_host_defines.
Qed.

Lemma assign_variable_returns (host item : string) :
  returns (on_data (known host)) (assign_variable host item) (fun _ => on_data (known host)).
Proof.
  unfold assign_variable.
  destruct (Str.contains "=" item) eqn:Hcontains; [|returns_step].
  destruct (contains_split_first _ _ Hcontains) as [[key value] ->].
  apply set_variable_returns_known.
Qed.

Lemma host_entry_returns (environment : option string) (group host : string)
    (entry_list : list string) :
  group <> "_meta" -> group <> "all" ->
  returns (on_data (empty_or_known host))
    (host_entry w cfg environment group host entry_list)
    (fun host' => on_data (empty_or_known host')).
Proof.
  intros Hmeta Hall. unfold host_entry.
  eapply returns_bind; [|intros host'; eapply returns_bind;
                          [apply tag_host_returns | intros ?; returns_step]].
  destruct entry_list as [|item items].
  - returns_step.
  - eapply returns_bind.
    + eapply returns_consequence; [apply (define_host_returns group item Hmeta Hall)| |].
      * intros st _. exact I.
      * intros a st H. exact H.
    + intros ?. cbn beta. eapply returns_bind.
      * apply returns_for_each. intros x _. apply assign_variable_returns.
      * intros ?. apply returns_ret. intros st H. right. exact H.
Qed.

End Returns.

(** *** Runs that nothing interrupts *)

Section Uninterrupted.

Variable w : World.
Variable cfg : Config.
Hypothesis Hworld : nothing_unexpected w.

Lemma process_entry_returns (filename : string) (environment : option string)
    (cursor : string * string) (entry : string) :
  header_name entry <> Some "_meta" -> header_name entry <> Some "all" ->
  returns (cursor_ok cursor) (process_entry w cfg filename environment cursor entry) cursor_ok.
Proof.
  unfold header_name, process_entry. destruct cursor as [group host].
  set (e := Str.strip entry).
  destruct (negb (Str.nonempty e) || Str.startswith "#" e) eqn:Hskip.
  { intros _ _. apply returns_ret. auto. }
  destruct (Str.contains "[" e && Str.contains "]" e) eqn:Hheader.
  - apply andb_prop in Hheader. destruct Hheader as [Hopen Hclose].
    destruct (contains_index _ _ Hopen) as [i ->].
    destruct (contains_index _ _ Hclose) as [j ->].
    intros Hmeta Hall st (_ & _ & Hhost).
    destruct (Str.slice (i + 1) j e) as [|c name] eqn:Hname; cbn [Str.nonempty negb].
    + eexists. split; [reflexivity|].
      unfold cursor_ok, on_data. simpl. repeat split; [discriminate..|exact Hhost].
    + unfold set_children. unfold_monad. cbn.
      destruct (bool_decide _); eexists; (split; [reflexivity|]);
        unfold cursor_ok, on_data; simpl; (repeat split; [congruence..|exact Hhost]).
  - intros _ _.
    destruct (Str.nonempty e && negb (Str.startswith "#" e)); [|apply returns_ret; auto].
    intros st (Hmeta & Hall & Hhost).
    destruct (host_entry_returns w cfg environment group host (Str.split e) Hmeta Hall st Hhost)
      as (host' & Hret & Hhost').
    unfold mbind, M_bind.
    destruct (host_entry w cfg environment group host (Str.split e) st) as [st' [err|h]];
      cbn in *; [discriminate|].
    injection Hret as ->. eexists. split; [reflexivity|].
    unfold cursor_ok, on_data. simpl. auto.
Qed.

Lemma process_single_host_file_returns (filename : string) (environment : option string) :
  returns (fun _ => True) (_process_single_host_file w cfg filename environment)
    (fun _ _ => True).
Proof.
  destruct Hworld as (Hread & _ & Hheaders).
  unfold _process_single_host_file.
  apply (returns_bind _ _ (fun _ _ => True)); [intros st _; exists tt; auto|].
  intros _. apply (returns_bind _ _ (fun _ _ => True)); [intros st _; exists tt; auto|].
  intros _. destruct (readlines w filename) as [entries|e|e] eqn:Hlines.
  - apply (returns_bind _ _ (fun _ _ => True)); [|intros ?; apply returns_ret; auto].
    apply (returns_consequence (cursor_ok ("ungrouped", "")) _ _ cursor_ok).
    + apply returns_foldM. intros cursor entry Hin.
      destruct (Hheaders filename entries entry Hlines Hin).
      apply process_entry_returns; assumption.
    + intros st _. unfold cursor_ok, on_data. simpl.
      repeat split; [discriminate..|left; reflexivity].
    + auto.
  - intros st _. exists tt. auto.
  - exfalso. exact (Hread filename e Hlines).
Qed.

Lemma find_hosts_files_returns (env_path : string) :
  returns (fun _ => True) (_find_hosts_files w cfg env_path) (fun _ _ => True).
Proof.
  unfold _find_hosts_files.
  apply (returns_bind _ _ (fun _ _ => True)).
  - apply (returns_foldM (fun _ _ => True)). intros acc pattern _.
    apply (returns_bind _ _ (fun _ _ => True)); [|intros ?; apply returns_ret; auto].
    intros st _. exists tt. auto.
  - intros hosts_files. apply (returns_bind _ _ (fun _ _ => True)).
    + apply (returns_foldM (fun _ _ => True)). intros [unique_files seen] f _.
      destruct (bool_decide _); [apply returns_ret; auto|].
      apply (returns_bind _ _ (fun _ _ => True)); [intros st _; exists tt; auto|].
      intros ?. destruct (path_isfile w f); apply returns_ret; auto.
    + intros [unique_files seen]. apply returns_ret. auto.
Qed.

Lemma process_environment_directory_returns (total_files : nat) (env_dir : string) :
  returns (fun _ => True) (process_environment_directory w cfg total_files env_dir)
    (fun _ _ => True).
Proof.
  assert (Hdisplay : forall l m, returns (fun _ => True) (display l m) (fun _ _ => True))
    by (intros l m st _; exists tt; auto).
  assert (Hrecord : forall c, returns (fun _ => True) (record c) (fun _ _ => True))
    by (intros c st _; exists tt; auto).
  unfold process_environment_directory.
  repeat first
    [ apply Hdisplay | apply Hrecord
    | apply find_hosts_files_returns
    | apply process_single_host_file_returns
    | lazymatch goal with
      | |- returns _ (mbind _ _) _ =>
          apply (returns_bind _ _ (fun _ _ => True)); [| intros ?]
      | |- returns _ (mret _) _ => apply returns_ret; auto
      | |- returns _ (for_each _ _) _ =>
          apply (returns_for_each (fun _ => True)); intros ? ?
      | |- returns _ (if ?b then _ else _) _ => destruct b
      | |- returns _ (match ?x with _ => _ end) _ => destruct x
      end ].
Qed.

Lemma process_environment_directories_returns :
  returns (fun _ => True) (_process_environment_directories w cfg) (fun _ _ => True).
Proof.
  assert (Hdisplay : forall l m, returns (fun _ => True) (display l m) (fun _ _ => True))
    by (intros l m st _; exists tt; auto).
  unfold _process_environment_directories.
  apply (returns_bind _ _ (fun _ _ => True)); [intros st _; exists tt; auto|].
  intros _. apply (returns_bind _ _ (fun _ _ => True)).
  - apply (returns_foldM (fun _ _ => True)). intros acc env_dir _.
    apply process_environment_directory_returns.
  - intros total_files. destruct (total_files =? 0)%nat; [apply Hdisplay|].
    apply (returns_bind _ _ (fun _ _ => True)); [apply Hdisplay|].
    intros _. apply (returns_bind _ _ (fun _ _ => True));
      [intros st _; eexists; split; [reflexivity | exact I]|].
    intros d. unfold _build_ansible_inventory.
    destruct Hworld as (_ & Hapi & _). rewrite Hapi. apply returns_ret. auto.
Qed.

Lemma process_hosts_directory_returns :
  path_exists w (hosts_directory cfg) = true ->
  path_isdir w (hosts_directory cfg) = true ->
  returns (fun _ => True) (process_hosts_directory w cfg) (fun _ _ => True).
Proof.
  intros Hexists Hisdir. unfold process_hosts_directory.
  rewrite Hexists, Hisdir. cbn [negb].
  apply (returns_bind _ _ (fun _ _ => True)); [intros st _; exists tt; auto|].
  intros _. apply (returns_bind _ _ (fun _ _ => True)); [intros st _; exists tt; auto|].
  intros _. apply returns_try_except. apply process_environment_directories_returns.
Qed.

End Uninterrupted.

(** ** The lines of a host file (section 4.2) *)

Lemma header_step (w : World) (cfg : Config) (filename : string)
    (environment : option string) (group host entry name : string) (st : State) :
  header_name entry = Some name ->
  process_entry w cfg filename environment (group, host) entry st =
    (match name with
     | "" => add_diagnostic warning (EmptyGroupName filename) st
     | _ => if bool_decide (name ∈ children (inventory_data st)) then st
            else set_data (with_group name (inventory_data st)) st
     end, inr (name, host)).
Proof.
  unfold header_name, process_entry. set (e := Str.strip entry).
  destruct (negb (Str.nonempty e) || Str.startswith "#" e); [discriminate|].
  destruct (Str.contains "[" e && Str.contains "]" e); [|discriminate].
  destruct (Str.index "[" e) as [i|]; [|discriminate].
  destruct (Str.index "]" e) as [j|]; [|discriminate].
  intros [= ->]. destruct name as [|c name]; [reflexivity|].
  cbn [Str.nonempty negb]. unfold set_children. unfold_monad. cbn.
  destruct (bool_decide _); reflexivity.
Qed.

(** C1 (amended): a group-header line whose bracketed name is empty
    displays one warning and registers nothing: the inventory data is
    unchanged and the line raises nothing.  A header whose name is not
    empty, a name made of whitespace included, displays nothing; its name
    is appended to the known groups unless it is there already and it
    becomes the current group. *)
Theorem group_header_line (w : World) (cfg : Config) (filename : string)
    (environment : option string) (group host entry name : string) (st : State) :
  header_name entry = Some name ->
  (name = "" ->
   (process_entry w cfg filename environment (group, host) entry st).1 =
     add_diagnostic warning (EmptyGroupName filename) st /\
   exists cursor,
     (process_entry w cfg filename environment (group, host) entry st).2 = inr cursor) /\
  (name <> "" ->
   process_entry w cfg filename environment (group, host) entry st =
     (if bool_decide (name ∈ children (inventory_data st)) then st
      else set_data (with_group name (inventory_data st)) st,
      inr (name, host))).
Proof.
  intros Hname. rewrite (header_step _ _ _ _ _ _ _ _ _ Hname). split.
  - intros ->. split; [reflexivity | eauto].
  - intros Hne. destruct name; [contradiction | reflexivity].
Qed.

Lemma group_header_line_witness :
  header_name "[]" = Some "" /\ header_name " [ db ] " = Some " db " /\
  (process_entry world_A config_A "hosts.ini" (Some "prod") ("web", "") "[]"
     initial_state).1 = add_diagnostic warning (EmptyGroupName "hosts.ini") initial_state /\
  process_entry world_A config_A "hosts.ini" (Some "prod") ("web", "") " [ db ] "
    initial_state =
    (set_data (with_group " db " initial_inventory) initial_state, inr (" db ", "")).
Proof.
  assert (Hempty : header_name "[]" = Some "") by reflexivity.
  assert (Hnamed : header_name " [ db ] " = Some " db ") by reflexivity.
  split; [exact Hempty|]. split; [exact Hnamed|]. split.
  - exact (proj1 (proj1 (group_header_line world_A config_A "hosts.ini" (Some "prod")
                           "web" "" "[]" "" initial_state Hempty) eq_refl)).
  - refine (proj2 (group_header_line world_A config_A "hosts.ini" (Some "prod")
                     "web" "" " [ db ] " " db " initial_state Hnamed) _).
    discriminate.
Defined.

(** C1, as stated, fails on both inputs: [[ ]] displays no warning,
    registers the group [" "] and files the next host under it; [[]]
    warns and registers nothing, but the next host is filed under the
    group [""] and not under [web]. *)
Lemma blank_and_empty_headers_move_the_cursor :
  (parse_lines ["[web]"; "[ ]"; "web01"]).2 = inr (" ", "web01") /\
  List.filter (fun d => bool_decide (d.1 = warning))
    (diagnostics (parse_lines ["[web]"; "[ ]"; "web01"]).1) = [] /\
  children (inventory_data (parse_lines ["[web]"; "[ ]"; "web01"]).1) =
    ["ungrouped"; "web"; " "] /\
  groups (inventory_data (parse_lines ["[web]"; "[ ]"; "web01"]).1) !! " " =
    Some ["web01"] /\
  groups (inventory_data (parse_lines ["[web]"; "[ ]"; "web01"]).1) !! "web" = None /\
  (parse_lines ["[web]"; "[]"; "web01"]).2 = inr ("", "web01") /\
  List.filter (fun d => bool_decide (d.1 = warning))
    (diagnostics (parse_lines ["[web]"; "[]"; "web01"]).1) =
    [(warning, EmptyGroupName "hosts.ini")] /\
  children (inventory_data (parse_lines ["[web]"; "[]"; "web01"]).1) =
    ["ungrouped"; "web"] /\
  groups (inventory_data (parse_lines ["[web]"; "[]"; "web01"]).1) !! "" =
    Some ["web01"] /\
  groups (inventory_data (parse_lines ["[web]"; "[]"; "web01"]).1) !! "web" = None.
Proof. vm_compute. auto 12. Qed.

(** ** Fatal and recoverable conditions (section 7) *)

Lemma bind_returned {A B} (m : M A) (f : A -> M B) (st st' : State) (a : A) :
  m st = (st', inr a) -> (m ≫= f) st = f a st'.
Proof. intros Hm. unfold mbind, M_bind. rewrite Hm. reflexivity. Qed.

Lemma effective_hosts_directory w cfg :
  hosts_directory (effective w cfg) = hosts_directory cfg.
Proof. unfold effective. destruct (_ && _); reflexivity. Qed.

Lemma run_outcome (w : World) (cfg : Config) :
  (run w cfg).2 =
    if negb (Str.nonempty (hosts_directory cfg)) then inl HostsDirectoryRequired
    else if negb (path_exists w (hosts_directory cfg))
    then inl (HostsDirectoryDoesNotExist (hosts_directory cfg))
    else if negb (path_isdir w (hosts_directory cfg))
    then inl (HostsDirectoryNotADirectory (hosts_directory cfg))
    else match (walk w cfg).2 with
         | inl e => inl (FailedToProcess e)
         | inr _ => inr tt
         end.
Proof.
  destruct (hosts_directory cfg) as [|c root] eqn:Hroot.
  - rewrite run_without_root by exact Hroot. reflexivity.
  - rewrite run_unfold by (rewrite Hroot; discriminate).
    unfold walk, state_before_walk, process_hosts_directory.
    rewrite effective_hosts_directory, Hroot. cbn [Str.nonempty negb].
    unfold mbind, M_bind, record, raise, try_except. cbn.
    destruct (path_exists w (String c root)); cbn; [|reflexivity].
    destruct (path_isdir w (String c root)); cbn; [|reflexivity].
    destruct (_process_environment_directories _ _ _) as [st [e|[]]]; reflexivity.
Qed.

Lemma missing_directory_step (w : World) (cfg : Config) (total_files : nat)
    (env_dir : string) (st : State) :
  Str.contains ".." env_dir || Path.isabs env_dir = false ->
  path_exists w (Path.join (hosts_directory cfg) env_dir) = false ->
  process_environment_directory w cfg total_files env_dir st =
    (add_diagnostic vv (EnvironmentDirectoryMissing (Path.join (hosts_directory cfg) env_dir))
       (add_call (os_path_exists (Path.join (hosts_directory cfg) env_dir)) st),
     inr total_files).
Proof.
  intros Hsafe Hmissing. unfold process_environment_directory.
  rewrite Hsafe. unfold_monad. cbn. rewrite Hmissing. reflexivity.
Qed.

Lemma not_a_directory_step (w : World) (cfg : Config) (total_files : nat)
    (env_dir : string) (st : State) :
  Str.contains ".." env_dir || Path.isabs env_dir = false ->
  path_exists w (Path.join (hosts_directory cfg) env_dir) = true ->
  path_isdir w (Path.join (hosts_directory cfg) env_dir) = false ->
  process_environment_directory w cfg total_files env_dir st =
    (add_diagnostic vv
       (EnvironmentPathNotADirectory (Path.join (hosts_directory cfg) env_dir))
       (add_call (os_path_isdir (Path.join (hosts_directory cfg) env_dir))
          (add_call (os_path_exists (Path.join (hosts_directory cfg) env_dir)) st)),
     inr total_files).
Proof.
  intros Hsafe Hexists Hnodir. unfold process_environment_directory.
  rewrite Hsafe. unfold_monad. cbn. rewrite Hexists. cbn. rewrite Hnodir. reflexivity.
Qed.

Lemma unreadable_file_step (w : World) (cfg : Config) (filename : string)
    (environment : option string) (e : string) (st : State) :
  readlines w filename = IOError e ->
  _process_single_host_file w cfg filename environment st =
    (add_diagnostic warning (CouldNotReadFile filename e)
       (add_call (open_file filename)
          (add_diagnostic vv (ProcessingFile filename environment) st)),
     inr tt).
Proof.
  intros Hread. unfold _process_single_host_file. unfold_monad. cbn.
  rewrite Hread. reflexivity.
Qed.

Lemma no_files_step (w : World) (cfg : Config) (st st' : State) :
  foldM (process_environment_directory w cfg) (environment_dirs cfg) 0
    (set_data initial_inventory st) = (st', inr 0) ->
  _process_environment_directories w cfg st =
    (add_diagnostic warning NoHostsFilesAnywhere st', inr tt).
Proof.
  intros Hloop. unfold _process_environment_directories.
  rewrite (bind_returned (put_data initial_inventory) _ st _ tt eq_refl).
  rewrite (bind_returned _ _ _ _ _ Hloop). reflexivity.
Qed.

(** C6: a run ends in a fatal error exactly when the root directory is
    absent (not named, or not on the file system), is not a directory, or
    the walker raises.  When nothing unexpected can be raised, a run whose
    root is a directory always completes, whatever directories are
    missing, files unreadable, group names empty or files found.  A
    missing environment directory, one that is not a directory and an
    unreadable file each add their diagnostic, leave the inventory as it
    was and let the loop go on; finding no file at all ends the walk with
    a warning.  A header with an empty name adds its warning and leaves
    the inventory as it was too, but it does not leave the line loop as it
    was: the current group becomes the empty name, so that in the file
    [[web]], [[]], [web01] the host is filed under the group [""] and not
    under [web]. *)
Theorem fatal_and_recoverable_conditions (w : World) (cfg : Config) :
  ((exists e, (run w cfg).2 = inl e) <->
   hosts_directory cfg = "" \/
   path_exists w (hosts_directory cfg) = false \/
   path_isdir w (hosts_directory cfg) = false \/
   exists e, (walk w cfg).2 = inl e) /\
  (nothing_unexpected w ->
   hosts_directory cfg <> "" ->
   path_exists w (hosts_directory cfg) = true ->
   path_isdir w (hosts_directory cfg) = true ->
   (run w cfg).2 = inr tt) /\
  (forall total_files env_dir st,
     Str.contains ".." env_dir || Path.isabs env_dir = false ->
     path_exists w (Path.join (hosts_directory cfg) env_dir) = false ->
     process_environment_directory w cfg total_files env_dir st =
       (add_diagnostic vv (EnvironmentDirectoryMissing (Path.join (hosts_directory cfg) env_dir))
          (add_call (os_path_exists (Path.join (hosts_directory cfg) env_dir)) st),
        inr total_files)) /\
  (forall total_files env_dir st,
     Str.contains ".." env_dir || Path.isabs env_dir = false ->
     path_exists w (Path.join (hosts_directory cfg) env_dir) = true ->
     path_isdir w (Path.join (hosts_directory cfg) env_dir) = false ->
     process_environment_directory w cfg total_files env_dir st =
       (add_diagnostic vv
          (EnvironmentPathNotADirectory (Path.join (hosts_directory cfg) env_dir))
          (add_call (os_path_isdir (Path.join (hosts_directory cfg) env_dir))
             (add_call (os_path_exists (Path.join (hosts_directory cfg) env_dir)) st)),
        inr total_files)) /\
  (forall filename environment e st,
     readlines w filename = IOError e ->
     _process_single_host_file w cfg filename environment st =
       (add_diagnostic warning (CouldNotReadFile filename e)
          (add_call (open_file filename)
             (add_diagnostic vv (ProcessingFile filename environment) st)),
        inr tt)) /\
  (forall filename environment group host entry st,
     header_name entry = Some "" ->
     process_entry w cfg filename environment (group, host) entry st =
       (add_diagnostic warning (EmptyGroupName filename) st, inr ("", host))) /\
  (forall st st',
     foldM (process_environment_directory w cfg) (environment_dirs cfg) 0
       (set_data initial_inventory st) = (st', inr 0) ->
     _process_environment_directories w cfg st =
       (add_diagnostic warning NoHostsFilesAnywhere st', inr tt)) /\
  (groups (inventory_data (parse_lines ["[web]"; "[]"; "web01"]).1) !! "" = Some ["web01"] /\
   groups (inventory_data (parse_lines ["[web]"; "[]"; "web01"]).1) !! "web" = None /\
   groups (inventory_data (parse_lines ["[web]"; "web01"]).1) !! "web" = Some ["web01"]).
Proof.
  split; [|split; [|split; [|split; [|split; [|split; [|split]]]]]].
  - rewrite run_outcome. split.
    + intros [e He].
      destruct (hosts_directory cfg) as [|c root]; [left; reflexivity|]. right.
      cbn [Str.nonempty negb] in He.
      destruct (path_exists w (String c root)); [|left; reflexivity]. right.
      destruct (path_isdir w (String c root)); [|left; reflexivity]. right.
      cbn [negb] in He. destruct (walk w cfg).2 as [e'|]; [eauto | discriminate].
    + intros Hcause.
      destruct (hosts_directory cfg) as [|c root]; [cbn; eauto|]. cbn [Str.nonempty negb].
      destruct (path_exists w (String c root)); [|cbn; eauto]. cbn [negb].
      destruct (path_isdir w (String c root)); [|cbn; eauto]. cbn [negb].
      destruct Hcause as [Hcause|[Hcause|[Hcause|[e He]]]]; try discriminate.
      rewrite He. eauto.
  - intros Hworld Hroot Hexists Hisdir. rewrite run_unfold by exact Hroot.
    rewrite <- (effective_hosts_directory w cfg) in Hexists, Hisdir.
    match goal with
    | |- (process_hosts_directory w ?c ?st).2 = _ =>
        destruct (process_hosts_directory_returns w c Hworld Hexists Hisdir st I)
          as ([] & Hret & _)
    end.
    exact Hret.
  - intros total_files env_dir st Hsafe Hmissing. apply missing_directory_step; assumption.
  - intros total_files env_dir st Hsafe Hexists Hnodir.
    apply not_a_directory_step; assumption.
  - intros filename environment e st Hread. apply unreadable_file_step. exact Hread.
  - intros filename environment group host entry st Hname.
    rewrite (header_step _ _ _ _ _ _ _ _ _ Hname). reflexivity.
  - intros st st'. apply no_files_step.
  - vm_compute. auto.
Qed.

(** *** Snapshot worlds raise nothing unexpected *)

Lemma snapshot_nothing_unexpected has_dns dirs files locked globs cnames :
  forallb (fun kv => forallb header_allowed kv.2) files = true ->
  nothing_unexpected (snapshot has_dns dirs files locked globs cnames).
Proof.
  intros Hfiles. split; [|split].
  - intros filename e. cbn. destruct (bool_decide _); [discriminate|].
    destruct (table files filename); discriminate.
  - reflexivity.
  - intros filename entries entry Hread Hin.
    apply snapshot_lines in Hread.
    rewrite forallb_forall in Hfiles. specialize (Hfiles _ Hread). cbn in Hfiles.
    rewrite forallb_forall in Hfiles. apply list_elem_of_In in Hin.
    specialize (Hfiles _ Hin). unfold header_allowed in Hfiles.
    apply andb_prop in Hfiles. destruct Hfiles as [Hmeta Hall].
    apply negb_true_iff in Hmeta, Hall.
    apply bool_decide_eq_false in Hmeta, Hall. auto.
Qed.

Lemma fatal_and_recoverable_conditions_witness :
  nothing_unexpected world_rough /\
  hosts_directory config_A <> "" /\
  path_exists world_rough (hosts_directory config_A) = true /\
  path_isdir world_rough (hosts_directory config_A) = true /\
  (run world_rough config_A).2 = inr tt /\
  header_name "[]" = Some "" /\
  process_entry world_rough config_A "/inv/prod/hosts.ini" (Some "prod") ("web", "web01") "[]"
    initial_state =
    (add_diagnostic warning (EmptyGroupName "/inv/prod/hosts.ini") initial_state,
     inr ("", "web01")).
Proof.
  assert (Hworld : nothing_unexpected world_rough)
    by (apply snapshot_nothing_unexpected; vm_compute; reflexivity).
  assert (Hroot : hosts_directory config_A <> "") by discriminate.
  assert (Hexists : path_exists world_rough (hosts_directory config_A) = true)
    by (vm_compute; reflexivity).
  assert (Hisdir : path_isdir world_rough (hosts_directory config_A) = true)
    by (vm_compute; reflexivity).
  assert (Hname : header_name "[]" = Some "") by reflexivity.
  destruct (fatal_and_recoverable_conditions world_rough config_A)
    as (_ & Hruns & _ & _ & _ & Hheader & _).
  split; [exact Hworld|]. split; [exact Hroot|]. split; [exact Hexists|].
  split; [exact Hisdir|]. split; [exact (Hruns Hworld Hroot Hexists Hisdir)|].
  split; [exact Hname|].
  exact (Hheader "/inv/prod/hosts.ini" (Some "prod") "web" "web01" "[]" initial_state Hname).
Defined.

Example rough_run_diagnostics :
  diagnostics (run world_rough config_A).1 =
    [ (warning, DnsUnavailable);
      (v, ProcessingEnvironmentDirectory "prod");
      (v, FoundHostsFiles 2 "prod" ["hosts.ini"; "hosts_locked"]);
      (vv, ProcessingFile "/inv/prod/hosts.ini" (Some "prod"));
      (vv, SetEnvironment "PRD" "web01" "prod");
      (warning, EmptyGroupName "/inv/prod/hosts.ini");
      (vv, ProcessingFile "/inv/prod/hosts_locked" (Some "prod"));
      (warning, CouldNotReadFile "/inv/prod/hosts_locked" "Permission denied");
      (vv, EnvironmentPathNotADirectory "/inv/acc");
      (vv, EnvironmentDirectoryMissing "/inv/tst");
      (vv, EnvironmentDirectoryMissing "/inv/qas");
      (v, ProcessedTotal 2) ].
Proof. vm_compute. reflexivity. Qed.

(** ** What the tagging methods do to [environment] *)

Lemma environment_of_with_variable (host value : string) (d : InventoryData) :
  environment_of host (with_variable host "environment" value d) = Some value.
Proof.
  unfold environment_of, with_variable. cbn.
  rewrite lookup_insert_eq. cbn. apply lookup_insert_eq.
Qed.

Lemma lookup_with_variable_other (host key value h k : string) (d : InventoryData) :
  known host d -> k <> key ->
  hostvars (with_variable host key value d) !! h ≫= (.!! k) = hostvars d !! h ≫= (.!! k).
Proof.
  intros [vars Hvars] Hkey. unfold with_variable. cbn.
  destruct (decide (host = h)) as [->|Hne].
  - rewrite lookup_insert_eq, Hvars. cbn. apply lookup_insert_ne. congruence.
  - rewrite lookup_insert_ne by exact Hne. reflexivity.
Qed.

Lemma set_environment_from_directory_tags (cfg : Config) (host env_dir : string)
    (st : State) :
  host <> "" -> env_dir <> "" -> known host (inventory_data st) ->
  exists st1,
    _set_environment_from_directory cfg host env_dir st = (st1, inr tt) /\
    known host (inventory_data st1) /\
    environment_of host (inventory_data st1) =
      Some (_generate_environment_code cfg (Some env_dir)).
Proof.
  intros Hhost Hdir Hknown. eexists. split.
  - apply set_environment_from_directory_run. exact Hknown.
  - destruct host; [contradiction|]. destruct env_dir; [contradiction|].
    cbn [Str.nonempty negb orb]. cbn.
    split; [apply with_variable_known; exact Hknown | apply environment_of_with_variable].
Qed.

Lemma resolve_dns_keeps_environment (w : World) (hostname h : string) (st : State) :
  known h (inventory_data st) ->
  exists st1,
    _resolve_dns w hostname st = (st1, inr tt) /\
    known h (inventory_data st1) /\
    environment_of h (inventory_data st1) = environment_of h (inventory_data st).
Proof.
  intros Hknown. eexists. split; [apply resolve_dns_run|].
  destruct (resolve w hostname) as [[|target rest]| | |e]; cbn; auto.
  destruct (hostvars (inventory_data st) !! hostname) as [vars|] eqn:Hvars; cbn; auto.
  split; [apply with_variable_known; exact Hknown|].
  apply lookup_with_variable_other; [unfold known; rewrite Hvars; eauto | discriminate].
Qed.

Lemma detect_environment_tags (host group : string) (st : State) :
  host <> "" -> group <> "" -> known host (inventory_data st) ->
  exists st1,
    _detect_environment host group st = (st1, inr tt) /\
    environment_of host (inventory_data st1) =
      match environment_of host (inventory_data st) with
      | Some value => Some value
      | None => Some (group_environment group)
      end.
Proof.
  intros Hhost Hgroup Hknown. eexists. split.
  - apply detect_environment_run. exact Hknown.
  - destruct host; [contradiction|]. destruct group; [contradiction|].
    cbn [Str.nonempty negb orb]. cbn.
    destruct (environment_of _ (inventory_data st)) as [value|] eqn:Henv; cbn.
    + exact Henv.
    + apply environment_of_with_variable.
Qed.

(** ** Repeated definitions of a host (section 4.2, step 4) *)

Global Instance only_touches_preorder host keys : PreOrder (only_touches host keys).
Proof.
  split.
  - intros st. repeat split; auto.
  - intros a b c (Hc1 & Hg1 & Hk1 & Hv1) (Hc2 & Hg2 & Hk2 & Hv2).
    repeat split.
    + congruence.
    + congruence.
    + intros H. apply Hk1, Hk2, H.
    + intros H. apply Hk2, Hk1, H.
    + intros h k Hhk. rewrite Hv2, Hv1 by exact Hhk. reflexivity.
Qed.

Lemma only_touches_same_data host keys (st st' : State) :
  inventory_data st' = inventory_data st -> only_touches host keys st st'.
Proof. intros H. unfold only_touches. rewrite H. repeat split; auto. Qed.

Lemma set_variable_only_touches (host key value : string) (keys : list string) :
  key ∈ keys -> preserves (only_touches host keys) (set_variable host key value).
Proof.
  intros Hkey st.
  destruct (hostvars (inventory_data st) !! host) as [vars|] eqn:Hvars.
  - assert (Hknown : known host (inventory_data st)) by (unfold known; rewrite Hvars; eauto).
    rewrite set_variable_run by exact Hknown. cbn.
    split; [reflexivity|]. split; [reflexivity|]. split.
    + intros h. split; [|apply with_variable_known].
      unfold known, with_variable. cbn. destruct (decide (host = h)) as [->|Hne].
      * intros _. exact Hknown.
      * rewrite lookup_insert_ne by exact Hne. auto.
    + intros h k Hhk. destruct (decide (h = host)) as [->|Hne].
      * apply lookup_with_variable_other; [exact Hknown|].
        intros ->. exact (Hhk eq_refl Hkey).
      * unfold with_variable. cbn. rewrite lookup_insert_ne by congruence. reflexivity.
  - rewrite set_variable_unknown by exact Hvars. reflexivity.
Qed.

Ltac touches_step :=
  first
    [ apply set_variable_only_touches; set_solver
    | lazymatch goal with
      | |- preserves _ (display _ _) =>
          intros ?; apply only_touches_same_data; reflexivity
      | |- preserves _ (record _) =>
          intros ?; apply only_touches_same_data; reflexivity
      end
    | preserves_step ].

Lemma tag_host_only_touches (w : World) (cfg : Config) (environment : option string)
    (group host : string) :
  preserves (only_touches host ["environment"; "DNSName"])
    (tag_host w cfg environment group host).
Proof.
  unfold tag_host, _set_environment_from_directory, _resolve_dns, _detect_environment,
    host_variables.
  repeat touches_step.
Qed.

(** The tagging methods display no duplicate-host warning. *)
Lemma tag_host_displays_no_duplicate (w : World) (cfg : Config)
    (environment : option string) (group host : string) :
  preserves (emits (fun d => forall h, d.2 <> DuplicateHost h) (fun _ => True))
    (tag_host w cfg environment group host).
Proof.
  unfold tag_host, _set_environment_from_directory, _resolve_dns, _detect_environment.
  repeat first [ apply emits_display; intros ?; discriminate
               | apply emits_record; exact I
               | apply emits_set_variable
               | apply emits_host_variables
               | preserves_step ].
Qed.

Lemma assign_all_untouched (vars : gmap string string) (kvs : list (string * string))
    (key : string) :
  key ∉ kvs.*1 -> assign_all vars kvs !! key = vars !! key.
Proof.
  revert vars. induction kvs as [|[k x] kvs IH]; intros vars Hkey; [reflexivity|].
  cbn in *. apply not_elem_of_cons in Hkey. destruct Hkey as [Hne Hkey].
  unfold assign_all in *. cbn. rewrite IH by exact Hkey.
  apply lookup_insert_ne. congruence.
Qed.

Lemma assign_all_last (vars : gmap string string) (earlier later : list (string * string))
    (key value : string) :
  key ∉ later.*1 -> assign_all vars (earlier ++ (key, value) :: later) !! key = Some value.
Proof.
  intros Hkey. unfold assign_all. rewrite foldl_app. cbn.
  fold (assign_all (<[key:=value]> (foldl (fun vars kv => <[kv.1:=kv.2]> vars) vars earlier))
          later).
  rewrite assign_all_untouched by exact Hkey. apply lookup_insert_eq.
Qed.

Lemma assign_variable_run (host item : string) (st : State) :
  known host (inventory_data st) ->
  assign_variable host item st =
    (match assignment item with
     | Some (key, value) => set_data (with_variable host key value (inventory_data st)) st
     | None => st
     end, inr tt).
Proof.
  intros Hknown. unfold assign_variable, assignment.
  destruct (Str.contains "=" item) eqn:Hcontains; [|reflexivity].
  destruct (contains_split_first _ _ Hcontains) as [[key value] ->].
  apply set_variable_run. exact Hknown.
Qed.

Lemma assign_loop_run (host : string) (items : list string) (st : State)
    (vars : gmap string string) :
  hostvars (inventory_data st) !! host = Some vars ->
  exists st',
    for_each items (assign_variable host) st = (st', inr tt) /\
    diagnostics st' = diagnostics st /\ trace st' = trace st /\
    children (inventory_data st') = children (inventory_data st) /\
    groups (inventory_data st') = groups (inventory_data st) /\
    hostvars (inventory_data st') =
      <[host := assign_all vars (assignments items)]> (hostvars (inventory_data st)).
Proof.
  revert st vars. induction items as [|item items IH]; intros st vars Hvars.
  - exists st. repeat split; try reflexivity. cbn. symmetry. apply insert_id. exact Hvars.
  - assert (Hknown : known host (inventory_data st)) by (unfold known; rewrite Hvars; eauto).
    unfold for_each in *. cbn [foldM].
    rewrite (bind_returned _ _ _ _ _ (assign_variable_run host item st Hknown)).
    unfold assignments. cbn [omap list_omap]. fold (assignments items).
    destruct (assignment item) as [[key value]|].
    + destruct (IH (set_data (with_variable host key value (inventory_data st)) st)
                  (<[key:=value]> vars)) as (st' & Hrun & Hd & Ht & Hc & Hg & Hv).
      { cbn. rewrite Hvars. cbn. apply lookup_insert_eq. }
      exists st'. split; [exact Hrun|]. cbn in *. rewrite Hvars in Hv. cbn in Hv.
      rewrite insert_insert_eq in Hv. auto.
    + apply IH. exact Hvars.
Qed.

Lemma with_host_NoDup (group host : string) (d : InventoryData) :
  (forall g hosts, groups d !! g = Some hosts -> NoDup hosts) ->
  forall g hosts, groups (with_host group host d) !! g = Some hosts -> NoDup hosts.
Proof.
  intros Hinv g hosts. unfold with_host. cbn.
  case_bool_decide as Hin; [apply Hinv|].
  destruct (decide (group = g)) as [->|Hne].
  - rewrite lookup_insert_eq. intros [= <-].
    apply NoDup_app. split; [|split].
    + destruct (groups d !! g) as [old|] eqn:Hold; cbn; [eapply Hinv; eassumption|].
      apply NoDup_nil_2.
    + intros x Hx Hx'. apply list_elem_of_singleton in Hx'. subst x. contradiction.
    + apply NoDup_singleton.
  - rewrite lookup_insert_ne by exact Hne. apply Hinv.
Qed.

(** C5 (amended): when a host line names a host that is already
    defined, exactly one duplicate-host warning is displayed for it, the
    set of hosts is unchanged, the host is appended to the current group's
    list unless it is listed there already (so the group lists stay free
    of duplicates, and nothing changes when the group is the same), and
    every variable the line assigns ends with the value of its last
    assignment on that line, while the variables it does not assign keep
    their earlier values; [environment] and [DNSName] are left to the
    tagging steps. *)
Theorem repeated_host_definition (w : World) (cfg : Config) (environment : option string)
    (group host0 item : string) (items : list string) (st : State)
    (vars : gmap string string) :
  group <> "_meta" -> group <> "all" ->
  hostvars (inventory_data st) !! item = Some vars ->
  let r := host_entry w cfg environment group host0 (item :: items) st in
  r.2 = inr item /\
  (exists ds, diagnostics r.1 = diagnostics st ++ (warning, DuplicateHost item) :: ds /\
              forall l h, (l, DuplicateHost h) ∉ ds) /\
  (forall h, known h (inventory_data r.1) <-> known h (inventory_data st)) /\
  children (inventory_data r.1) = children (inventory_data st) /\
  groups (inventory_data r.1) = groups (with_host group item (inventory_data st)) /\
  ((forall g hosts, groups (inventory_data st) !! g = Some hosts -> NoDup hosts) ->
   forall g hosts, groups (inventory_data r.1) !! g = Some hosts -> NoDup hosts) /\
  (forall key, key <> "environment" -> key <> "DNSName" ->
     hostvars (inventory_data r.1) !! item ≫= (.!! key) =
       assign_all vars (assignments items) !! key) /\
  (forall key value earlier later,
     assignments items = earlier ++ (key, value) :: later -> key ∉ later.*1 ->
     assign_all vars (assignments items) !! key = Some value) /\
  (forall key, key ∉ (assignments items).*1 ->
     assign_all vars (assignments items) !! key = vars !! key).
Proof.
  intros Hmeta Hall Hvars. cbn zeta.
  (* the token loop *)
  pose proof (define_host_run group item st Hmeta Hall) as Hdefine.
  cbn zeta in Hdefine. rewrite Hvars in Hdefine.
  set (st1 := add_diagnostic warning (DuplicateHost item)
                (set_data (with_host group item (inventory_data st)) st)) in *.
  assert (Hvars1 : hostvars (inventory_data st1) !! item = Some vars).
  { cbn. unfold with_host. cbn. rewrite Hvars. exact Hvars. }
  destruct (assign_loop_run item items st1 vars Hvars1)
    as (st2 & Hloop & Hd2 & Ht2 & Hc2 & Hg2 & Hv2).
  assert (Hknown2 : known item (inventory_data st2)).
  { unfold known. rewrite Hv2, lookup_insert_eq. eauto. }
  (* the tagging steps *)
  destruct (tag_host_returns_known w cfg environment group item st2 Hknown2)
    as ([] & Htag & _).
  pose proof (tag_host_only_touches w cfg environment group item st2)
    as (Hc3 & Hg3 & Hk3 & Hv3).
  pose proof (tag_host_displays_no_duplicate w cfg environment group item st2)
    as (ds & cs & Hd3 & _ & Fd & _).
  assert (Hrun : host_entry w cfg environment group host0 (item :: items) st =
                 ((tag_host w cfg environment group item st2).1, inr item)).
  { unfold host_entry.
    rewrite (bind_returned
               (define_host group item;; for_each items (assign_variable item);; mret item)
               _ st st2 item).
    - destruct (tag_host w cfg environment group item st2) as [st3 [e|[]]] eqn:Hst3;
        cbn in Htag; [discriminate|].
      rewrite (bind_returned _ _ _ _ _ Hst3). reflexivity.
    - rewrite (bind_returned _ _ _ _ _ Hdefine), (bind_returned _ _ _ _ _ Hloop).
      reflexivity. }
  rewrite Hrun. cbn [fst snd].
  set (st3 := (tag_host w cfg environment group item st2).1) in *.
  assert (Hsame : hostvars (inventory_data st1) = hostvars (inventory_data st))
    by (cbn; unfold with_host; cbn; rewrite Hvars; reflexivity).
  split; [reflexivity|]. split; [|split; [|split; [|split; [|split; [|split; [|split]]]]]].
  - exists ds. split.
    + rewrite Hd3, Hd2. cbn. rewrite <- app_assoc. reflexivity.
    + intros l h Hin. exact (proj1 (Forall_forall _ _) Fd _ Hin h eq_refl).
  - intros h. rewrite Hk3. unfold known. rewrite Hv2, Hsame.
    destruct (decide (item = h)) as [->|Hne].
    + rewrite lookup_insert_eq, Hvars. split; eauto.
    + rewrite lookup_insert_ne by exact Hne. reflexivity.
  - rewrite Hc3, Hc2. reflexivity.
  - rewrite Hg3, Hg2. reflexivity.
  - intros Hnodup g hosts. rewrite Hg3, Hg2. cbn.
    apply with_host_NoDup. exact Hnodup.
  - intros key Henv Hdns. rewrite Hv3.
    + rewrite Hv2, lookup_insert_eq. reflexivity.
    + intros _ Hin. apply elem_of_cons in Hin. destruct Hin as [Hkey|Hin]; [contradiction|].
      apply list_elem_of_singleton in Hin. contradiction.
  - intros key value earlier later -> Hlater. apply assign_all_last. exact Hlater.
  - intros key Hkey. apply assign_all_untouched. exact Hkey.
Qed.

Lemma repeated_host_definition_witness :
  "db" <> "_meta" /\ "db" <> "all" /\
  hostvars (inventory_data state_db01) !! "db01" = Some vars_db01 /\
  (host_entry world_A config_A (Some "acc") "db" "" ["db01"; "role=replica"] state_db01).2 =
    inr "db01" /\
  hostvars
    (inventory_data
       (host_entry world_A config_A (Some "acc") "db" "" ["db01"; "role=replica"]
          state_db01).1) !! "db01" ≫= (.!! "role") =
    assign_all vars_db01 (assignments ["role=replica"]) !! "role".
Proof.
  assert (Hmeta : "db" <> "_meta") by discriminate.
  assert (Hall : "db" <> "all") by discriminate.
  assert (Hvars : hostvars (inventory_data state_db01) !! "db01" = Some vars_db01)
    by (vm_compute; reflexivity).
  destruct (repeated_host_definition world_A config_A (Some "acc") "db" "" "db01"
              ["role=replica"] state_db01 vars_db01 Hmeta Hall Hvars)
    as (Hret & _ & _ & _ & _ & _ & Hkeys & _).
  split; [exact Hmeta|]. split; [exact Hall|]. split; [exact Hvars|].
  split; [exact Hret|]. apply Hkeys; discriminate.
Defined.

(** C5, as stated, fails when the second file defines the host under
    another group and assigns fewer variables: the host joins the second
    group as well, and a variable only the first file assigns keeps the
    first file's value. *)
Lemma second_definition_adds_group_and_keeps_variable :
  groups (inventory_data (run world_one_definition config_A).1) !! "standby" = None /\
  groups (inventory_data (run world_two_definitions config_A).1) !! "standby" =
    Some ["db01"] /\
  groups (inventory_data (run world_two_definitions config_A).1) !! "db" = Some ["db01"] /\
  List.filter (fun d => bool_decide (d.2 = DuplicateHost "db01"))
    (diagnostics (run world_two_definitions config_A).1) = [(warning, DuplicateHost "db01")] /\
  hostvars (inventory_data (run world_two_definitions config_A).1) !! "db01"
    ≫= (.!! "role") = Some "replica" /\
  hostvars (inventory_data (run world_two_definitions config_A).1) !! "db01"
    ≫= (.!! "port") = Some "5432".
Proof. vm_compute. auto 8. Qed.

(** ** The environment of a host line (section 4.5) *)

(** What the three tagging steps do to the [environment] of a known
    host. *)
Lemma tag_host_environment (w : World) (cfg : Config) (environment : option string)
    (group host : string) (st : State) :
  host <> "" -> known host (inventory_data st) ->
  (forall env_dir,
     environment = Some env_dir -> env_dir <> "" -> environment_detection cfg = true ->
     environment_of host (inventory_data (tag_host w cfg environment group host st).1) =
       Some (_generate_environment_code cfg (Some env_dir))) /\
  (forall h g,
     enter_detect_environment h g ∈ trace (tag_host w cfg environment group host st).1 ->
     environment = None \/ enter_detect_environment h g ∈ trace st) /\
  (environment = None ->
   forall value,
     environment_of host (inventory_data st) = Some value ->
     environment_of host (inventory_data (tag_host w cfg environment group host st).1) =
       Some value) /\
  (environment = None -> environment_detection cfg = true -> group <> "" ->
   environment_of host (inventory_data st) = None ->
   environment_of host (inventory_data (tag_host w cfg environment group host st).1) =
     Some (group_environment group)).
Proof.
  intros Hhost Hknown.
  assert (Hdns : forall st0, known host (inventory_data st0) ->
            exists st1,
              (if Str.nonempty host && dns_resolution cfg then _resolve_dns w host
               else mret tt) st0 = (st1, inr tt) /\
              known host (inventory_data st1) /\
              environment_of host (inventory_data st1) =
                environment_of host (inventory_data st0)).
  { intros st0 Hknown0. destruct (Str.nonempty host && dns_resolution cfg).
    - apply resolve_dns_keeps_environment. exact Hknown0.
    - exists st0. auto. }
  assert (Hnonempty : Str.nonempty host = true) by (destruct host; [contradiction|reflexivity]).
  split; [|split; [|split]].
  - intros env_dir -> Hdir Hdetect. unfold tag_host.
    assert (Hgiven : hint_given (Some env_dir) = true)
      by (destruct env_dir; [contradiction|reflexivity]).
    rewrite Hnonempty, Hgiven, Hdetect. cbn [andb is_None_hint default].
    rewrite andb_false_r.
    destruct (set_environment_from_directory_tags cfg host env_dir st Hhost Hdir Hknown)
      as (st1 & Hrun1 & Hknown1 & Henv1).
    rewrite (bind_returned _ _ _ _ _ Hrun1).
    destruct (Hdns st1 Hknown1) as (st2 & Hrun2 & _ & Henv2).
    rewrite Hnonempty in Hrun2. rewrite (bind_returned _ _ _ _ _ Hrun2).
    unfold mret, M_ret. cbn [fst]. congruence.
  - intros h g Hin. destruct environment as [env_dir|]; [right|left; reflexivity].
    destruct (tag_host_emits w cfg env_dir group host st) as (ds & cs & _ & Hc & _ & Fc).
    rewrite Hc in Hin. apply elem_of_app in Hin. destruct Hin as [Hin|Hin]; [exact Hin|].
    exfalso. exact (proj1 (Forall_forall _ _) Fc _ Hin).
  - intros -> value Henv. unfold tag_host. cbn [hint_given is_None_hint].
    rewrite !andb_false_r, andb_true_r. cbn [andb].
    rewrite (bind_returned (mret tt) _ st st tt eq_refl).
    destruct (Hdns st Hknown) as (st2 & Hrun2 & Hknown2 & Henv2).
    rewrite (bind_returned _ _ _ _ _ Hrun2).
    destruct (Str.nonempty host && Str.nonempty group && environment_detection cfg) eqn:Hc.
    + destruct group as [|c group]; [rewrite andb_false_r in Hc; discriminate|].
      destruct (detect_environment_tags host (String c group) st2 Hhost) as (st3 & Hrun3 & Henv3);
        [discriminate | exact Hknown2 |].
      rewrite Hrun3. cbn [fst]. rewrite Henv3, Henv2, Henv. reflexivity.
    + unfold mret, M_ret. cbn [fst]. congruence.
  - intros -> Hdetect Hgroup Henv. unfold tag_host. cbn [hint_given is_None_hint].
    rewrite !andb_false_r, andb_true_r. cbn [andb].
    rewrite (bind_returned (mret tt) _ st st tt eq_refl).
    destruct (Hdns st Hknown) as (st2 & Hrun2 & Hknown2 & Henv2).
    rewrite (bind_returned _ _ _ _ _ Hrun2).
    assert (Hg : Str.nonempty group = true) by (destruct group; [contradiction|reflexivity]).
    rewrite Hnonempty, Hg, Hdetect. cbn [andb].
    destruct (detect_environment_tags host group st2 Hhost Hgroup Hknown2)
      as (st3 & Hrun3 & Henv3).
    rewrite Hrun3. cbn [fst]. rewrite Henv3, Henv2, Henv. reflexivity.
Qed.


(** The token loop defines the host it names. *)
Lemma token_loop_run (group item : string) (items : list string) (st : State) :
  group <> "_meta" -> group <> "all" ->
  exists st2,
    (define_host group item;; for_each items (assign_variable item);; mret item) st =
      (st2, inr item) /\
    known item (inventory_data st2).
Proof.
  intros Hmeta Hall.
  destruct (define_host_returns group item Hmeta Hall st I) as ([] & Hret & Hknown).
  destruct (define_host group item st) as [st1 [e|[]]] eqn:Hdefine;
    cbn in Hret, Hknown; [discriminate|].
  destruct Hknown as [vars Hvars].
  destruct (assign_loop_run item items st1 vars Hvars) as (st2 & Hloop & _ & _ & _ & _ & Hv).
  exists st2. split.
  - rewrite (bind_returned _ _ _ _ _ Hdefine), (bind_returned _ _ _ _ _ Hloop). reflexivity.
  - unfold known. rewrite Hv, lookup_insert_eq. eauto.
Qed.

(** With the empty name as hint the tagging steps leave [environment]
    as it is. *)
Lemma tag_host_empty_hint (w : World) (cfg : Config) (group host : string) (st : State) :
  known host (inventory_data st) ->
  environment_of host (inventory_data (tag_host w cfg (Some "") group host st).1) =
    environment_of host (inventory_data st).
Proof.
  intros Hknown. unfold tag_host. cbn [hint_given is_None_hint Str.nonempty].
  rewrite !andb_false_r. cbn [andb].
  rewrite (bind_returned (mret tt) _ st st tt eq_refl).
  destruct (Str.nonempty host && dns_resolution cfg).
  - destruct (resolve_dns_keeps_environment w host host st Hknown) as (st1 & Hrun & _ & Henv).
    rewrite (bind_returned _ _ _ _ _ Hrun). exact Henv.
  - rewrite (bind_returned (mret tt) _ st st tt eq_refl). reflexivity.
Qed.

(** C2 (amended): a host line under a group other than the two fixed
    keys, processed with a non-empty directory name as hint while
    detection is on, leaves the host's [environment] equal to the
    Resolver's code for that directory, whatever the line or earlier lines
    assigned to it; the fallback from the group name is entered only when
    the hint is null, it leaves alone an [environment] value the host
    already has, and it checks [_PRD], [_ACC], [_QAS], [_TST] in that
    order, with [MISC] as the default.  With the empty name as hint
    neither path runs and [environment] stays as it was. *)
Theorem environment_tagging (w : World) (cfg : Config) :
  (forall group host0 item items env_dir st,
     group <> "_meta" -> group <> "all" -> item <> "" -> env_dir <> "" ->
     environment_detection cfg = true ->
     (host_entry w cfg (Some env_dir) group host0 (item :: items) st).2 = inr item /\
     environment_of item
       (inventory_data (host_entry w cfg (Some env_dir) group host0 (item :: items) st).1) =
       Some (_generate_environment_code cfg (Some env_dir))) /\
  (forall environment group host st,
     host <> "" -> known host (inventory_data st) ->
     (forall h g,
        enter_detect_environment h g ∈ trace (tag_host w cfg environment group host st).1 ->
        environment = None \/ enter_detect_environment h g ∈ trace st) /\
     (environment = None ->
      forall value,
        environment_of host (inventory_data st) = Some value ->
        environment_of host (inventory_data (tag_host w cfg environment group host st).1) =
          Some value) /\
     (environment = None -> environment_detection cfg = true -> group <> "" ->
      environment_of host (inventory_data st) = None ->
      environment_of host (inventory_data (tag_host w cfg environment group host st).1) =
        Some (group_environment group)) /\
     (environment = Some "" ->
      environment_of host (inventory_data (tag_host w cfg environment group host st).1) =
        environment_of host (inventory_data st))) /\
  (forall g,
     group_environment g =
       if Str.contains "_PRD" g then "PRD"
       else if Str.contains "_ACC" g then "ACC"
       else if Str.contains "_QAS" g then "QAS"
       else if Str.contains "_TST" g then "TST"
       else "MISC").
Proof.
  split; [|split].
  - intros group host0 item items env_dir st Hmeta Hall Hitem Hdir Hdetect.
    destruct (token_loop_run group item items st Hmeta Hall) as (st2 & Hloop & Hknown).
    destruct (tag_host_returns_known w cfg (Some env_dir) group item st2 Hknown)
      as ([] & Htag & _).
    destruct (tag_host_environment w cfg (Some env_dir) group item st2 Hitem Hknown)
      as (Hcode & _).
    unfold host_entry. rewrite (bind_returned _ _ _ _ _ Hloop).
    destruct (tag_host w cfg (Some env_dir) group item st2) as [st3 [e|[]]] eqn:Hst3;
      cbn in Htag; [discriminate|].
    rewrite (bind_returned _ _ _ _ _ Hst3). cbn [fst snd mret M_ret].
    split; [reflexivity|]. exact (Hcode env_dir eq_refl Hdir Hdetect).
  - intros environment group host st Hhost Hknown.
    destruct (tag_host_environment w cfg environment group host st Hhost Hknown)
      as (_ & Hentered & Hkept & Hfallback).
    split; [exact Hentered|]. split; [exact Hkept|]. split; [exact Hfallback|].
    intros ->. apply tag_host_empty_hint. exact Hknown.
  - intros g. reflexivity.
Qed.

Lemma environment_tagging_witness :
  "web" <> "_meta" /\ "web" <> "all" /\ "web01" <> "" /\ "prod" <> "" /\
  environment_detection config_A = true /\
  environment_of "web01"
    (inventory_data
       (host_entry world_A config_A (Some "prod") "web" ""
          ["web01"; "environment=LAB"] initial_state).1) =
    Some (_generate_environment_code config_A (Some "prod")).
Proof.
  assert (Hmeta : "web" <> "_meta") by discriminate.
  assert (Hall : "web" <> "all") by discriminate.
  assert (Hitem : "web01" <> "") by discriminate.
  assert (Hdir : "prod" <> "") by discriminate.
  assert (Hdetect : environment_detection config_A = true) by reflexivity.
  repeat (split; [assumption|]).
  exact (proj2 (proj1 (environment_tagging world_A config_A) "web" "" "web01"
                  ["environment=LAB"] "prod" initial_state Hmeta Hall Hitem Hdir Hdetect)).
Defined.

(** C2, as stated, fails when the hint is the empty directory name, which
    the walker passes for a configured name [""]: detection is on, yet the
    host gets no [environment] at all, where the Resolver's code for that
    name is [MISC], and an [environment] the line assigns is not
    overwritten. *)
Lemma empty_hint_tags_no_environment :
  environment_detection (effective world_flat config_flat) = true /\
  (vv, ProcessingFile "/inv/hosts.ini" (Some "")) ∈ diagnostics (run world_flat config_flat).1 /\
  known "web01" (inventory_data (run world_flat config_flat).1) /\
  environment_of "web01" (inventory_data (run world_flat config_flat).1) = None /\
  _generate_environment_code (effective world_flat config_flat) (Some "") = "MISC" /\
  (host_entry world_flat (effective world_flat config_flat) (Some "") "web" ""
     ["web01"; "environment=LAB"] initial_state).2 = inr "web01" /\
  environment_of "web01"
    (inventory_data
       (host_entry world_flat (effective world_flat config_flat) (Some "") "web" ""
          ["web01"; "environment=LAB"] initial_state).1) = Some "LAB".
Proof.
  split; [reflexivity|]. split; [apply list_elem_of_In; vm_compute; tauto|].
  split; [vm_compute; eauto|]. vm_compute. auto.
Qed.

(** * Further properties of the code *)

(** ** Suffixes of paths and [verify_file] *)

Lemma append_String (c : ascii) (a b : string) : String c a +:+ b = String c (a +:+ b).
Proof. reflexivity. Qed.

Lemma append_empty_l (b : string) : "" +:+ b = b.
Proof. reflexivity. Qed.

Lemma append_empty_r (a : string) : a +:+ "" = a.
Proof. induction a as [|c a IH]; [reflexivity|]. rewrite append_String, IH. reflexivity. Qed.

Lemma append_assoc (a b c : string) : (a +:+ b) +:+ c = a +:+ (b +:+ c).
Proof. induction a as [|d a IH]; [reflexivity|]. rewrite !append_String, IH. reflexivity. Qed.

Lemma length_append (a b : string) :
  String.length (a +:+ b) = String.length a + String.length b.
Proof.
  induction a as [|c a IH]; [reflexivity|].
  rewrite append_String. cbn. rewrite IH. reflexivity.
Qed.

Lemma substring_whole (s : string) : String.substring 0 (String.length s) s = s.
Proof. induction s as [|c s IH]; cbn; [reflexivity|]. rewrite IH. reflexivity. Qed.

Lemma substring_after (p s : string) (n : nat) :
  String.substring (String.length p) n (p +:+ s) = String.substring 0 n s.
Proof. induction p as [|c p IH]; [reflexivity|]. rewrite append_String. exact IH. Qed.

Lemma substring_split (k : nat) (s : string) :
  k <= String.length s ->
  s = String.substring 0 k s +:+ String.substring k (String.length s - k) s.
Proof.
  revert s. induction k as [|k IH]; intros s Hk.
  - rewrite Nat.sub_0_r, substring_whole. destruct s; reflexivity.
  - destruct s as [|c s]; cbn in Hk; [lia|].
    cbn [String.substring String.length Nat.sub]. rewrite append_String.
    f_equal. apply IH. lia.
Qed.

Lemma endswith_spec (suf s : string) :
  Str.endswith suf s = true <-> exists p, s = p +:+ suf.
Proof.
  unfold Str.endswith, Str.slice. split.
  - intros H. apply andb_prop in H. destruct H as [Hlen Heq].
    apply Nat.leb_le in Hlen. apply String.eqb_eq in Heq.
    exists (String.substring 0 (String.length s - String.length suf) s).
    pose proof (substring_split (String.length s - String.length suf) s) as Hsplit.
    rewrite Heq in Hsplit. apply Hsplit. lia.
  - intros [p ->]. rewrite length_append.
    apply andb_true_intro. split; [apply Nat.leb_le; lia|].
    apply String.eqb_eq.
    replace (String.length p + String.length suf - String.length suf) with (String.length p) by lia.
    replace (String.length p + String.length suf - String.length p) with (String.length suf) by lia.
    rewrite substring_after. apply substring_whole.
Qed.

(** X1: [verify_file] accepts a path exactly when the base class accepts
    it and the path is some stem followed by [.yaml] or [.yml], in lower
    case. *)
Theorem verify_file_accepts_yaml_paths (super_verify_file : string -> bool) (path : string) :
  verify_file super_verify_file path = true <->
  super_verify_file path = true /\
  exists stem, path = stem +:+ ".yaml" \/ path = stem +:+ ".yml".
Proof.
  unfold verify_file. split.
  - destruct (super_verify_file path); [|discriminate].
    destruct (Str.endswith ".yaml" path) eqn:Hyaml; cbn [orb].
    + intros _. split; [reflexivity|]. apply endswith_spec in Hyaml.
      destruct Hyaml as [stem ->]. eauto.
    + destruct (Str.endswith ".yml" path) eqn:Hyml; [|discriminate].
      intros _. split; [reflexivity|]. apply endswith_spec in Hyml.
      destruct Hyml as [stem ->]. eauto.
  - intros [-> [stem [-> | ->]]].
    + rewrite (proj2 (endswith_spec ".yaml" _)) by eauto. reflexivity.
    + rewrite (proj2 (endswith_spec ".yml" (stem +:+ ".yml"))) by eauto.
      rewrite orb_true_r. reflexivity.
Qed.

Lemma verify_file_accepts_yaml_paths_witness :
  verify_file (fun _ => true) "inventory.yml" = true /\
  (verify_file (fun _ => true) "hosts.YML" = true ->
   exists stem, "hosts.YML" = stem +:+ ".yaml" \/ "hosts.YML" = stem +:+ ".yml").
Proof.
  split.
  - apply (proj2 (verify_file_accepts_yaml_paths (fun _ => true) "inventory.yml")).
    split; [reflexivity|]. exists "inventory". right. reflexivity.
  - intros H.
    exact (proj2 (proj1 (verify_file_accepts_yaml_paths (fun _ => true) "hosts.YML") H)).
Defined.

(** ** Variable tokens of a host line *)

Lemma contains_one_char (c d : ascii) (s : string) :
  Str.contains (String c "") (String d s) = Ascii.eqb c d || Str.contains (String c "") s.
Proof. cbn [Str.contains]. rewrite prefix_one_char. reflexivity. Qed.

Lemma split_first_append (c : ascii) (key value : string) :
  Str.contains (String c "") key = false ->
  Str.split_first c (key +:+ String c value) = Some (key, value).
Proof.
  induction key as [|d key IH]; intros Hkey.
  - rewrite append_empty_l. cbn. rewrite Ascii.eqb_refl. reflexivity.
  - rewrite contains_one_char in Hkey. apply orb_false_elim in Hkey.
    destruct Hkey as [Hd Hkey]. rewrite append_String. cbn [Str.split_first].
    rewrite Hd, (IH Hkey). reflexivity.
Qed.

Lemma split_first_inv (c : ascii) (s key value : string) :
  Str.split_first c s = Some (key, value) ->
  s = key +:+ String c value /\ Str.contains (String c "") key = false.
Proof.
  revert key. induction s as [|d s IH]; intros key; cbn [Str.split_first]; [discriminate|].
  destruct (Ascii.eqb c d) eqn:Hd.
  - intros [= <- <-]. apply Ascii.eqb_eq in Hd. subst d. split; reflexivity.
  - destruct (Str.split_first c s) as [[k x]|]; [|discriminate].
    intros [= <- <-]. destruct (IH k eq_refl) as [-> Hk].
    split; [reflexivity|]. rewrite contains_one_char, Hd. exact Hk.
Qed.

Lemma contains_append_char (c : ascii) (key value : string) :
  Str.contains (String c "") (key +:+ String c value) = true.
Proof.
  induction key as [|d key IH].
  - rewrite append_empty_l, contains_one_char, Ascii.eqb_refl. reflexivity.
  - rewrite append_String, contains_one_char, IH. apply orb_true_r.
Qed.

(** X2: on a known host, a token [key=value] whose key has no [=]
    sets that variable to the whole text after the first [=] (which may
    itself contain [=]); a token without [=] changes nothing; and every
    token with an [=] is of that form, so the token loop never fails to
    split one. *)
Theorem variable_token (host : string) (st : State) :
  known host (inventory_data st) ->
  (forall key value,
     Str.contains "=" key = false ->
     assign_variable host (key +:+ "=" +:+ value) st =
       (set_data (with_variable host key value (inventory_data st)) st, inr tt) /\
     hostvars (inventory_data (assign_variable host (key +:+ "=" +:+ value) st).1) !! host
       ≫= (.!! key) = Some value) /\
  (forall item, Str.contains "=" item = false -> assign_variable host item st = (st, inr tt)) /\
  (forall item,
     Str.contains "=" item = true ->
     exists key value,
       item = key +:+ "=" +:+ value /\ Str.contains "=" key = false /\
       assign_variable host item st =
         (set_data (with_variable host key value (inventory_data st)) st, inr tt)).
Proof.
  intros Hknown. split; [|split].
  - intros key value Hkey.
    assert (Hrun : assign_variable host (key +:+ "=" +:+ value) st =
              (set_data (with_variable host key value (inventory_data st)) st, inr tt)).
    { unfold assign_variable.
      change (key +:+ "=" +:+ value) with (key +:+ String "=" value).
      rewrite contains_append_char, split_first_append by exact Hkey.
      apply set_variable_run. exact Hknown. }
    split; [exact Hrun|]. rewrite Hrun. cbn.
    rewrite lookup_insert_eq. cbn. apply lookup_insert_eq.
  - intros item Hitem. unfold assign_variable. rewrite Hitem. reflexivity.
  - intros item Hitem. unfold assign_variable. rewrite Hitem.
    destruct (contains_split_first _ _ Hitem) as [[key value] Hsplit].
    rewrite Hsplit. destruct (split_first_inv _ _ _ _ Hsplit) as [-> Hkey].
    exists key, value. split; [reflexivity|]. split; [exact Hkey|].
    apply set_variable_run. exact Hknown.
Qed.

Lemma variable_token_witness :
  known "db01" (inventory_data state_db01) /\ Str.contains "=" "opts" = false /\
  hostvars (inventory_data (assign_variable "db01" ("opts" +:+ "=" +:+ "a=b") state_db01).1)
    !! "db01" ≫= (.!! "opts") = Some "a=b".
Proof.
  assert (Hknown : known "db01" (inventory_data state_db01)) by (vm_compute; eauto).
  assert (Hkey : Str.contains "=" "opts" = false) by reflexivity.
  split; [exact Hknown|]. split; [exact Hkey|].
  exact (proj2 (proj1 (variable_token "db01" state_db01 Hknown) "opts" "a=b" Hkey)).
Defined.

(** ** Case in the Resolver *)

Lemma isupper_lower_char (c : ascii) : Str.isupper (Str.lower_char c) = false.
Proof. destruct c as [[] [] [] [] [] [] [] []]; reflexivity. Qed.

Lemma lower_no_capital (s : string) : Str.any Str.isupper (Str.lower s) = false.
Proof.
  unfold Str.lower. induction s as [|c s IH]; cbn [Str.map Str.any]; [reflexivity|].
  rewrite isupper_lower_char, IH. reflexivity.
Qed.

Lemma lower_empty (s : string) : Str.lower s = "" -> s = "".
Proof. destruct s; [reflexivity | discriminate]. Qed.

(** X3: the Resolver looks the lower-cased directory name up in the
    user mapping, so an entry whose key has an upper-case letter is never
    found: adding it changes no code. *)
Theorem mapping_key_with_capital_is_dead (cfg : Config) (key code : string)
    (env_dir : option string) :
  Str.any Str.isupper key = true ->
  _generate_environment_code
    (with_environment_mapping (<[key := code]> (environment_mapping cfg)) cfg) env_dir =
  _generate_environment_code cfg env_dir.
Proof.
  intros Hkey. destruct env_dir as [[|c s]|]; [reflexivity| |reflexivity].
  unfold _generate_environment_code. cbn [environment_mapping with_environment_mapping
    auto_environment_patterns].
  rewrite lookup_insert_ne; [reflexivity|].
  intros ->. rewrite lower_no_capital in Hkey. discriminate.
Qed.

Lemma mapping_key_with_capital_is_dead_witness :
  Str.any Str.isupper "Sandbox" = true /\
  _generate_environment_code
    (with_environment_mapping (<["Sandbox" := "SBOX"]> (environment_mapping config_A)) config_A)
    (Some "Sandbox") = _generate_environment_code config_A (Some "Sandbox").
Proof.
  assert (Hkey : Str.any Str.isupper "Sandbox" = true) by reflexivity.
  split; [exact Hkey|].
  exact (mapping_key_with_capital_is_dead config_A "Sandbox" "SBOX" (Some "Sandbox") Hkey).
Defined.

(** X4: two directory names made of ASCII characters that differ in
    case only get the same code whenever the code comes from the user
    mapping or the built-in table, or automatic patterns are off.  (With
    automatic patterns the Abbreviator reads the capitals of the name as
    written, see [resolver_keeps_case_for_the_abbreviator].) *)
Theorem resolver_folds_case (cfg : Config) (env_dir1 env_dir2 : string) :
  Str.isascii env_dir1 = true -> Str.isascii env_dir2 = true ->
  Str.lower env_dir1 = Str.lower env_dir2 ->
  is_Some (environment_mapping cfg !! Str.lower env_dir1) \/
  is_Some (built_in_mapping !! Str.lower env_dir1) \/
  auto_environment_patterns cfg = false ->
  _generate_environment_code cfg (Some env_dir1) =
  _generate_environment_code cfg (Some env_dir2).
Proof.
  intros _ _ Hlower Hfound.
  destruct env_dir1 as [|c1 s1].
  { symmetry in Hlower. apply lower_empty in Hlower. subst env_dir2. reflexivity. }
  destruct env_dir2 as [|c2 s2]; [discriminate Hlower|].
  unfold _generate_environment_code. rewrite <- Hlower.
  destruct (environment_mapping cfg !! _) as [code|]; [reflexivity|].
  destruct (built_in_mapping !! _) as [code|]; [reflexivity|].
  destruct Hfound as [[? Hfound]|[[? Hfound]|Hauto]]; try discriminate.
  rewrite Hauto.
  rewrite <- (upper_lower (String c1 s1)), <- (upper_lower (String c2 s2)), Hlower.
  reflexivity.
Qed.

Lemma resolver_folds_case_witness :
  Str.isascii "PROD" = true /\ Str.isascii "Prod" = true /\
  Str.lower "PROD" = Str.lower "Prod" /\
  is_Some (built_in_mapping !! Str.lower "PROD") /\
  _generate_environment_code config_A (Some "PROD") =
  _generate_environment_code config_A (Some "Prod").
Proof.
  assert (Hascii1 : Str.isascii "PROD" = true) by reflexivity.
  assert (Hascii2 : Str.isascii "Prod" = true) by reflexivity.
  assert (Hlower : Str.lower "PROD" = Str.lower "Prod") by reflexivity.
  assert (Hfound : is_Some (built_in_mapping !! Str.lower "PROD")) by (vm_compute; eauto).
  split; [exact Hascii1|]. split; [exact Hascii2|].
  split; [exact Hlower|]. split; [exact Hfound|].
  exact (resolver_folds_case config_A "PROD" "Prod" Hascii1 Hascii2 Hlower
           (or_intror (or_introl Hfound))).
Defined.

Example resolver_keeps_case_for_the_abbreviator :
  Str.lower "userAcceptTest" = Str.lower "useraccepttest" /\
  _generate_environment_code config_A (Some "userAcceptTest") = "AT" /\
  _generate_environment_code config_A (Some "useraccepttest") = "SRC".
Proof. vm_compute. auto. Qed.

(** ** The [DNSName] of a host line *)

Lemma tag_host_DNSName (w : World) (cfg : Config) (environment : option string)
    (group host : string) (st : State) :
  host <> "" -> known host (inventory_data st) ->
  exists st',
    tag_host w cfg environment group host st = (st', inr tt) /\
    DNSName_of host (inventory_data st') =
      if dns_resolution cfg then
        match resolve w host with
        | Answer (target :: _) => Some target
        | _ => DNSName_of host (inventory_data st)
        end
      else DNSName_of host (inventory_data st).
Proof.
  intros Hhost Hknown. unfold tag_host.
  assert (Hnonempty : Str.nonempty host = true) by (destruct host; [contradiction|reflexivity]).
  rewrite Hnonempty. cbn [andb].
  (* the environment from the directory *)
  assert (H1 : exists st1,
            (if hint_given environment && environment_detection cfg
             then _set_environment_from_directory cfg host (default "" environment)
             else mret tt) st = (st1, inr tt) /\
            known host (inventory_data st1) /\
            DNSName_of host (inventory_data st1) = DNSName_of host (inventory_data st)).
  { destruct (hint_given environment && environment_detection cfg); [|exists st; auto].
    eexists. split; [apply set_environment_from_directory_run; exact Hknown|].
    cbn. destruct (_ || _); cbn; [auto|].
    split; [apply with_variable_known; exact Hknown|].
    apply lookup_with_variable_other; [exact Hknown | discriminate]. }
  destruct H1 as (st1 & Hrun1 & Hknown1 & Hdns1).
  rewrite (bind_returned _ _ _ _ _ Hrun1).
  (* the enricher *)
  assert (H2 : exists st2,
            (if dns_resolution cfg then _resolve_dns w host else mret tt) st1 = (st2, inr tt) /\
            known host (inventory_data st2) /\
            DNSName_of host (inventory_data st2) =
              if dns_resolution cfg then
                match resolve w host with
                | Answer (target :: _) => Some target
                | _ => DNSName_of host (inventory_data st1)
                end
              else DNSName_of host (inventory_data st1)).
  { destruct (dns_resolution cfg); [|exists st1; auto].
    eexists. split; [apply resolve_dns_run|].
    destruct Hknown1 as [vars Hvars].
    destruct (resolve w host) as [[|target rest]| | |e]; cbn;
      try (split; [unfold known; rewrite Hvars; eauto | reflexivity]).
    rewrite Hvars. cbn. split.
    - apply with_variable_known. unfold known. rewrite Hvars. eauto.
    - unfold DNSName_of, with_variable. cbn. rewrite lookup_insert_eq. cbn.
      apply lookup_insert_eq. }
  destruct H2 as (st2 & Hrun2 & Hknown2 & Hdns2).
  rewrite (bind_returned _ _ _ _ _ Hrun2).
  (* the fallback *)
  destruct (Str.nonempty group && environment_detection cfg && is_None_hint environment).
  - eexists. split; [apply detect_environment_run; exact Hknown2|].
    rewrite <- Hdns1, <- Hdns2. cbn.
    destruct (_ || _); cbn; [reflexivity|].
    destruct (environment_of host (inventory_data st2)); cbn; [reflexivity|].
    apply lookup_with_variable_other; [exact Hknown2 | discriminate].
  - exists st2. split; [reflexivity|]. rewrite <- Hdns1. exact Hdns2.
Qed.

Lemma token_loop_variables (group item : string) (items : list string) (st : State) :
  group <> "_meta" -> group <> "all" ->
  exists st2,
    (define_host group item;; for_each items (assign_variable item);; mret item) st =
      (st2, inr item) /\
    hostvars (inventory_data st2) =
      <[item := assign_all (default ∅ (hostvars (inventory_data st) !! item))
                  (assignments items)]> (hostvars (inventory_data st)) /\
    children (inventory_data st2) = children (inventory_data st) /\
    groups (inventory_data st2) = groups (with_host group item (inventory_data st)) /\
    diagnostics st2 =
      diagnostics st ++
      (if bool_decide (known item (inventory_data st)) then [(warning, DuplicateHost item)]
       else []) /\
    trace st2 = trace st.
Proof.
  intros Hmeta Hall.
  pose proof (define_host_run group item st Hmeta Hall) as Hdefine. cbn zeta in Hdefine.
  set (st1 := match hostvars (inventory_data st) !! item with
              | Some _ => add_diagnostic warning (DuplicateHost item)
                            (set_data (with_host group item (inventory_data st)) st)
              | None => set_data (with_host group item (inventory_data st)) st
              end) in *.
  assert (Hvars1 : hostvars (inventory_data st1) !! item =
                   Some (default ∅ (hostvars (inventory_data st) !! item))).
  { subst st1. unfold with_host.
    destruct (hostvars (inventory_data st) !! item) as [vars|] eqn:Hvars; cbn.
    - rewrite ?Hvars. reflexivity.
    - rewrite ?Hvars. apply lookup_insert_eq. }
  destruct (assign_loop_run item items st1 _ Hvars1) as (st2 & Hloop & Hd & Ht & Hc & Hg & Hv).
  exists st2. split.
  { rewrite (bind_returned _ _ _ _ _ Hdefine), (bind_returned _ _ _ _ _ Hloop). reflexivity. }
  rewrite Hv, Hc, Hg, Hd, Ht. subst st1. unfold known, with_host.
  destruct (hostvars (inventory_data st) !! item) as [vars|] eqn:Hvars; cbn; rewrite ?Hvars.
  - auto.
  - rewrite insert_insert_eq, app_nil_r. auto.
Qed.

(** X5: after a host line, the host's [DNSName] is the first CNAME
    target when DNS resolution is on and the resolver answers with one,
    whatever the line itself assigns; otherwise it is what the tokens of
    the line leave, the last assignment first and the earlier value
    else. *)
Theorem dns_name_after_host_line (w : World) (cfg : Config) (environment : option string)
    (group host0 item : string) (items : list string) (st : State) :
  group <> "_meta" -> group <> "all" -> item <> "" ->
  let r := host_entry w cfg environment group host0 (item :: items) st in
  let from_tokens :=
    assign_all (default ∅ (hostvars (inventory_data st) !! item)) (assignments items)
      !! "DNSName" in
  r.2 = inr item /\
  DNSName_of item (inventory_data r.1) =
    if dns_resolution cfg then
      match resolve w item with
      | Answer (target :: _) => Some target
      | _ => from_tokens
      end
    else from_tokens.
Proof.
  intros Hmeta Hall Hitem. cbn zeta.
  destruct (token_loop_variables group item items st Hmeta Hall)
    as (st2 & Hloop & Hv & _).
  assert (Hknown : known item (inventory_data st2))
    by (unfold known; rewrite Hv, lookup_insert_eq; eauto).
  destruct (tag_host_DNSName w cfg environment group item st2 Hitem Hknown)
    as (st3 & Htag & Hdns).
  unfold host_entry.
  rewrite (bind_returned _ _ _ _ _ Hloop), (bind_returned _ _ _ _ _ Htag).
  cbn [fst snd mret M_ret]. split; [reflexivity|].
  rewrite Hdns.
  assert (Htokens : DNSName_of item (inventory_data st2) =
            assign_all (default ∅ (hostvars (inventory_data st) !! item)) (assignments items)
              !! "DNSName")
    by (unfold DNSName_of; rewrite Hv, lookup_insert_eq; reflexivity).
  rewrite Htokens. reflexivity.
Qed.

Lemma dns_name_after_host_line_witness :
  "web" <> "_meta" /\ "web" <> "all" /\ "web01" <> "" /\
  DNSName_of "web01"
    (inventory_data
       (host_entry world_dns config_A (Some "prod") "web" "" ["web01"; "DNSName=manual"]
          initial_state).1) = Some "lb.example.com." /\
  DNSName_of "web02"
    (inventory_data
       (host_entry world_dns config_A (Some "prod") "web" "" ["web02"; "DNSName=manual"]
          initial_state).1) = Some "manual".
Proof.
  assert (Hmeta : "web" <> "_meta") by discriminate.
  assert (Hall : "web" <> "all") by discriminate.
  split; [exact Hmeta|]. split; [exact Hall|]. split; [discriminate|]. split.
  - refine (proj2 (dns_name_after_host_line world_dns config_A (Some "prod") "web" "" "web01"
                     ["DNSName=manual"] initial_state Hmeta Hall _)).
    discriminate.
  - refine (proj2 (dns_name_after_host_line world_dns config_A (Some "prod") "web" "" "web02"
                     ["DNSName=manual"] initial_state Hmeta Hall _)).
    discriminate.
Defined.

(** X6: under a current group other than the two fixed keys [_meta]
    and [all], a host line that names a host not yet defined returns,
    displays no duplicate-host warning, adds that host and no other, files
    it under the current group, gives it exactly the variables the line
    assigns (besides [environment] and [DNSName], left to the tagging
    steps) and leaves the variables of every other host alone. *)
Theorem first_host_definition (w : World) (cfg : Config) (environment : option string)
    (group host0 item : string) (items : list string) (st : State) :
  group <> "_meta" -> group <> "all" ->
  hostvars (inventory_data st) !! item = None ->
  let r := host_entry w cfg environment group host0 (item :: items) st in
  r.2 = inr item /\
  (forall l h, (l, DuplicateHost h) ∈ diagnostics r.1 ->
               (l, DuplicateHost h) ∈ diagnostics st) /\
  (forall h, known h (inventory_data r.1) <-> h = item \/ known h (inventory_data st)) /\
  children (inventory_data r.1) = children (inventory_data st) /\
  groups (inventory_data r.1) = groups (with_host group item (inventory_data st)) /\
  (exists hosts, groups (inventory_data r.1) !! group = Some hosts /\ item ∈ hosts) /\
  (forall key, key <> "environment" -> key <> "DNSName" ->
     hostvars (inventory_data r.1) !! item ≫= (.!! key) =
       assign_all ∅ (assignments items) !! key) /\
  (forall h key, h <> item ->
     hostvars (inventory_data r.1) !! h ≫= (.!! key) =
       hostvars (inventory_data st) !! h ≫= (.!! key)).
Proof.
  intros Hmeta Hall Hnew. cbn zeta.
  destruct (token_loop_variables group item items st Hmeta Hall)
    as (st2 & Hloop & Hv2 & Hc2 & Hg2 & Hd2 & _).
  rewrite Hnew in Hv2. cbn [default] in Hv2.
  rewrite (bool_decide_eq_false_2 (known item (inventory_data st))) in Hd2
    by (unfold known; rewrite Hnew; intros [? ?]; discriminate).
  rewrite app_nil_r in Hd2.
  assert (Hknown2 : known item (inventory_data st2))
    by (unfold known; rewrite Hv2, lookup_insert_eq; eauto).
  destruct (tag_host_returns_known w cfg environment group item st2 Hknown2)
    as ([] & Htag & _).
  pose proof (tag_host_only_touches w cfg environment group item st2)
    as (Hc3 & Hg3 & Hk3 & Hv3).
  pose proof (tag_host_displays_no_duplicate w cfg environment group item st2)
    as (ds & cs & Hd3 & _ & Fd & _).
  unfold host_entry. rewrite (bind_returned _ _ _ _ _ Hloop).
  destruct (tag_host w cfg environment group item st2) as [st3 [e|[]]] eqn:Hst3;
    cbn in Htag; [discriminate|].
  cbn [fst] in *. rewrite (bind_returned _ _ _ _ _ Hst3). cbn [fst snd mret M_ret].
  split; [reflexivity|]. split; [|split; [|split; [|split; [|split; [|split]]]]].
  - intros l h Hin. rewrite Hd3, Hd2 in Hin. apply elem_of_app in Hin.
    destruct Hin as [Hin|Hin]; [exact Hin|].
    exfalso. exact (proj1 (Forall_forall _ _) Fd _ Hin h eq_refl).
  - intros h. rewrite Hk3. unfold known. rewrite Hv2.
    destruct (decide (item = h)) as [->|Hne].
    + rewrite lookup_insert_eq. split; eauto.
    + rewrite lookup_insert_ne by exact Hne. split; [auto|].
      intros [->|H]; [contradiction | exact H].
  - rewrite Hc3. exact Hc2.
  - rewrite Hg3. exact Hg2.
  - rewrite Hg3, Hg2. apply with_host_defines.
  - intros key Henv Hdns. rewrite Hv3.
    + rewrite Hv2, lookup_insert_eq. reflexivity.
    + intros _ Hin. apply elem_of_cons in Hin. destruct Hin as [Hkey|Hin]; [contradiction|].
      apply list_elem_of_singleton in Hin. contradiction.
  - intros h key Hne. rewrite Hv3 by (intros ->; contradiction).
    rewrite Hv2, lookup_insert_ne by congruence. reflexivity.
Qed.

Lemma first_host_definition_witness :
  "web" <> "_meta" /\ "web" <> "all" /\
  hostvars (inventory_data initial_state) !! "web01" = None /\
  hostvars
    (inventory_data
       (host_entry world_A config_A (Some "prod") "web" "" ["web01"; "role=app"; "role=db"]
          initial_state).1) !! "web01" ≫= (.!! "role") =
    assign_all ∅ (assignments ["role=app"; "role=db"]) !! "role".
Proof.
  assert (Hmeta : "web" <> "_meta") by discriminate.
  assert (Hall : "web" <> "all") by discriminate.
  assert (Hnew : hostvars (inventory_data initial_state) !! "web01" = None) by reflexivity.
  destruct (first_host_definition world_A config_A (Some "prod") "web" "" "web01"
              ["role=app"; "role=db"] initial_state Hmeta Hall Hnew)
    as (_ & _ & _ & _ & _ & _ & Hkeys & _).
  split; [exact Hmeta|]. split; [exact Hall|]. split; [exact Hnew|].
  apply Hkeys; discriminate.
Defined.

(** ** The tokens of a stripped line *)

Lemma lstrip_by_head (p : ascii -> bool) (s : string) (c : ascii) (r : string) :
  Str.lstrip_by p s = String c r -> p c = false.
Proof.
  induction s as [|d s IH]; cbn [Str.lstrip_by]; [discriminate|].
  destruct (p d) eqn:Hd; [exact IH|]. intros [= <- _]. exact Hd.
Qed.

Lemma rstrip_by_head (p : ascii -> bool) (s : string) (c : ascii) (r : string) :
  Str.rstrip_by p s = String c r -> exists r0, s = String c r0.
Proof.
  destruct s as [|d s]; cbn [Str.rstrip_by]; [discriminate|].
  destruct (Str.rstrip_by p s); [destruct (p d)|]; intros [= <- _]; eauto.
Qed.

Lemma strip_head (s : string) (c : ascii) (r : string) :
  Str.strip s = String c r -> Str.isspace c = false.
Proof.
  unfold Str.strip. intros H. apply rstrip_by_head in H. destruct H as [r0 H].
  exact (lstrip_by_head _ _ _ _ H).
Qed.

Lemma split_on_cons (p : ascii -> bool) (s : string) :
  exists field fields, Str.split_on p s = field :: fields.
Proof.
  induction s as [|c s (field & fields & IH)]; cbn [Str.split_on]; [eauto|].
  destruct (p c); [eauto|]. rewrite IH. eauto.
Qed.

Lemma split_head (c : ascii) (s : string) :
  Str.isspace c = false ->
  exists item items, Str.split (String c s) = String c item :: items.
Proof.
  intros Hc. unfold Str.split. cbn [Str.split_on]. rewrite Hc.
  destruct (split_on_cons Str.isspace s) as (field & fields & ->).
  cbn. eauto.
Qed.

Lemma split_strip (entry : string) :
  Str.strip entry <> "" ->
  exists c r item items,
    Str.strip entry = String c r /\ Str.isspace c = false /\
    Str.split (Str.strip entry) = String c item :: items.
Proof.
  intros Hne. destruct (Str.strip entry) as [|c r] eqn:Hstrip; [contradiction|].
  pose proof (strip_head _ _ _ Hstrip) as Hc.
  destruct (split_head c r Hc) as (item & items & ->).
  exists c, r, item, items. auto.
Qed.

Lemma split_on_fields (p : ascii -> bool) (s field : string) :
  field ∈ Str.split_on p s -> Str.any p field = false.
Proof.
  revert field. induction s as [|c s IH]; intros field; cbn [Str.split_on].
  - intros Hin. apply list_elem_of_singleton in Hin. subst field. reflexivity.
  - destruct (p c) eqn:Hc.
    + intros Hin. apply elem_of_cons in Hin. destruct Hin as [->|Hin]; [reflexivity|].
      apply IH. exact Hin.
    + destruct (Str.split_on p s) as [|f fs] eqn:Hsplit.
      * intros Hin. apply list_elem_of_singleton in Hin. subst field. cbn. rewrite Hc.
        reflexivity.
      * intros Hin. apply elem_of_cons in Hin. destruct Hin as [->|Hin].
        -- cbn [Str.any]. rewrite Hc. apply IH. left.
        -- apply IH. right. exact Hin.
Qed.

Lemma split_tokens (s item : string) :
  item ∈ Str.split s -> item <> "" /\ Str.any Str.isspace item = false.
Proof.
  unfold Str.split. intros Hin. apply list_elem_of_In, filter_In in Hin.
  destruct Hin as [Hin Hne]. split.
  - intros ->. discriminate.
  - apply (split_on_fields _ s). apply list_elem_of_In. exact Hin.
Qed.

(** ** The three kinds of lines *)

Lemma skipped_step (w : World) (cfg : Config) (filename : string)
    (environment : option string) (cursor : string * string) (entry : string) (st : State) :
  is_skipped entry = true ->
  process_entry w cfg filename environment cursor entry st = (st, inr cursor).
Proof.
  unfold is_skipped, process_entry. destruct cursor as [group host].
  intros ->. reflexivity.
Qed.

Lemma host_line_step (w : World) (cfg : Config) (filename : string)
    (environment : option string) (group host entry : string) (st : State) :
  is_host_line entry = true ->
  exists item items,
    Str.split (Str.strip entry) = item :: items /\ is_token item /\
    process_entry w cfg filename environment (group, host) entry st =
      (host' ← host_entry w cfg environment group host (item :: items);
       mret (group, host')) st.
Proof.
  unfold is_host_line, is_skipped, process_entry. intros H.
  apply andb_prop in H. destruct H as [Hskip Hheader].
  apply negb_true_iff in Hskip, Hheader. rewrite Hskip, Hheader.
  apply orb_false_elim in Hskip. destruct Hskip as [Hne Hcomment].
  apply negb_false_iff in Hne. rewrite Hne, Hcomment. cbn [negb andb].
  destruct (split_strip entry) as (c & r & item & items & Hstrip & Hc & Hsplit).
  { intros Hempty. rewrite Hempty in Hne. discriminate. }
  rewrite Hsplit. exists (String c item), items.
  split; [reflexivity|]. split; [|reflexivity].
  assert (Hin : String c item ∈ Str.split (Str.strip entry)) by (rewrite Hsplit; left).
  destruct (split_tokens _ _ Hin) as [Hitem Hspace].
  split; [exact Hitem|]. split; [exact Hspace|].
  rewrite Hstrip in Hcomment. unfold Str.startswith in *.
  rewrite prefix_one_char in *. exact Hcomment.
Qed.

Lemma line_kinds (entry : string) :
  is_skipped entry = true \/ is_host_line entry = true \/ exists name, header_name entry = Some name.
Proof.
  unfold is_host_line, header_name. fold (is_skipped entry).
  destruct (is_skipped entry); [left; reflexivity|right].
  destruct (Str.contains "[" (Str.strip entry) && Str.contains "]" (Str.strip entry)) eqn:H;
    [right|left; reflexivity].
  apply andb_prop in H. destruct H as [Hopen Hclose].
  destruct (contains_index _ _ Hopen) as [i ->].
  destruct (contains_index _ _ Hclose) as [j ->]. eauto.
Qed.

Lemma foldM_app {A B} (body : B -> A -> M B) (l1 l2 : list A) (acc : B) (st : State) :
  foldM body (l1 ++ l2) acc st = (foldM body l1 acc ≫= foldM body l2) st.
Proof.
  revert acc st. induction l1 as [|x l1 IH]; intros acc st; [reflexivity|].
  cbn [app foldM]. unfold mbind, M_bind in *.
  destruct (body acc x st) as [st' [e|acc']]; [reflexivity|]. apply IH.
Qed.

(** X7: a line that is blank or starts with [#] once stripped leaves
    the state and the cursor as they are, so a file reads the same with
    or without it. *)
Theorem comments_and_blank_lines_are_inert (w : World) (cfg : Config) (filename : string)
    (environment : option string) (before after : list string) (entry : string)
    (cursor : string * string) (st : State) :
  Str.strip entry = "" \/ Str.startswith "#" (Str.strip entry) = true ->
  process_entry w cfg filename environment cursor entry st = (st, inr cursor) /\
  foldM (process_entry w cfg filename environment) (before ++ entry :: after) cursor st =
  foldM (process_entry w cfg filename environment) (before ++ after) cursor st.
Proof.
  intros Hentry.
  assert (Hskip : is_skipped entry = true).
  { unfold is_skipped. destruct Hentry as [-> | ->]; [reflexivity | apply orb_true_r]. }
  split; [apply skipped_step; exact Hskip|].
  rewrite !foldM_app. unfold mbind, M_bind.
  destruct (foldM _ before cursor st) as [st' [e|cursor']]; [reflexivity|].
  cbn [foldM]. unfold mbind, M_bind. rewrite skipped_step by exact Hskip. reflexivity.
Qed.

Lemma comments_and_blank_lines_are_inert_witness :
  (Str.strip "  # the web tier" = "" \/ Str.startswith "#" (Str.strip "  # the web tier") = true) /\
  foldM (process_entry world_A config_A "hosts.ini" (Some "prod"))
    (["[web]"] ++ "  # the web tier" :: ["web01 role=app"]) ("ungrouped", "") initial_state =
  foldM (process_entry world_A config_A "hosts.ini" (Some "prod"))
    (["[web]"] ++ ["web01 role=app"]) ("ungrouped", "") initial_state.
Proof.
  assert (H : Str.strip "  # the web tier" = "" \/
              Str.startswith "#" (Str.strip "  # the web tier") = true)
    by (right; reflexivity).
  split; [exact H|].
  exact (proj2 (comments_and_blank_lines_are_inert world_A config_A "hosts.ini" (Some "prod")
                  ["[web]"] ["web01 role=app"] "  # the web tier" ("ungrouped", "")
                  initial_state H)).
Defined.

(** X8: a host line under the header [[all]] or [[_meta]] raises
    [KeyError: 'hosts'] and changes nothing: these two keys of the
    structure hold no host list.  The rest of the file is not read and the
    error leaves [_process_single_host_file]. *)
Theorem host_line_under_reserved_group (w : World) (cfg : Config) (filename : string)
    (environment : option string) (group host entry : string) (st : State) :
  group = "_meta" \/ group = "all" ->
  is_host_line entry = true ->
  process_entry w cfg filename environment (group, host) entry st =
    (st, inl (KeyError "hosts")) /\
  (forall header cursor rest,
     header_name header = Some group ->
     (foldM (process_entry w cfg filename environment) (header :: entry :: rest) cursor st).2 =
       inl (KeyError "hosts")) /\
  (forall header rest,
     header_name header = Some group ->
     readlines w filename = Lines (header :: entry :: rest) ->
     (_process_single_host_file w cfg filename environment st).2 = inl (KeyError "hosts")).
Proof.
  intros Hgroup Hline.
  assert (Hstep : forall host st,
            process_entry w cfg filename environment (group, host) entry st =
              (st, inl (KeyError "hosts"))).
  { intros host' st'.
    destruct (host_line_step w cfg filename environment group host' entry st' Hline)
      as (item & items & _ & _ & ->).
    unfold host_entry, mbind, M_bind. cbn beta.
    rewrite define_host_reserved by exact Hgroup. reflexivity. }
  assert (Hloop : forall header cursor rest st,
            header_name header = Some group ->
            (foldM (process_entry w cfg filename environment) (header :: entry :: rest)
               cursor st).2 = inl (KeyError "hosts")).
  { intros header [group0 host0] rest st' Hheader. cbn [foldM]. unfold mbind, M_bind.
    rewrite (header_step _ _ _ _ _ _ _ _ _ Hheader), Hstep. reflexivity. }
  split; [apply Hstep|]. split; [intros header cursor rest; apply Hloop|].
  intros header rest Hheader Hread. unfold _process_single_host_file.
  unfold mbind, M_bind, display, record. rewrite Hread.
  specialize (Hloop header ("ungrouped", "") rest
                (add_call (open_file filename)
                   (add_diagnostic vv (ProcessingFile filename environment) st)) Hheader).
  destruct (foldM _ _ _ _) as [st' [e|cursor]]; cbn [snd] in Hloop; [|discriminate].
  injection Hloop as ->. reflexivity.
Qed.

Lemma host_line_under_reserved_group_witness :
  ("all" = "_meta" \/ "all" = "all") /\ is_host_line "web02 role=app" = true /\
  header_name "[all]" = Some "all" /\
  (foldM (process_entry world_A config_A "hosts.ini" (Some "prod"))
     ("[all]" :: "web02 role=app" :: ["[db]"; "db01"]) ("web", "web01") initial_state).2 =
    inl (KeyError "hosts").
Proof.
  assert (Hgroup : "all" = "_meta" \/ "all" = "all") by (right; reflexivity).
  assert (Hline : is_host_line "web02 role=app" = true) by reflexivity.
  assert (Hheader : header_name "[all]" = Some "all") by reflexivity.
  split; [exact Hgroup|]. split; [exact Hline|]. split; [exact Hheader|].
  exact (proj1 (proj2 (host_line_under_reserved_group world_A config_A "hosts.ini"
                         (Some "prod") "all" "" "web02 role=app" initial_state Hgroup Hline))
           "[all]" ("web", "web01") ["[db]"; "db01"] Hheader).
Defined.

Example run_with_reserved_group :
  (run world_reserved config_A).2 = inl (FailedToProcess (KeyError "hosts")) /\
  known "web01" (inventory_data (run world_reserved config_A).1) /\
  ~ known "db01" (inventory_data (run world_reserved config_A).1).
Proof.
  split; [vm_compute; reflexivity|]. split.
  - vm_compute. eauto.
  - intros [vars Hvars]. vm_compute in Hvars. discriminate.
Qed.

(** ** Invariants kept line by line *)

Section HostLineInvariant.

Variable w : World.
Variable cfg : Config.
Variable I : InventoryData -> Prop.
Variable P : string -> Prop.

Hypothesis I_define_host :
  forall group host, P host -> preserves (keeps I) (define_host group host).
Hypothesis I_set_variable :
  forall host key value, preserves (keeps I) (set_variable host key value).

Lemma tag_host_keeps_on_lines environment group host :
  preserves (keeps I) (tag_host w cfg environment group host).
Proof.
  unfold tag_host, _set_environment_from_directory, _resolve_dns, _detect_environment.
  repeat first [ apply I_set_variable | keeps_step ].
Qed.

Lemma host_entry_keeps_on_lines environment group host item items :
  P item -> preserves (keeps I) (host_entry w cfg environment group host (item :: items)).
Proof.
  intros Hitem. unfold host_entry, assign_variable.
  repeat first [ apply tag_host_keeps_on_lines | apply I_define_host; exact Hitem
               | apply I_set_variable | keeps_step ].
Qed.

End HostLineInvariant.

Section LineInvariant.

Variable w : World.
Variable J : InventoryData -> Prop.

Hypothesis J_initial : J initial_inventory.
Hypothesis J_register :
  forall name d, name <> "" -> name ∉ children d -> J d -> J (with_group name d).
Hypothesis J_define_host :
  forall group host, is_token host -> preserves (keeps J) (define_host group host).
Hypothesis J_set_variable :
  forall host key value, preserves (keeps J) (set_variable host key value).

Lemma process_entry_keeps_on_lines cfg filename environment cursor entry :
  preserves (keeps J) (process_entry w cfg filename environment cursor entry).
Proof.
  intros st HJ. destruct cursor as [group host].
  destruct (line_kinds entry) as [Hskip|[Hline|[name Hname]]].
  - rewrite skipped_step by exact Hskip. exact HJ.
  - destruct (host_line_step w cfg filename environment group host entry st Hline)
      as (item & items & _ & Hitem & ->).
    revert st HJ. change (preserves (keeps J)
      (host' ← host_entry w cfg environment group host (item :: items); mret (group, host'))).
    repeat first [ apply (host_entry_keeps_on_lines w cfg J is_token); assumption
                 | keeps_step ].
  - rewrite (header_step _ _ _ _ _ _ _ _ _ Hname).
    destruct name as [|c name]; [exact HJ|]. cbn [fst].
    case_bool_decide as Hin; [exact HJ|]. cbn. apply J_register; [discriminate|exact Hin|exact HJ].
Qed.

Lemma process_single_host_file_keeps_on_lines cfg filename environment :
  preserves (keeps J) (_process_single_host_file w cfg filename environment).
Proof.
  unfold _process_single_host_file.
  repeat first [ apply process_entry_keeps_on_lines | keeps_step ].
Qed.

Lemma process_environment_directory_keeps_on_lines cfg total_files env_dir :
  preserves (keeps J) (process_environment_directory w cfg total_files env_dir).
Proof.
  unfold process_environment_directory, _find_hosts_files.
  repeat first [ apply process_single_host_file_keeps_on_lines | keeps_step ].
Qed.

Lemma parse_keeps_on_lines cfg : preserves (keeps J) (parse w cfg).
Proof.
  unfold parse, check_dns, process_hosts_directory, _process_environment_directories,
    _build_ansible_inventory.
  repeat first [ apply process_environment_directory_keeps_on_lines
               | apply keeps_put_data; exact J_initial
               | keeps_step ].
Qed.

Lemma run_keeps_on_lines cfg : J (inventory_data (run w cfg).1).
Proof. apply parse_keeps_on_lines. exact J_initial. Qed.

End LineInvariant.

Lemma define_host_keeps (I : InventoryData -> Prop) (group host : string) :
  (forall d, I d -> I (with_host group host d)) ->
  preserves (keeps I) (define_host group host).
Proof.
  intros Hwith st HI.
  destruct (decide (group = "_meta")) as [->|Hmeta];
    [rewrite define_host_reserved by auto; exact HI|].
  destruct (decide (group = "all")) as [->|Hall];
    [rewrite define_host_reserved by auto; exact HI|].
  rewrite define_host_run by assumption. cbn.
  destruct (hostvars (inventory_data st) !! host); cbn; apply Hwith; exact HI.
Qed.

Lemma set_variable_keeps (I : InventoryData -> Prop) (host key value : string) :
  (forall d, known host d -> I d -> I (with_variable host key value d)) ->
  preserves (keeps I) (set_variable host key value).
Proof.
  intros Hwith st HI.
  destruct (hostvars (inventory_data st) !! host) as [vars|] eqn:Hvars.
  - rewrite set_variable_run by eauto. cbn. apply Hwith; [|exact HI].
    unfold known. rewrite Hvars. eauto.
  - rewrite set_variable_unknown by exact Hvars. exact HI.
Qed.

Lemma with_host_known (group host h : string) (d : InventoryData) :
  known h (with_host group host d) <-> h = host \/ known h d.
Proof.
  unfold known, with_host. cbn.
  destruct (hostvars d !! host) as [vars|] eqn:Hvars.
  - split; [auto|]. intros [->|H]; [rewrite Hvars; eauto | exact H].
  - destruct (decide (host = h)) as [->|Hne].
    + rewrite lookup_insert_eq. split; eauto.
    + rewrite lookup_insert_ne by exact Hne. split; [auto|].
      intros [->|H]; [contradiction | exact H].
Qed.

Lemma with_variable_known_iff (host key value h : string) (d : InventoryData) :
  known host d -> (known h (with_variable host key value d) <-> known h d).
Proof.
  intros Hhost. unfold known, with_variable. cbn.
  destruct (decide (host = h)) as [->|Hne].
  - rewrite lookup_insert_eq. split; eauto.
  - rewrite lookup_insert_ne by exact Hne. reflexivity.
Qed.

Lemma with_host_groups_mono (group host g h : string) (hosts : list string)
    (d : InventoryData) :
  groups d !! g = Some hosts -> h ∈ hosts ->
  exists hosts', groups (with_host group host d) !! g = Some hosts' /\ h ∈ hosts'.
Proof.
  intros Hg Hh. unfold with_host. cbn.
  case_bool_decide as Hin; [eauto|].
  destruct (decide (group = g)) as [->|Hne].
  - rewrite lookup_insert_eq, Hg. cbn. eexists. split; [reflexivity|].
    apply elem_of_app. left. exact Hh.
  - rewrite lookup_insert_ne by exact Hne. eauto.
Qed.

(** *** Every host with variables is in a group *)

Lemma with_host_hosts_are_grouped (group host : string) (d : InventoryData) :
  hosts_are_grouped d -> hosts_are_grouped (with_host group host d).
Proof.
  intros Hinv h Hh. apply with_host_known in Hh. destruct Hh as [->|Hh].
  - exists group. apply with_host_defines.
  - destruct (Hinv h Hh) as (g & hosts & Hg & Hin).
    exists g. eapply with_host_groups_mono; eassumption.
Qed.

Lemma initial_hosts_are_grouped : hosts_are_grouped initial_inventory.
Proof. intros h [vars Hvars]. cbn in Hvars. rewrite lookup_empty in Hvars. discriminate. Qed.

Lemma define_host_hosts_are_grouped (group host : string) :
  preserves (keeps hosts_are_grouped) (define_host group host).
Proof. apply define_host_keeps. apply with_host_hosts_are_grouped. Qed.

Lemma set_variable_hosts_are_grouped (host key value : string) :
  preserves (keeps hosts_are_grouped) (set_variable host key value).
Proof.
  apply set_variable_keeps. intros d Hknown Hinv h Hh.
  apply with_variable_known_iff in Hh; [|exact Hknown]. exact (Hinv h Hh).
Qed.

Lemma hosts_are_grouped_on_lines (w : World) (cfg : Config) (filename : string)
    (environment : option string) (cursor : string * string) (entry : string) :
  preserves (keeps hosts_are_grouped)
    (process_entry w cfg filename environment cursor entry).
Proof.
  apply process_entry_keeps_on_lines;
    auto using initial_hosts_are_grouped, define_host_hosts_are_grouped,
      set_variable_hosts_are_grouped.
Qed.

Lemma run_hosts_are_grouped (w : World) (cfg : Config) :
  hosts_are_grouped (inventory_data (run w cfg).1).
Proof.
  apply run_keeps_on_lines;
    auto using initial_hosts_are_grouped, define_host_hosts_are_grouped,
      set_variable_hosts_are_grouped.
Qed.

(** X9: at the end of a run, and after every line, every host that
    has an entry in [hostvars] is listed in at least one group. *)
Theorem every_host_is_grouped (w : World) (cfg : Config) :
  hosts_are_grouped (inventory_data (run w cfg).1) /\
  (forall filename environment cursor entry st,
     hosts_are_grouped (inventory_data st) ->
     hosts_are_grouped
       (inventory_data (process_entry w cfg filename environment cursor entry st).1)).
Proof.
  split; [apply run_hosts_are_grouped|].
  intros filename environment cursor entry. apply hosts_are_grouped_on_lines.
Qed.

Lemma every_host_is_grouped_witness :
  hosts_are_grouped (inventory_data initial_state) /\
  hosts_are_grouped
    (inventory_data
       (process_entry world_A config_A "/inv/prod/hosts.ini" (Some "prod") ("web", "")
          "web01 role=app" initial_state).1).
Proof.
  assert (Hinitial : hosts_are_grouped (inventory_data initial_state)).
  { intros h [vars Hvars]. cbn in Hvars. rewrite lookup_empty in Hvars. discriminate. }
  split; [exact Hinitial|].
  exact (proj2 (every_host_is_grouped world_A config_A) _ _ _ _ _ Hinitial).
Defined.

(** *** Host lists *)

Lemma with_host_lists_well_formed (group host : string) (d : InventoryData) :
  host_lists_well_formed d -> host_lists_well_formed (with_host group host d).
Proof.
  intros Hinv g hosts Hg. split.
  - revert g hosts Hg. apply with_host_NoDup. intros g hosts Hg. apply (Hinv g hosts Hg).
  - unfold with_host in Hg. cbn in Hg.
    case_bool_decide as Hin; [apply (Hinv g hosts Hg)|].
    destruct (decide (group = g)) as [->|Hne].
    + rewrite lookup_insert_eq in Hg. injection Hg as <-.
      intros Hnil. apply app_eq_nil in Hnil. destruct Hnil as [_ Hnil]. discriminate.
    + rewrite lookup_insert_ne in Hg by exact Hne. apply (Hinv g hosts Hg).
Qed.

(** X10: at the end of a run, and after every line, no group lists a
    host twice and no group is a key of the structure without a host. *)
Theorem host_lists_stay_well_formed (w : World) (cfg : Config) :
  host_lists_well_formed (inventory_data (run w cfg).1) /\
  (forall filename environment cursor entry st,
     host_lists_well_formed (inventory_data st) ->
     host_lists_well_formed
       (inventory_data (process_entry w cfg filename environment cursor entry st).1)).
Proof.
  assert (Hinitial : host_lists_well_formed initial_inventory).
  { intros g hosts Hg. cbn in Hg. rewrite lookup_empty in Hg. discriminate. }
  assert (Hregister : forall name d, name <> "" -> name ∉ children d ->
            host_lists_well_formed d -> host_lists_well_formed (with_group name d)).
  { intros name d _ _ Hinv. exact Hinv. }
  assert (Hdefine : forall group host, is_token host ->
            preserves (keeps host_lists_well_formed) (define_host group host)).
  { intros group host _. apply define_host_keeps. apply with_host_lists_well_formed. }
  assert (Hset : forall host key value,
            preserves (keeps host_lists_well_formed) (set_variable host key value)).
  { intros host key value. apply set_variable_keeps. intros d _ Hinv. exact Hinv. }
  split.
  - apply run_keeps_on_lines; assumption.
  - intros filename environment cursor entry.
    apply process_entry_keeps_on_lines; assumption.
Qed.

Lemma host_lists_stay_well_formed_witness :
  host_lists_well_formed (inventory_data (run world_one_definition config_A).1) /\
  host_lists_well_formed
    (inventory_data
       (process_entry world_A config_A "/inv/acc/hosts.ini" (Some "acc") ("db", "")
          "db01 role=replica" (run world_one_definition config_A).1).1).
Proof.
  pose proof (proj1 (host_lists_stay_well_formed world_one_definition config_A)) as Hbefore.
  split; [exact Hbefore|].
  exact (proj2 (host_lists_stay_well_formed world_A config_A) _ _ _ _ _ Hbefore).
Defined.

(** *** The children of [all] *)

Lemma with_group_children_well_formed (name : string) (d : InventoryData) :
  name <> "" -> name ∉ children d ->
  children_well_formed d -> children_well_formed (with_group name d).
Proof.
  intros Hname Hnew (Hhead & Hnodup & Hempty). unfold children_well_formed, with_group. cbn.
  split; [|split].
  - destruct (children d); [discriminate | exact Hhead].
  - apply NoDup_app. split; [exact Hnodup|]. split; [|apply NoDup_singleton].
    intros x Hx Hx'. apply list_elem_of_singleton in Hx'. subst x. contradiction.
  - intros Hin. apply elem_of_app in Hin. destruct Hin as [Hin|Hin]; [contradiction|].
    apply list_elem_of_singleton in Hin. congruence.
Qed.

(** X11: at the end of a run, and after every line, the children of
    [all] begin with [ungrouped], hold no name twice and never the empty
    name. *)
Theorem children_stay_well_formed (w : World) (cfg : Config) :
  children_well_formed (inventory_data (run w cfg).1) /\
  (forall filename environment cursor entry st,
     children_well_formed (inventory_data st) ->
     children_well_formed
       (inventory_data (process_entry w cfg filename environment cursor entry st).1)).
Proof.
  assert (Hinitial : children_well_formed initial_inventory).
  { split; [reflexivity|]. split; [apply NoDup_singleton|].
    intros Hin. apply list_elem_of_singleton in Hin. discriminate. }
  assert (Hdefine : forall group host, is_token host ->
            preserves (keeps children_well_formed) (define_host group host)).
  { intros group host _. apply define_host_keeps. intros d Hinv. exact Hinv. }
  assert (Hset : forall host key value,
            preserves (keeps children_well_formed) (set_variable host key value)).
  { intros host key value. apply set_variable_keeps. intros d _ Hinv. exact Hinv. }
  split.
  - apply run_keeps_on_lines; auto using with_group_children_well_formed.
  - intros filename environment cursor entry.
    apply process_entry_keeps_on_lines; auto using with_group_children_well_formed.
Qed.

Lemma children_stay_well_formed_witness :
  children_well_formed (inventory_data (run world_headers config_A).1) /\
  children_well_formed
    (inventory_data
       (process_entry world_A config_A "/inv/acc/hosts.ini" (Some "acc") ("db", "db01")
          "[web]" (run world_headers config_A).1).1).
Proof.
  pose proof (proj1 (children_stay_well_formed world_headers config_A)) as Hbefore.
  split; [exact Hbefore|].
  exact (proj2 (children_stay_well_formed world_A config_A) _ _ _ _ _ Hbefore).
Defined.

(** *** Host names *)

(** X12: at the end of a run, and after every line, every host name of
    the inventory is a first token of a host line: not empty, free of
    whitespace, and not starting with [#]. *)
Theorem host_names_stay_tokens (w : World) (cfg : Config) :
  host_names_are_tokens (inventory_data (run w cfg).1) /\
  (forall filename environment cursor entry st,
     host_names_are_tokens (inventory_data st) ->
     host_names_are_tokens
       (inventory_data (process_entry w cfg filename environment cursor entry st).1)).
Proof.
  assert (Hinitial : host_names_are_tokens initial_inventory).
  { intros h [vars Hvars]. cbn in Hvars. rewrite lookup_empty in Hvars. discriminate. }
  assert (Hregister : forall name d, name <> "" -> name ∉ children d ->
            host_names_are_tokens d -> host_names_are_tokens (with_group name d)).
  { intros name d _ _ Hinv. exact Hinv. }
  assert (Hdefine : forall group host, is_token host ->
            preserves (keeps host_names_are_tokens) (define_host group host)).
  { intros group host Hhost. apply define_host_keeps. intros d Hinv h Hh.
    apply with_host_known in Hh. destruct Hh as [->|Hh]; [exact Hhost | exact (Hinv h Hh)]. }
  assert (Hset : forall host key value,
            preserves (keeps host_names_are_tokens) (set_variable host key value)).
  { intros host key value. apply set_variable_keeps. intros d Hknown Hinv h Hh.
    apply with_variable_known_iff in Hh; [|exact Hknown]. exact (Hinv h Hh). }
  split.
  - apply run_keeps_on_lines; assumption.
  - intros filename environment cursor entry.
    apply process_entry_keeps_on_lines; assumption.
Qed.

Lemma host_names_stay_tokens_witness :
  host_names_are_tokens (inventory_data (run world_A config_A).1) /\
  host_names_are_tokens
    (inventory_data
       (process_entry world_A config_A "/inv/acc/hosts.ini" (Some "acc") ("web", "web01")
          "  web02   role=app  # spare" (run world_A config_A).1).1).
Proof.
  pose proof (proj1 (host_names_stay_tokens world_A config_A)) as Hbefore.
  split; [exact Hbefore|].
  exact (proj2 (host_names_stay_tokens world_A config_A) _ _ _ _ _ Hbefore).
Defined.

(** ** The files of an environment directory *)

Lemma add_calls_nil (st : State) : add_calls [] st = st.
Proof. destruct st. unfold add_calls. cbn. rewrite app_nil_r. reflexivity. Qed.

Lemma add_calls_app (cs1 cs2 : list call) (st : State) :
  add_calls cs2 (add_calls cs1 st) = add_calls (cs1 ++ cs2) st.
Proof. unfold add_calls. cbn. rewrite app_assoc. reflexivity. Qed.

Lemma glob_loop_run (w : World) (env_path : string) (patterns : list string)
    (hosts_files : list string) (st : State) :
  foldM (fun hosts_files pattern =>
           let pattern_path := Path.join env_path pattern in
           record (glob_glob pattern_path);;
           mret (hosts_files ++ glob w pattern_path))
        patterns hosts_files st =
    (add_calls (List.map (fun pattern => glob_glob (Path.join env_path pattern)) patterns) st,
     inr (hosts_files ++
          flat_map (fun pattern => glob w (Path.join env_path pattern)) patterns)).
Proof.
  revert hosts_files st. induction patterns as [|pattern patterns IH]; intros hosts_files st.
  - cbn. rewrite add_calls_nil, app_nil_r. reflexivity.
  - cbn [foldM List.map flat_map]. unfold mbind at 1, M_bind.
    unfold mbind, M_bind, record, mret, M_ret. cbn beta iota.
    fold (@mbind M _) in *.
    rewrite IH. change (add_call ?c ?s) with (add_calls [c] s).
    rewrite add_calls_app, <- app_assoc. reflexivity.
Qed.

Lemma unique_loop_run (w : World) (hosts_files unique_files : list string)
    (seen : gset string) (st : State) :
  (forall f, f ∈ seen <-> f ∈ unique_files) -> NoDup unique_files ->
  exists added seen' cs,
    foldM (fun '(unique_files, seen) f =>
             if bool_decide (f ∈ (seen : gset string)) then mret (unique_files, seen)
             else
               record (os_path_isfile f);;
               if path_isfile w f then mret (unique_files ++ [f], {[f]} ∪ seen)
               else mret (unique_files, seen))
          hosts_files (unique_files, seen) st =
      (add_calls cs st, inr (unique_files ++ added, seen')) /\
    NoDup (unique_files ++ added) /\
    (forall f, f ∈ added <-> f ∈ hosts_files /\ path_isfile w f = true /\ f ∉ unique_files) /\
    added `sublist_of` hosts_files /\
    Forall (fun c => exists f, c = os_path_isfile f /\ f ∈ hosts_files) cs.
Proof.
  revert unique_files seen st.
  induction hosts_files as [|f rest IH]; intros unique_files seen st Hseen Hnodup.
  - exists [], seen, []. cbn. rewrite add_calls_nil, app_nil_r.
    split; [reflexivity|]. split; [exact Hnodup|]. split; [|split; [constructor|constructor]].
    intros f. split; [intros H; inversion H | intros [H _]; inversion H].
  - cbn [foldM]. unfold mbind at 1, M_bind at 1.
    case_bool_decide as Hin.
    + unfold mret at 1, M_ret at 1.
      destruct (IH unique_files seen st Hseen Hnodup)
        as (added & seen' & cs & Hrun & Hnd & Hmem & Hsub & Hcs).
      exists added, seen', cs. split; [exact Hrun|]. split; [exact Hnd|].
      split; [|split].
      * intros f'. rewrite Hmem. split.
        -- intros (Hf' & Hfile & Hnew). split; [right; exact Hf'|auto].
        -- intros (Hf' & Hfile & Hnew). split; [|auto].
           apply elem_of_cons in Hf'. destruct Hf' as [->|Hf']; [|exact Hf'].
           exfalso. apply Hnew, Hseen, Hin.
      * apply sublist_cons. exact Hsub.
      * eapply Forall_impl; [exact Hcs|]. intros c (f' & -> & Hf'). exists f'.
        split; [reflexivity | right; exact Hf'].
    + unfold mbind at 1, M_bind at 1, record at 1.
      destruct (path_isfile w f) eqn:Hfile; unfold mret at 1, M_ret at 1.
      * assert (Hnew : f ∉ unique_files) by (intros H; apply Hin, Hseen, H).
        destruct (IH (unique_files ++ [f]) ({[f]} ∪ seen) (add_call (os_path_isfile f) st))
          as (added & seen' & cs & Hrun & Hnd & Hmem & Hsub & Hcs).
        { intros f'. rewrite elem_of_union, elem_of_singleton, elem_of_app,
            list_elem_of_singleton, Hseen. tauto. }
        { apply NoDup_app. split; [exact Hnodup|]. split; [|apply NoDup_singleton].
          intros x Hx Hx'. apply list_elem_of_singleton in Hx'. subst x. contradiction. }
        exists (f :: added), seen', (os_path_isfile f :: cs).
        rewrite Hrun. change (add_call ?c ?s) with (add_calls [c] s).
        rewrite add_calls_app. rewrite <- app_assoc in *. cbn [app] in *.
        split; [reflexivity|]. split; [exact Hnd|]. split; [|split].
        -- intros f'. rewrite elem_of_cons, Hmem, elem_of_cons, elem_of_app,
             list_elem_of_singleton.
           split.
           ++ intros [->|(Hf' & Hfile' & Hnew')]; [auto|]. split; [auto|]. split; [auto|tauto].
           ++ intros ([->|Hf'] & Hfile' & Hnew'); [auto|].
              destruct (decide (f' = f)) as [->|Hne]; [auto|]. right. tauto.
        -- apply sublist_skip. exact Hsub.
        -- constructor; [exists f; split; [reflexivity|left]|].
           eapply Forall_impl; [exact Hcs|]. intros c (f' & -> & Hf'). exists f'.
           split; [reflexivity | right; exact Hf'].
      * destruct (IH unique_files seen (add_call (os_path_isfile f) st) Hseen Hnodup)
          as (added & seen' & cs & Hrun & Hnd & Hmem & Hsub & Hcs).
        exists added, seen', (os_path_isfile f :: cs).
        rewrite Hrun. change (add_call ?c ?s) with (add_calls [c] s).
        rewrite add_calls_app. cbn [app].
        split; [reflexivity|]. split; [exact Hnd|]. split; [|split].
        -- intros f'. rewrite Hmem. split.
           ++ intros (Hf' & Hfile' & Hnew'). split; [right; exact Hf'|auto].
           ++ intros (Hf' & Hfile' & Hnew'). split; [|auto].
              apply elem_of_cons in Hf'. destruct Hf' as [->|Hf']; [congruence|exact Hf'].
        -- apply sublist_cons. exact Hsub.
        -- constructor; [exists f; split; [reflexivity|left]|].
           eapply Forall_impl; [exact Hcs|]. intros c (f' & -> & Hf'). exists f'.
           split; [reflexivity | right; exact Hf'].
Qed.

Lemma find_hosts_files_run (w : World) (cfg : Config) (env_path : string) (st : State) :
  exists files cs,
    _find_hosts_files w cfg env_path st =
      (add_calls
         (List.map (fun pattern => glob_glob (Path.join env_path pattern))
            (hosts_file_patterns cfg) ++ cs) st,
       inr files) /\
    NoDup files /\
    (forall f, f ∈ files <-> f ∈ globbed w cfg env_path /\ path_isfile w f = true) /\
    files `sublist_of` globbed w cfg env_path /\
    Forall (fun c => exists f, c = os_path_isfile f /\ f ∈ globbed w cfg env_path) cs.
Proof.
  unfold _find_hosts_files.
  rewrite (bind_returned _ _ _ _ _ (glob_loop_run w env_path (hosts_file_patterns cfg) [] st)).
  cbn [app]. fold (globbed w cfg env_path).
  destruct (unique_loop_run w (globbed w cfg env_path) [] ∅
              (add_calls (List.map (fun pattern => glob_glob (Path.join env_path pattern))
                            (hosts_file_patterns cfg)) st))
    as (added & seen' & cs & Hrun & Hnd & Hmem & Hsub & Hcs).
  { intros f. split; [intros H; apply not_elem_of_empty in H; contradiction
                     | intros H; inversion H]. }
  { constructor. }
  exists added, cs.
  rewrite (bind_returned _ _ _ _ _ Hrun). cbn [app] in *.
  rewrite add_calls_app. split; [reflexivity|]. split; [exact Hnd|].
  split; [|split; [exact Hsub | exact Hcs]].
  intros f. rewrite Hmem. split; [tauto|]. intros [H1 H2]. split; [exact H1|].
  split; [exact H2|]. intros H; inversion H.
Qed.


Example find_hosts_files_overlap :
  (_find_hosts_files world_overlap config_overlap "/inv/prod" initial_state).2 =
    inr ["/inv/prod/hosts.ini"; "/inv/prod/hosts_db"] /\
  trace (_find_hosts_files world_overlap config_overlap "/inv/prod" initial_state).1 =
    [ glob_glob "/inv/prod/hosts.ini"; glob_glob "/inv/prod/hosts*";
      os_path_isfile "/inv/prod/hosts.ini"; os_path_isfile "/inv/prod/hosts.d";
      os_path_isfile "/inv/prod/hosts_db" ].
Proof. vm_compute. auto. Qed.


(** ** The footprint of a run on the file system *)

Section Footprint.

Variable w : World.
Variable cfg : Config.
Variable Pc : call -> Prop.

Hypothesis Pc_set_environment : forall h d, Pc (enter_set_environment_from_directory h d).
Hypothesis Pc_enter_resolve : forall h, Pc (enter_resolve_dns h).
Hypothesis Pc_resolve : forall h, Pc (dns_resolver_resolve h).
Hypothesis Pc_detect : forall h g, Pc (enter_detect_environment h g).

Local Abbreviation F := (emits (fun _ => True) Pc).

Lemma process_entry_calls filename environment cursor entry :
  preserves F (process_entry w cfg filename environment cursor entry).
Proof.
  unfold process_entry, host_entry, tag_host, define_host, assign_variable,
    _set_environment_from_directory, _resolve_dns, _detect_environment.
  destruct cursor as [group host].
  repeat first [ apply emits_display; exact I
               | apply emits_record; auto
               | apply emits_set_variable
               | apply emits_set_hostvars
               | apply emits_set_children
               | apply emits_set_group_hosts
               | apply emits_group_hosts
               | apply emits_host_variables
               | preserves_step ].
Qed.

Lemma process_single_host_file_calls filename environment :
  Pc (open_file filename) ->
  preserves F (_process_single_host_file w cfg filename environment).
Proof.
  intros Hopen. unfold _process_single_host_file.
  repeat first [ apply process_entry_calls
               | apply emits_display; exact I
               | apply emits_record; exact Hopen
               | preserves_step ].
Qed.

End Footprint.

Lemma emits_add_calls Pd Pc (cs : list call) (st : State) :
  Forall Pc cs -> emits Pd Pc st (add_calls cs st).
Proof. intros Hcs. exists [], cs. cbn. rewrite app_nil_r. auto. Qed.

Lemma process_environment_directory_footprint (w : World) (cfg : Config)
    (total_files : nat) (env_dir : string) :
  env_dir ∈ environment_dirs cfg ->
  preserves (emits (fun _ => True) (footprint w cfg))
    (process_environment_directory w cfg total_files env_dir).
Proof.
  intros Hdir. unfold process_environment_directory.
  destruct (Str.contains ".." env_dir || Path.isabs env_dir) eqn:Hcheck.
  { repeat first [ apply emits_display; exact I | preserves_step ]. }
  apply orb_false_elim in Hcheck.
  assert (Hsafe : safe_directory cfg env_dir) by (unfold safe_directory; tauto).
  set (env_path := Path.join (hosts_directory cfg) env_dir).
  apply preserves_bind; [typeclasses eauto | apply emits_record; right; eauto |intros _].
  destruct (path_exists w env_path); cbn [negb];
    [|repeat first [ apply emits_display; exact I | preserves_step ]].
  apply preserves_bind; [typeclasses eauto | apply emits_record; right; eauto |intros _].
  destruct (path_isdir w env_path) eqn:Hisdir; cbn [negb];
    [|repeat first [ apply emits_display; exact I | preserves_step ]].
  apply preserves_bind; [typeclasses eauto | apply emits_display; exact I |intros _].
  intros st.
  destruct (find_hosts_files_run w cfg env_path st) as (files & cs & Hrun & _ & Hmem & _ & Hcs).
  rewrite (bind_returned _ _ _ _ _ Hrun).
  transitivity (add_calls
                  (List.map (fun pattern => glob_glob (Path.join env_path pattern))
                     (hosts_file_patterns cfg) ++ cs) st).
  - apply emits_add_calls. apply Forall_app. split.
    + apply Forall_forall. intros c Hc. apply list_elem_of_In, in_map_iff in Hc.
      destruct Hc as (pattern & <- & Hpattern). exists env_dir, pattern.
      apply list_elem_of_In in Hpattern. auto.
    + eapply Forall_impl; [exact Hcs|]. intros c (f & -> & Hf). exists env_dir. auto.
  - generalize (add_calls
                  (List.map (fun pattern => glob_glob (Path.join env_path pattern))
                     (hosts_file_patterns cfg) ++ cs) st).
    change (preserves (emits (fun _ => True) (footprint w cfg))
              match files with
              | [] => display vv (NoHostsFilesIn env_path);; mret total_files
              | _ :: _ =>
                  display v (FoundHostsFiles (length files) env_dir
                               (List.map Path.basename files));;
                  for_each files
                    (fun filename => _process_single_host_file w cfg filename (Some env_dir));;
                  mret (total_files + length files)
              end).
    destruct files as [|f rest] eqn:Hfiles;
      [repeat first [ apply emits_display; exact I | preserves_step ]|].
    rewrite <- Hfiles in *.
    repeat first [ apply emits_display; exact I
                 | apply process_single_host_file_calls; try (intros; exact I)
                 | preserves_step ].
    match goal with H : _ ∈ files |- _ => apply Hmem in H; destruct H end.
    exists env_dir. auto.
Qed.

Lemma effective_hosts_file_patterns w cfg :
  hosts_file_patterns (effective w cfg) = hosts_file_patterns cfg.
Proof. unfold effective. destruct (_ && _); reflexivity. Qed.

Lemma footprint_effective (w : World) (cfg : Config) (c : call) :
  footprint w (effective w cfg) c -> footprint w cfg c.
Proof.
  unfold footprint, safe_directory, globbed.
  rewrite effective_hosts_directory, effective_environment_dirs, effective_hosts_file_patterns.
  auto.
Qed.

Lemma prefix_append (a b : string) : String.prefix a (a +:+ b) = true.
Proof.
  induction a as [|c a IH]; [destruct b; reflexivity|].
  rewrite append_String. cbn. destruct (ascii_dec c c); [exact IH | contradiction].
Qed.

Lemma join_below (a b : string) :
  Path.isabs b = false -> String.prefix a (Path.join a b) = true.
Proof.
  intros Hb. unfold Path.join. rewrite Hb.
  destruct (negb (Str.nonempty a) || Str.endswith "/" a); apply prefix_append.
Qed.

(** X14: every call a run makes on the file system is a probe of the
    root or of a configured directory that passed the safety check, joined
    to the root; a glob of a configured pattern in such a directory that
    exists; or a test or a read of what such a glob matched, a read only
    of what is a file.  Every path probed begins with the root. *)
Theorem run_footprint (w : World) (cfg : Config) :
  Forall (footprint w cfg) (trace (run w cfg).1) /\
  (forall path,
     os_path_exists path ∈ trace (run w cfg).1 \/ os_path_isdir path ∈ trace (run w cfg).1 ->
     String.prefix (hosts_directory cfg) path = true).
Proof.
  assert (Hall : Forall (footprint w cfg) (trace (run w cfg).1)); [|split; [exact Hall|]].
  2: { pose proof (proj1 (Forall_forall _ _) Hall) as Hcalls.
       assert (Hprobe : forall path,
                 path = hosts_directory cfg \/
                 (exists env_dir,
                    safe_directory cfg env_dir /\
                    path = Path.join (hosts_directory cfg) env_dir) ->
                 String.prefix (hosts_directory cfg) path = true).
       { intros path [->|(env_dir & (_ & _ & Habs) & ->)].
         - rewrite <- (append_empty_r (hosts_directory cfg)) at 2. apply prefix_append.
         - apply join_below. exact Habs. }
       intros path [Hin|Hin]; apply Hprobe; exact (Hcalls _ Hin). }

  destruct (decide (hosts_directory cfg = "")) as [Hroot|Hroot].
  { rewrite run_without_root by exact Hroot. constructor. }
  rewrite run_unfold by exact Hroot.
  assert (Hwalk : preserves (emits (fun _ => True) (footprint w (effective w cfg)))
                    (process_hosts_directory w (effective w cfg))).
  { unfold process_hosts_directory, _process_environment_directories,
      _build_ansible_inventory.
    repeat first [ apply emits_display; exact I
                 | apply emits_record; left; reflexivity
                 | apply emits_put_data
                 | apply process_environment_directory_footprint; assumption
                 | preserves_step ]. }
  match goal with
  | |- context [process_hosts_directory w ?c ?st] =>
      destruct (Hwalk st) as (ds & cs & _ & Hc & _ & Fc);
      assert (Hnil : trace st = []) by (destruct (_ && _); reflexivity)
  end.
  rewrite Hc, Hnil. cbn [app].
  eapply Forall_impl; [exact Fc|]. apply footprint_effective.
Qed.

Lemma run_footprint_witness :
  os_path_exists "/inv/prod" ∈ trace (run world_A config_A).1 /\
  String.prefix (hosts_directory config_A) "/inv/prod" = true /\
  Forall (footprint world_outside config_outside) (trace (run world_outside config_outside).1).
Proof.
  assert (Hin : os_path_exists "/inv/prod" ∈ trace (run world_A config_A).1)
    by (vm_compute; right; right; left).
  split; [exact Hin|]. split.
  - exact (proj2 (run_footprint world_A config_A) "/inv/prod" (or_introl Hin)).
  - exact (proj1 (run_footprint world_outside config_outside)).
Defined.

(** X15: every configured pattern is joined to the directory and
    globbed as it is: a pattern that is an absolute path replaces the
    directory, and the files it matches are returned like any other. *)
Theorem patterns_are_not_screened (w : World) (cfg : Config) (env_path pattern : string)
    (st : State) :
  pattern ∈ hosts_file_patterns cfg ->
  glob_glob (Path.join env_path pattern) ∈ trace (_find_hosts_files w cfg env_path st).1 /\
  (Path.isabs pattern = true -> Path.join env_path pattern = pattern) /\
  (forall f,
     f ∈ glob w (Path.join env_path pattern) -> path_isfile w f = true ->
     exists files, (_find_hosts_files w cfg env_path st).2 = inr files /\ f ∈ files).
Proof.
  intros Hpattern.
  destruct (find_hosts_files_run w cfg env_path st) as (files & cs & -> & _ & Hmem & _).
  split; [|split].
  - cbn. apply elem_of_app. right. apply elem_of_app. left.
    apply list_elem_of_In, in_map_iff. exists pattern.
    split; [reflexivity | apply list_elem_of_In; exact Hpattern].
  - intros Habs. unfold Path.join. rewrite Habs. reflexivity.
  - intros f Hf Hfile. exists files. split; [reflexivity|]. apply Hmem.
    split; [|exact Hfile]. unfold globbed. apply list_elem_of_In, in_flat_map.
    exists pattern. split; apply list_elem_of_In; assumption.
Qed.

Lemma patterns_are_not_screened_witness :
  "/etc/hosts*" ∈ hosts_file_patterns config_outside /\
  Path.isabs "/etc/hosts*" = true /\
  "/etc/hosts.allow" ∈ glob world_outside (Path.join "/inv/prod" "/etc/hosts*") /\
  path_isfile world_outside "/etc/hosts.allow" = true /\
  exists files,
    (_find_hosts_files world_outside config_outside "/inv/prod" initial_state).2 = inr files /\
    "/etc/hosts.allow" ∈ files.
Proof.
  assert (Hpattern : "/etc/hosts*" ∈ hosts_file_patterns config_outside) by (cbn; left).
  assert (Hglob : "/etc/hosts.allow" ∈ glob world_outside (Path.join "/inv/prod" "/etc/hosts*"))
    by (vm_compute; left).
  assert (Hfile : path_isfile world_outside "/etc/hosts.allow" = true)
    by (vm_compute; reflexivity).
  split; [exact Hpattern|]. split; [reflexivity|]. split; [exact Hglob|].
  split; [exact Hfile|].
  exact (proj2 (proj2 (patterns_are_not_screened world_outside config_outside "/inv/prod"
                         "/etc/hosts*" initial_state Hpattern)) _ Hglob Hfile).
Defined.

Example run_reads_outside_the_root :
  (run world_outside config_outside).2 = inr tt /\
  trace (run world_outside config_outside).1 =
    [ os_path_exists "/inv"; os_path_isdir "/inv";
      os_path_exists "/inv/prod"; os_path_isdir "/inv/prod";
      glob_glob "/etc/hosts*"; os_path_isfile "/etc/hosts.allow";
      open_file "/etc/hosts.allow";
      enter_set_environment_from_directory "gateway" "prod" ] /\
  groups (inventory_data (run world_outside config_outside).1) !! "ungrouped" =
    Some ["gateway"].
Proof. vm_compute. auto. Qed.

(** ** The directory hint of every file *)

Section Announcements.

Variable w : World.
Variable cfg : Config.

Local Abbreviation A := (emits (announced_under w cfg) (fun _ => True)).

Lemma process_entry_announces filename environment cursor entry :
  preserves A (process_entry w cfg filename environment cursor entry).
Proof.
  unfold process_entry, host_entry, tag_host, define_host, assign_variable,
    _set_environment_from_directory, _resolve_dns, _detect_environment.
  destruct cursor as [group host].
  repeat first [ apply emits_display; exact I
               | apply emits_record; exact I
               | apply emits_set_variable
               | apply emits_set_hostvars
               | apply emits_set_children
               | apply emits_set_group_hosts
               | apply emits_group_hosts
               | apply emits_host_variables
               | preserves_step ].
Qed.

Lemma process_single_host_file_announces filename environment :
  announced_under w cfg (vv, ProcessingFile filename environment) ->
  preserves A (_process_single_host_file w cfg filename environment).
Proof.
  intros Hfile. unfold _process_single_host_file.
  repeat first [ apply process_entry_announces
               | apply emits_display; first [exact Hfile | exact I]
               | apply emits_record; exact I
               | preserves_step ].
Qed.

Lemma process_environment_directory_announces (total_files : nat) (env_dir : string) :
  env_dir ∈ environment_dirs cfg ->
  preserves A (process_environment_directory w cfg total_files env_dir).
Proof.
  intros Hdir. unfold process_environment_directory.
  destruct (Str.contains ".." env_dir || Path.isabs env_dir) eqn:Hcheck.
  { repeat first [ apply emits_display; exact I | preserves_step ]. }
  apply orb_false_elim in Hcheck.
  assert (Hsafe : safe_directory cfg env_dir) by (unfold safe_directory; tauto).
  set (env_path := Path.join (hosts_directory cfg) env_dir).
  apply preserves_bind; [typeclasses eauto | apply emits_record; exact I |intros _].
  destruct (path_exists w env_path); cbn [negb];
    [|repeat first [ apply emits_display; exact I | preserves_step ]].
  apply preserves_bind; [typeclasses eauto | apply emits_record; exact I |intros _].
  destruct (path_isdir w env_path) eqn:Hisdir; cbn [negb];
    [|repeat first [ apply emits_display; exact I | preserves_step ]].
  apply preserves_bind; [typeclasses eauto | apply emits_display; exact I |intros _].
  intros st.
  destruct (find_hosts_files_run w cfg env_path st) as (files & cs & Hrun & _ & Hmem & _ & _).
  rewrite (bind_returned _ _ _ _ _ Hrun).
  transitivity (add_calls
                  (List.map (fun pattern => glob_glob (Path.join env_path pattern))
                     (hosts_file_patterns cfg) ++ cs) st).
  - apply emits_add_calls. apply Forall_forall. intros c _. exact I.
  - generalize (add_calls
                  (List.map (fun pattern => glob_glob (Path.join env_path pattern))
                     (hosts_file_patterns cfg) ++ cs) st).
    change (preserves A
              match files with
              | [] => display vv (NoHostsFilesIn env_path);; mret total_files
              | _ :: _ =>
                  display v (FoundHostsFiles (length files) env_dir
                               (List.map Path.basename files));;
                  for_each files
                    (fun filename => _process_single_host_file w cfg filename (Some env_dir));;
                  mret (total_files + length files)
              end).
    destruct files as [|f rest] eqn:Hfiles;
      [repeat first [ apply emits_display; exact I | preserves_step ]|].
    rewrite <- Hfiles in *.
    repeat first [ apply emits_display; exact I
                 | apply process_single_host_file_announces
                 | preserves_step ].
    match goal with H : _ ∈ files |- _ => apply Hmem in H; destruct H end.
    exists env_dir. auto.
Qed.

Lemma process_hosts_directory_announces :
  preserves A (process_hosts_directory w cfg).
Proof.
  unfold process_hosts_directory, _process_environment_directories,
    _build_ansible_inventory.
  repeat first [ apply emits_display; exact I
               | apply emits_record; exact I
               | apply emits_put_data
               | apply process_environment_directory_announces; assumption
               | preserves_step ].
Qed.

End Announcements.

Lemma announced_under_effective (w : World) (cfg : Config) (d : level * message) :
  announced_under w (effective w cfg) d -> announced_under w cfg d.
Proof.
  unfold announced_under, safe_directory, globbed.
  rewrite effective_hosts_directory, effective_environment_dirs, effective_hosts_file_patterns.
  auto.
Qed.

Lemma run_announces (w : World) (cfg : Config) :
  Forall (announced_under w cfg) (diagnostics (run w cfg).1).
Proof.
  destruct (decide (hosts_directory cfg = "")) as [Hroot|Hroot].
  { rewrite run_without_root by exact Hroot. constructor. }
  rewrite run_unfold by exact Hroot.
  match goal with
  | |- context [process_hosts_directory w ?c ?st] =>
      destruct (process_hosts_directory_announces w c st) as (ds & cs & Hd & _ & Fd & _);
      assert (Hinit : Forall (announced_under w cfg) (diagnostics st))
        by (destruct (_ && _); repeat constructor)
  end.
  rewrite Hd. apply Forall_app. split; [exact Hinit|].
  eapply Forall_impl; [exact Fd|]. apply announced_under_effective.
Qed.

(** C10 (amended): in a run, the per-file parser is always invoked with
    a non-null environment hint, namely the name of the configured
    directory the file was found under: a name that passed the safety
    check, whose path below the root is a directory in which a configured
    pattern matched the file (the empty string when that name is
    configured); and the fallback detection from the group name is never
    entered. *)
Theorem parser_always_gets_directory_hint (w : World) (cfg : Config) :
  (forall l filename environment,
     (l, ProcessingFile filename environment) ∈ diagnostics (run w cfg).1 ->
     exists env_dir,
       environment = Some env_dir /\ safe_directory cfg env_dir /\
       path_isdir w (Path.join (hosts_directory cfg) env_dir) = true /\
       filename ∈ globbed w cfg (Path.join (hosts_directory cfg) env_dir) /\
       path_isfile w filename = true) /\
  (forall hostname group, enter_detect_environment hostname group ∉ trace (run w cfg).1).
Proof.
  split.
  - intros l filename environment Hin.
    pose proof (proj1 (Forall_forall _ _) (run_announces w cfg) _ Hin) as Hfile.
    exact Hfile.
  - destruct (run_logs w cfg) as (ds & cs & _ & Hc & _ & Fc).
    pose proof (proj1 (Forall_forall _ _) Fc) as Hcs.
    intros hostname group Hin. rewrite Hc in Hin. exact (Hcs _ Hin).
Qed.

Lemma parser_always_gets_directory_hint_witness :
  (vv, ProcessingFile "/inv/prod/hosts.ini" (Some "prod"))
    ∈ diagnostics (run world_A config_A).1 /\
  exists env_dir,
    Some "prod" = Some env_dir /\ safe_directory config_A env_dir /\
    path_isdir world_A (Path.join (hosts_directory config_A) env_dir) = true /\
    "/inv/prod/hosts.ini" ∈ globbed world_A config_A (Path.join (hosts_directory config_A) env_dir) /\
    path_isfile world_A "/inv/prod/hosts.ini" = true.
Proof.
  assert (Hin : (vv, ProcessingFile "/inv/prod/hosts.ini" (Some "prod"))
                  ∈ diagnostics (run world_A config_A).1).
  { apply list_elem_of_In. vm_compute. tauto. }
  split; [exact Hin|].
  exact (proj1 (parser_always_gets_directory_hint world_A config_A) _ _ _ Hin).
Defined.

(** ** A run that finds no file *)

Lemma directory_without_files_step (w : World) (cfg : Config) (total_files : nat)
    (env_dir : string) (st : State) :
  (forall pattern f,
     pattern ∈ hosts_file_patterns cfg ->
     f ∈ glob w (Path.join (Path.join (hosts_directory cfg) env_dir) pattern) ->
     path_isfile w f = false) ->
  exists st',
    process_environment_directory w cfg total_files env_dir st = (st', inr total_files) /\
    inventory_data st' = inventory_data st /\
    (forall l n, (l, ProcessedTotal n) ∈ diagnostics st' -> (l, ProcessedTotal n) ∈ diagnostics st).
Proof.
  intros Hnone. unfold process_environment_directory.
  destruct (Str.contains ".." env_dir || Path.isabs env_dir).
  { eexists. split; [reflexivity|]. split; [reflexivity|]. cbn. intros l n Hin.
    apply elem_of_app in Hin. destruct Hin as [Hin|Hin]; [exact Hin|].
    apply list_elem_of_singleton in Hin. discriminate. }
  set (env_path := Path.join (hosts_directory cfg) env_dir) in *.
  unfold mbind, M_bind, record, display. cbn beta iota.
  destruct (path_exists w env_path); cbn [negb].
  2: { eexists. split; [reflexivity|]. split; [reflexivity|]. cbn. intros l n Hin.
       apply elem_of_app in Hin. destruct Hin as [Hin|Hin]; [exact Hin|].
       apply list_elem_of_singleton in Hin. discriminate. }
  destruct (path_isdir w env_path); cbn [negb].
  2: { eexists. split; [reflexivity|]. split; [reflexivity|]. cbn. intros l n Hin.
       apply elem_of_app in Hin. destruct Hin as [Hin|Hin]; [exact Hin|].
       apply list_elem_of_singleton in Hin. discriminate. }
  match goal with
  | |- context [_find_hosts_files w cfg env_path ?st0] =>
      destruct (find_hosts_files_run w cfg env_path st0) as (files & cs & -> & _ & Hmem & _)
  end.
  destruct files as [|f files].
  - eexists. split; [reflexivity|]. split; [reflexivity|]. cbn. intros l n Hin.
    rewrite !elem_of_app, !list_elem_of_singleton in Hin.
    destruct Hin as [[Hin|Hin]|Hin]; [exact Hin | discriminate..].
  - exfalso. assert (Hf : f ∈ f :: files) by left. apply Hmem in Hf.
    destruct Hf as [Hf Hfile]. unfold globbed in Hf.
    apply list_elem_of_In, in_flat_map in Hf. destruct Hf as (pattern & Hpattern & Hf).
    apply list_elem_of_In in Hpattern, Hf.
    rewrite (Hnone pattern f Hpattern Hf) in Hfile. discriminate.
Qed.

Lemma directories_without_files_loop (w : World) (cfg : Config) (dirs : list string)
    (total_files : nat) (st : State) :
  (forall env_dir pattern f,
     env_dir ∈ dirs -> pattern ∈ hosts_file_patterns cfg ->
     f ∈ glob w (Path.join (Path.join (hosts_directory cfg) env_dir) pattern) ->
     path_isfile w f = false) ->
  exists st',
    foldM (process_environment_directory w cfg) dirs total_files st = (st', inr total_files) /\
    inventory_data st' = inventory_data st /\
    (forall l n, (l, ProcessedTotal n) ∈ diagnostics st' -> (l, ProcessedTotal n) ∈ diagnostics st).
Proof.
  revert st. induction dirs as [|env_dir dirs IH]; intros st Hnone.
  - exists st. auto.
  - destruct (directory_without_files_step w cfg total_files env_dir st) as (st1 & Hstep & Hd1 & Hp1).
    { intros pattern f. apply Hnone. left. }
    destruct (IH st1) as (st2 & Hloop & Hd2 & Hp2).
    { intros d pattern f Hd. apply Hnone. right. exact Hd. }
    exists st2. cbn [foldM]. rewrite (bind_returned _ _ _ _ _ Hstep).
    split; [exact Hloop|]. split; [congruence | auto].
Qed.

Lemma run_walk (w : World) (cfg : Config) :
  hosts_directory cfg <> "" ->
  path_exists w (hosts_directory cfg) = true ->
  path_isdir w (hosts_directory cfg) = true ->
  run w cfg =
    ((walk w cfg).1,
     match (walk w cfg).2 with
     | inl e => inl (FailedToProcess e)
     | inr _ => inr tt
     end).
Proof.
  intros Hroot Hexists Hisdir. rewrite run_unfold by exact Hroot.
  unfold walk, state_before_walk, process_hosts_directory.
  rewrite effective_hosts_directory, Hexists, Hisdir. cbn [negb].
  unfold mbind, M_bind, record, raise, try_except. cbn beta iota.
  destruct (_process_environment_directories _ _ _) as [st [e|[]]]; reflexivity.
Qed.

(** X16: when the root is a directory and no configured pattern
    matches a file in any configured directory, the run completes with the
    warning that no hosts files were found as its last diagnostic, never
    announces a total, leaves the inventory empty, and does not depend on
    the inventory object. *)
Theorem run_without_hosts_files (w : World) (cfg : Config) :
  hosts_directory cfg <> "" ->
  path_exists w (hosts_directory cfg) = true ->
  path_isdir w (hosts_directory cfg) = true ->
  (forall env_dir pattern f,
     env_dir ∈ environment_dirs cfg -> pattern ∈ hosts_file_patterns cfg ->
     f ∈ glob w (Path.join (Path.join (hosts_directory cfg) env_dir) pattern) ->
     path_isfile w f = false) ->
  (run w cfg).2 = inr tt /\
  inventory_data (run w cfg).1 = initial_inventory /\
  (exists ds, diagnostics (run w cfg).1 = ds ++ [(warning, NoHostsFilesAnywhere)]) /\
  (forall l n, (l, ProcessedTotal n) ∉ diagnostics (run w cfg).1).
Proof.
  intros Hroot Hexists Hisdir Hnone. rewrite run_walk by assumption.
  unfold walk. set (st0 := state_before_walk w cfg).
  assert (Hquiet : forall l n, (l, ProcessedTotal n) ∉ diagnostics st0).
  { subst st0. unfold state_before_walk. cbn. destruct (_ && _); cbn; intros l n Hin.
    - apply list_elem_of_singleton in Hin. discriminate.
    - inversion Hin. }
  destruct (directories_without_files_loop w (effective w cfg)
              (environment_dirs (effective w cfg)) 0 (set_data initial_inventory st0))
    as (st1 & Hloop & Hd1 & Hp1).
  { rewrite effective_hosts_directory, effective_environment_dirs,
      effective_hosts_file_patterns. exact Hnone. }
  rewrite (no_files_step _ _ _ _ Hloop). cbn.
  split; [reflexivity|]. split; [exact Hd1|]. split; [eauto|].
  intros l n Hin. apply elem_of_app in Hin. destruct Hin as [Hin|Hin].
  - exact (Hquiet l n (Hp1 l n Hin)).
  - apply list_elem_of_singleton in Hin. discriminate.
Qed.

Lemma run_without_hosts_files_witness :
  hosts_directory config_A <> "" /\
  path_exists world_bare (hosts_directory config_A) = true /\
  path_isdir world_bare (hosts_directory config_A) = true /\
  (run world_bare config_A).2 = inr tt /\
  inventory_data (run world_bare config_A).1 = initial_inventory.
Proof.
  assert (Hroot : hosts_directory config_A <> "") by discriminate.
  assert (Hexists : path_exists world_bare (hosts_directory config_A) = true) by reflexivity.
  assert (Hisdir : path_isdir world_bare (hosts_directory config_A) = true) by reflexivity.
  destruct (run_without_hosts_files world_bare config_A Hroot Hexists Hisdir)
    as (Hret & Hdata & _); [reflexivity|].
  auto.
Defined.

(** ** The hand-over to the inventory object *)

Lemma group_items_of_lists (d : InventoryData) : lists_groups (group_items_of d) d.
Proof. intros group hosts. apply elem_of_map_to_list. Qed.

Lemma hostvars_items_of_lists (d : InventoryData) : lists_hostvars (hostvars_items_of d) d.
Proof.
  intros host key value. unfold hostvars_items_of. split.
  - intros (vars & Hin & Hkv). apply list_elem_of_In, in_map_iff in Hin.
    destruct Hin as ([h m] & [= <- <-] & Hin). apply list_elem_of_In in Hin.
    apply elem_of_map_to_list in Hin. apply elem_of_map_to_list in Hkv. eauto.
  - intros (m & Hm & Hkv). exists (map_to_list m). split.
    + apply list_elem_of_In, in_map_iff. exists (host, m). split; [reflexivity|].
      apply list_elem_of_In, elem_of_map_to_list. exact Hm.
    + apply elem_of_map_to_list. exact Hkv.
Qed.

Section BuildCalls.

Variable d : InventoryData.
Variable group_items : list (string * list string).
Variable hostvars_items : list (string * list (string * string)).

Local Abbreviation children_calls :=
  (flat_map (fun child =>
               if negb (String.eqb child "ungrouped") || has_key child d
               then [add_group child] else [])
            (children d)).
Local Abbreviation group_calls :=
  (flat_map (fun '(group_name, hosts) =>
               add_group group_name :: List.map (fun host => add_host host group_name) hosts)
            group_items).
Local Abbreviation variable_calls :=
  (flat_map (fun '(hostname, vars) =>
               List.map (fun '(var_name, var_value) =>
                           inventory_set_variable hostname var_name var_value) vars)
            hostvars_items).

Lemma children_calls_spec (c : inventory_call) :
  c ∈ children_calls <->
  exists child, c = add_group child /\ child ∈ children d /\
                (child <> "ungrouped" \/ has_key child d = true).
Proof.
  rewrite list_elem_of_In, in_flat_map. split.
  - intros (child & Hchild & Hc). apply list_elem_of_In in Hchild.
    destruct (String.eqb child "ungrouped") eqn:Heq; cbn [negb orb] in Hc.
    + destruct (has_key child d) eqn:Hkey; [|destruct Hc].
      destruct Hc as [<-|[]]. eauto.
    + destruct Hc as [<-|[]]. apply String.eqb_neq in Heq. eauto.
  - intros (child & -> & Hchild & Hcond). exists child.
    split; [apply list_elem_of_In; exact Hchild|].
    destruct Hcond as [Hne|Hkey].
    + apply String.eqb_neq in Hne. rewrite Hne. left. reflexivity.
    + rewrite Hkey, orb_true_r. left. reflexivity.
Qed.

Lemma group_calls_spec (c : inventory_call) :
  c ∈ group_calls <->
  exists group hosts, (group, hosts) ∈ group_items /\
                      (c = add_group group \/ exists host, c = add_host host group /\ host ∈ hosts).
Proof.
  rewrite list_elem_of_In, in_flat_map. split.
  - intros ([group hosts] & Hitem & Hc). apply list_elem_of_In in Hitem.
    exists group, hosts. split; [exact Hitem|].
    destruct Hc as [<-|Hc]; [left; reflexivity|]. right.
    apply in_map_iff in Hc. destruct Hc as (host & <- & Hhost).
    exists host. split; [reflexivity | apply list_elem_of_In; exact Hhost].
  - intros (group & hosts & Hitem & Hc). exists (group, hosts).
    split; [apply list_elem_of_In; exact Hitem|].
    destruct Hc as [->|(host & -> & Hhost)]; [left; reflexivity|]. right.
    apply in_map_iff. exists host. split; [reflexivity | apply list_elem_of_In; exact Hhost].
Qed.

Lemma variable_calls_spec (c : inventory_call) :
  c ∈ variable_calls <->
  exists host vars key value,
    (host, vars) ∈ hostvars_items /\ (key, value) ∈ vars /\
    c = inventory_set_variable host key value.
Proof.
  rewrite list_elem_of_In, in_flat_map. split.
  - intros ([host vars] & Hitem & Hc). apply in_map_iff in Hc.
    destruct Hc as ([key value] & <- & Hkv).
    exists host, vars, key, value. rewrite !list_elem_of_In. auto.
  - intros (host & vars & key & value & Hitem & Hkv & ->). exists (host, vars).
    split; [apply list_elem_of_In; exact Hitem|].
    apply in_map_iff. exists (key, value). split; [reflexivity|].
    apply list_elem_of_In. exact Hkv.
Qed.

End BuildCalls.

Lemma app_split {A} (l1 l2 before after : list A) (c : A) :
  l1 ++ l2 = before ++ c :: after ->
  (exists mid, l1 = before ++ c :: mid /\ after = mid ++ l2) \/
  (exists mid, before = l1 ++ mid /\ l2 = mid ++ c :: after).
Proof.
  revert before. induction l1 as [|x l1 IH]; intros before H.
  - right. exists before. auto.
  - destruct before as [|y before]; cbn in H; injection H as -> H.
    + left. exists l1. auto.
    + destruct (IH before H) as [(mid & -> & ->)|(mid & -> & ->)].
      * left. exists mid. auto.
      * right. exists mid. auto.
Qed.

Lemma flat_map_split {A B} (f : A -> list B) (l : list A) (before after : list B) (c : B) :
  flat_map f l = before ++ c :: after ->
  exists l1 x l2 b1 b2,
    l = l1 ++ x :: l2 /\ f x = b1 ++ c :: b2 /\ before = flat_map f l1 ++ b1.
Proof.
  revert before. induction l as [|x l IH]; intros before H; cbn in H.
  - destruct before; discriminate.
  - apply app_split in H. destruct H as [(mid & Hx & _)|(mid & -> & H)].
    + exists [], x, l, before, mid. auto.
    + destruct (IH mid H) as (l1 & y & l2 & b1 & b2 & -> & Hy & ->).
      exists (x :: l1), y, l2, b1, b2. cbn. rewrite app_assoc. auto.
Qed.

Lemma set_variable_call_known (d : InventoryData)
    (group_items : list (string * list string))
    (hostvars_items : list (string * list (string * string))) (host key value : string) :
  lists_hostvars hostvars_items d ->
  inventory_set_variable host key value ∈ build_calls d group_items hostvars_items ->
  known host d.
Proof.
  intros Hvars. unfold build_calls.
  rewrite !elem_of_app, children_calls_spec, group_calls_spec, variable_calls_spec.
  intros [(child & Hc & _)|[(g & hosts & _ & Hc)|Hc]]; [discriminate| |].
  - destruct Hc as [Hc|(h & Hc & _)]; discriminate.
  - destruct Hc as (h & vars & k & x & Hitem & Hkv & [= <- <- <-]).
    assert (Hm : exists m, hostvars d !! host = Some m /\ m !! key = Some value)
      by (apply Hvars; eauto).
    destruct Hm as (m & Hm & _). unfold known. rewrite Hm. eauto.
Qed.

(** X17: what [_build_ansible_inventory] hands to the inventory
    object: a group is added when it is a child of [all] other than
    [ungrouped] or has a host list of its own (so a group named by a
    header only is added, and [ungrouped] only with hosts); a host is
    added to a group exactly when the group lists it; a variable is set
    exactly when [hostvars] holds it. *)
Theorem build_hands_over_the_inventory (d : InventoryData)
    (group_items : list (string * list string))
    (hostvars_items : list (string * list (string * string))) :
  lists_groups group_items d -> lists_hostvars hostvars_items d ->
  (forall group,
     add_group group ∈ build_calls d group_items hostvars_items <->
     (group <> "ungrouped" /\ group ∈ children d) \/ is_Some (groups d !! group)) /\
  (forall host group,
     add_host host group ∈ build_calls d group_items hostvars_items <->
     exists hosts, groups d !! group = Some hosts /\ host ∈ hosts) /\
  (forall host key value,
     inventory_set_variable host key value ∈ build_calls d group_items hostvars_items <->
     exists vars, hostvars d !! host = Some vars /\ vars !! key = Some value).
Proof.
  intros Hgroups Hvars. unfold build_calls. split; [|split].
  - intros group. rewrite !elem_of_app, children_calls_spec, group_calls_spec,
      variable_calls_spec. split.
    + intros [(child & [= <-] & Hchild & Hcond)|[(g & hosts & Hitem & Hc)|Hc]].
      * destruct (decide (group = "ungrouped")) as [->|Hne]; [|left; auto].
        destruct Hcond as [Hne|Hkey]; [contradiction|]. right.
        unfold has_key in Hkey. cbn in Hkey. apply bool_decide_eq_true in Hkey. exact Hkey.
      * destruct Hc as [[= <-]|(host & Hc & _)]; [|discriminate].
        right. apply Hgroups in Hitem. rewrite Hitem. eauto.
      * destruct Hc as (host & vars & key & value & _ & _ & Hc). discriminate.
    + intros [[Hne Hchild]|[hosts Hg]].
      * left. exists group. auto.
      * right. left. exists group, hosts. split; [apply Hgroups; exact Hg | left; reflexivity].
  - intros host group. rewrite !elem_of_app, children_calls_spec, group_calls_spec,
      variable_calls_spec. split.
    + intros [(child & Hc & _)|[(g & hosts & Hitem & Hc)|Hc]]; [discriminate| |].
      * destruct Hc as [Hc|(h & [= <- <-] & Hh)]; [discriminate|].
        exists hosts. split; [apply Hgroups; exact Hitem | exact Hh].
      * destruct Hc as (h & vars & key & value & _ & _ & Hc). discriminate.
    + intros (hosts & Hg & Hh). right. left. exists group, hosts.
      split; [apply Hgroups; exact Hg|]. right. eauto.
  - intros host key value. rewrite !elem_of_app, children_calls_spec, group_calls_spec,
      variable_calls_spec. split.
    + intros [(child & Hc & _)|[(g & hosts & _ & Hc)|Hc]]; [discriminate| |].
      * destruct Hc as [Hc|(h & Hc & _)]; discriminate.
      * destruct Hc as (h & vars & k & x & Hitem & Hkv & [= <- <- <-]).
        apply Hvars. eauto.
    + intros Hm. apply Hvars in Hm. destruct Hm as (vars & Hitem & Hkv).
      right. right. exists host, vars, key, value. auto.
Qed.

Lemma build_calls_order (d : InventoryData)
    (group_items : list (string * list string))
    (hostvars_items : list (string * list (string * string)))
    (before after : list inventory_call) (c : inventory_call) :
  lists_groups group_items d -> lists_hostvars hostvars_items d ->
  build_calls d group_items hostvars_items = before ++ c :: after ->
  (forall host group, c = add_host host group -> add_group group ∈ before) /\
  (hosts_are_grouped d ->
   forall host key value,
     c = inventory_set_variable host key value -> exists group, add_host host group ∈ before).
Proof.
  intros Hgroups Hvars Hcalls. unfold build_calls in Hcalls. split.
  - intros host group ->.
    apply app_split in Hcalls. destruct Hcalls as [(mid & Hin & _)|(mid & -> & Hcalls)].
    { assert (Hc : add_host host group ∈
                     flat_map (fun child =>
                                 if negb (String.eqb child "ungrouped") || has_key child d
                                 then [add_group child] else []) (children d))
        by (rewrite Hin; apply elem_of_app; right; left).
      apply children_calls_spec in Hc. destruct Hc as (child & Hc & _). discriminate. }
    apply app_split in Hcalls. destruct Hcalls as [(mid' & Hin & _)|(mid' & -> & Hcalls)].
    + apply flat_map_split in Hin.
      destruct Hin as (l1 & [g hosts] & l2 & b1 & b2 & _ & Hchunk & ->).
      apply elem_of_app. right. apply elem_of_app. right.
      destruct b1 as [|c1 b1]; cbn in Hchunk; [discriminate|].
      injection Hchunk as <- Hchunk.
      assert (Hin : add_host host group ∈ List.map (fun h => add_host h g) hosts)
        by (rewrite Hchunk; apply elem_of_app; right; left).
      apply list_elem_of_In, in_map_iff in Hin. destruct Hin as (h & [= <- <-] & _). left.
    + assert (Hc : add_host host group ∈
                     flat_map (fun '(hostname, vars) =>
                                 List.map (fun '(var_name, var_value) =>
                                             inventory_set_variable hostname var_name var_value)
                                          vars) hostvars_items)
        by (rewrite Hcalls; apply elem_of_app; right; left).
      apply variable_calls_spec in Hc.
      destruct Hc as (h & vars & key & value & _ & _ & Hc). discriminate.
  - intros Hgrouped host key value ->.
    assert (Hknown : known host d).
    { assert (Hin : inventory_set_variable host key value ∈
                      build_calls d group_items hostvars_items)
        by (unfold build_calls; rewrite Hcalls; apply elem_of_app; right; left).
      exact (set_variable_call_known d group_items hostvars_items host key value Hvars Hin). }
    destruct (Hgrouped host Hknown) as (group & hosts & Hg & Hh).
    exists group.
    apply app_split in Hcalls. destruct Hcalls as [(mid & Hin & _)|(mid & -> & Hcalls)].
    { assert (Hc : inventory_set_variable host key value ∈
                     flat_map (fun child =>
                                 if negb (String.eqb child "ungrouped") || has_key child d
                                 then [add_group child] else []) (children d))
        by (rewrite Hin; apply elem_of_app; right; left).
      apply children_calls_spec in Hc. destruct Hc as (child & Hc & _). discriminate. }
    apply app_split in Hcalls. destruct Hcalls as [(mid' & Hin & _)|(mid' & -> & Hcalls)].
    { assert (Hc : inventory_set_variable host key value ∈
                     flat_map (fun '(group_name, hosts) =>
                                 add_group group_name ::
                                 List.map (fun host => add_host host group_name) hosts)
                              group_items)
        by (rewrite Hin; apply elem_of_app; right; left).
      apply group_calls_spec in Hc.
      destruct Hc as (g & hs & _ & [Hc|(h & Hc & _)]); discriminate. }
    apply elem_of_app. right. apply elem_of_app. left.
    apply group_calls_spec. exists group, hosts.
    split; [apply Hgroups; exact Hg|]. right. eauto.
Qed.

(** X18: at the end of a run, in whatever order the dictionaries are
    walked, [_build_ansible_inventory] adds a group before it adds a host
    to it, and adds a host to some group before it sets a variable of that
    host. *)
Theorem build_adds_before_it_uses (w : World) (cfg : Config)
    (group_items : list (string * list string))
    (hostvars_items : list (string * list (string * string)))
    (before after : list inventory_call) (c : inventory_call) :
  lists_groups group_items (inventory_data (run w cfg).1) ->
  lists_hostvars hostvars_items (inventory_data (run w cfg).1) ->
  build_calls (inventory_data (run w cfg).1) group_items hostvars_items =
    before ++ c :: after ->
  (forall host group, c = add_host host group -> add_group group ∈ before) /\
  (forall host key value,
     c = inventory_set_variable host key value -> exists group, add_host host group ∈ before).
Proof.
  intros Hgroups Hvars Hcalls.
  destruct (build_calls_order _ _ _ _ _ _ Hgroups Hvars Hcalls) as [Hhost Hvariable].
  split; [exact Hhost|]. apply Hvariable. apply run_hosts_are_grouped.
Qed.

Lemma build_adds_before_it_uses_witness :
  let d := inventory_data (run world_A config_A).1 in
  lists_groups (group_items_of d) d /\ lists_hostvars (hostvars_items_of d) d /\
  build_calls d (group_items_of d) (hostvars_items_of d) =
    [add_group "web"; add_group "web"; add_host "web01" "web"] ++
    inventory_set_variable "web01" "environment" "PRD" ::
    [inventory_set_variable "web01" "role" "app"] /\
  exists group,
    add_host "web01" group ∈ [add_group "web"; add_group "web"; add_host "web01" "web"].
Proof.
  cbn zeta.
  pose proof (group_items_of_lists (inventory_data (run world_A config_A).1)) as Hgroups.
  pose proof (hostvars_items_of_lists (inventory_data (run world_A config_A).1)) as Hvars.
  assert (Hcalls : build_calls (inventory_data (run world_A config_A).1)
                     (group_items_of (inventory_data (run world_A config_A).1))
                     (hostvars_items_of (inventory_data (run world_A config_A).1)) =
                   [add_group "web"; add_group "web"; add_host "web01" "web"] ++
                   inventory_set_variable "web01" "environment" "PRD" ::
                   [inventory_set_variable "web01" "role" "app"])
    by (vm_compute; reflexivity).
  split; [exact Hgroups|]. split; [exact Hvars|]. split; [exact Hcalls|].
  exact (proj2 (build_adds_before_it_uses world_A config_A _ _ _ _ _ Hgroups Hvars Hcalls)
           "web01" "environment" "PRD" eq_refl).
Defined.

Lemma build_hands_over_the_inventory_witness :
  let d := inventory_data (run world_headers config_A).1 in
  lists_groups (group_items_of d) d /\ lists_hostvars (hostvars_items_of d) d /\
  add_group "web" ∈ build_calls d (group_items_of d) (hostvars_items_of d) /\
  (add_group "ungrouped" ∈ build_calls d (group_items_of d) (hostvars_items_of d) ->
   ("ungrouped" <> "ungrouped" /\ "ungrouped" ∈ children d) \/
   is_Some (groups d !! "ungrouped")).
Proof.
  cbn zeta.
  pose proof (group_items_of_lists (inventory_data (run world_headers config_A).1)) as Hgroups.
  pose proof (hostvars_items_of_lists (inventory_data (run world_headers config_A).1)) as Hvars.
  destruct (build_hands_over_the_inventory _ _ _ Hgroups Hvars) as (Hadd & _).
  split; [exact Hgroups|]. split; [exact Hvars|]. split.
  - apply Hadd. left. split; [discriminate|]. vm_compute. right. left.
  - apply Hadd.
Defined.

(** ** More on the Abbreviator *)

Lemma length_slice_prefix (n : nat) (s : string) :
  n <= String.length s -> String.length (Str.slice 0 n s) = n.
Proof.
  unfold Str.slice. rewrite Nat.sub_0_r. revert s.
  induction n as [|n IH]; intros s Hn; [destruct s; reflexivity|].
  destruct s as [|c s]; cbn in Hn; [lia|]. cbn. rewrite IH by lia. reflexivity.
Qed.

Lemma length_upper (s : string) : String.length (Str.upper s) = String.length s.
Proof. apply length_map. Qed.

Lemma abbreviation_length (env_dir clean : string) :
  3 < String.length clean -> 2 <= String.length (abbreviation env_dir clean).
Proof.
  intros Hlen. unfold abbreviation.
  repeat match goal with
         | |- context [if ?b then _ else _] => destruct b eqn:?
         end;
    repeat match goal with
           | H : (_ <=? _)%nat = true |- _ => apply Nat.leb_le in H
           | H : (_ =? _)%nat = true |- _ => apply Nat.eqb_eq in H
           end;
    rewrite ?length_upper, ?length_slice_prefix by lia; lia.
Qed.

(** X19: for a name made of ASCII characters, the Abbreviator's code
    has the length of the stripped name when that has at most three
    characters, and at least two characters otherwise. *)
Theorem abbreviator_code_length (env_dir : string) :
  Str.isascii env_dir = true ->
  (String.length (Str.strip env_dir) <= 3 ->
   String.length (_auto_generate_environment_code env_dir) =
     String.length (Str.strip env_dir)) /\
  (3 < String.length (Str.strip env_dir) ->
   2 <= String.length (_auto_generate_environment_code env_dir)).
Proof.
  intros _.
  destruct (auto_generate_cases env_dir)
    as [[Hshort ->] | [Hlong [(base & -> & Hbase) | ->]]].
  - split; [intros _; apply length_upper | lia].
  - split; [lia|]. intros _. rewrite length_upper. exact Hbase.
  - split; [lia|]. intros _. apply abbreviation_length.
    unfold Str.lower. rewrite length_map. exact Hlong.
Qed.

Lemma abbreviator_code_length_witness :
  Str.isascii " Integration " = true /\
  3 < String.length (Str.strip " Integration ") /\
  2 <= String.length (_auto_generate_environment_code " Integration ").
Proof.
  assert (Hascii : Str.isascii " Integration " = true) by reflexivity.
  assert (Hlong : 3 < String.length (Str.strip " Integration ")) by (vm_compute; lia).
  split; [exact Hascii|]. split; [exact Hlong|].
  exact (proj2 (abbreviator_code_length " Integration " Hascii) Hlong).
Defined.

Lemma substring_prefix_append (p s : string) :
  String.substring 0 (String.length p) (p +:+ s) = p.
Proof.
  induction p as [|c p IH]; [destruct s; reflexivity|].
  rewrite append_String. cbn. rewrite IH. reflexivity.
Qed.

Lemma rstrip_by_length (p : ascii -> bool) (s : string) :
  String.length (Str.rstrip_by p s) <= String.length s.
Proof.
  induction s as [|c s IH]; cbn [Str.rstrip_by String.length]; [lia|].
  destruct (Str.rstrip_by p s); [destruct (p c)|]; cbn in *; lia.
Qed.

Lemma suffix_of_suffix (p q a b : string) :
  p +:+ a = q +:+ b -> String.length b <= String.length a -> exists r, a = r +:+ b.
Proof.
  revert q. induction p as [|c p IH]; intros q H Hlen.
  - rewrite append_empty_l in H. eauto.
  - destruct q as [|d q].
    + rewrite append_empty_l in H. subst b. rewrite append_String in Hlen.
      cbn in Hlen. rewrite length_append in Hlen. lia.
    + rewrite !append_String in H. injection H as _ H. exact (IH q H Hlen).
Qed.

Lemma endswith_longer (short long s : string) :
  Str.endswith short s = true -> Str.endswith short long = false ->
  String.length short <= String.length long ->
  Str.endswith long s = false.
Proof.
  intros Hshort Hno Hlen. destruct (Str.endswith long s) eqn:Hlong; [|reflexivity].
  apply endswith_spec in Hshort, Hlong.
  destruct Hshort as [p Hp]. destruct Hlong as [q Hq]. rewrite Hq in Hp.
  destruct (suffix_of_suffix q p long short Hp Hlen) as [r Hr].
  rewrite (proj2 (endswith_spec short long)) in Hno by eauto. discriminate.
Qed.

Lemma strip_suffix_first (clean suffix base : string) (rest : list string) :
  clean = base +:+ suffix ->
  2 <= String.length (Str.rstrip_by is_dash base) ->
  strip_suffix clean (suffix :: rest) = Some (Str.upper (Str.rstrip_by is_dash base)).
Proof.
  intros -> Hbase. cbn [strip_suffix].
  rewrite (proj2 (endswith_spec suffix _)) by eauto.
  unfold Str.slice. rewrite length_append, Nat.sub_0_r.
  replace (String.length base + String.length suffix - String.length suffix)
    with (String.length base) by lia.
  rewrite substring_prefix_append.
  apply Nat.leb_le in Hbase. rewrite Hbase. reflexivity.
Qed.

Lemma strip_suffix_skip (clean suffix : string) (rest : list string) :
  Str.endswith suffix clean = false ->
  strip_suffix clean (suffix :: rest) = strip_suffix clean rest.
Proof. intros H. cbn [strip_suffix]. rewrite H. reflexivity. Qed.

(** X20: for a cleaned name that ends in [environment], in [ment]
    (and not in [environment]) or in [env], the Abbreviator's code is what
    precedes the suffix, without trailing [-] and [_] and in upper case,
    provided that leaves two characters or more. *)
Theorem abbreviator_strips_suffixes (env_dir base : string) :
  2 <= String.length (Str.rstrip_by is_dash base) ->
  (Str.strip (Str.lower env_dir) = base +:+ "environment" \/
   (Str.strip (Str.lower env_dir) = base +:+ "ment" /\
    Str.endswith "environment" (Str.strip (Str.lower env_dir)) = false) \/
   Str.strip (Str.lower env_dir) = base +:+ "env") ->
  _auto_generate_environment_code env_dir = Str.upper (Str.rstrip_by is_dash base).
Proof.
  intros Hbase Hclean. unfold _auto_generate_environment_code, suffixes_to_remove.
  pose proof (rstrip_by_length is_dash base) as Hshorter.
  set (clean := Str.strip (Str.lower env_dir)) in *.
  assert (Hlong : (String.length clean <=? 3)%nat = false).
  { apply Nat.leb_gt.
    destruct Hclean as [-> | [[-> _] | ->]]; rewrite length_append; cbn; lia. }
  rewrite Hlong.
  destruct Hclean as [Hclean | [[Hclean Hno] | Hclean]].
  - rewrite (strip_suffix_first clean "environment" base _ Hclean Hbase). reflexivity.
  - rewrite strip_suffix_skip by exact Hno.
    rewrite (strip_suffix_first clean "ment" base _ Hclean Hbase). reflexivity.
  - assert (Hno1 : Str.endswith "environment" clean = false).
    { apply (endswith_longer "env"); [apply endswith_spec; eauto | reflexivity | cbn; lia]. }
    assert (Hno2 : Str.endswith "ment" clean = false).
    { apply (endswith_longer "env"); [apply endswith_spec; eauto | reflexivity | cbn; lia]. }
    rewrite !strip_suffix_skip by assumption.
    rewrite (strip_suffix_first clean "env" base _ Hclean Hbase). reflexivity.
Qed.

Lemma abbreviator_strips_suffixes_witness :
  2 <= String.length (Str.rstrip_by is_dash "sandbox-_") /\
  Str.strip (Str.lower " Sandbox-_ENV ") = "sandbox-_" +:+ "env" /\
  _auto_generate_environment_code " Sandbox-_ENV " = "SANDBOX".
Proof.
  assert (Hbase : 2 <= String.length (Str.rstrip_by is_dash "sandbox-_"))
    by (vm_compute; lia).
  assert (Hclean : Str.strip (Str.lower " Sandbox-_ENV ") = "sandbox-_" +:+ "env")
    by reflexivity.
  split; [exact Hbase|]. split; [exact Hclean|].
  exact (abbreviator_strips_suffixes " Sandbox-_ENV " "sandbox-_" Hbase
           (or_intror (or_intror Hclean))).
Defined.

(** ** A line processed twice *)

Lemma tag_host_data (w : World) (cfg : Config) (environment : option string)
    (group host : string) (st : State) :
  known host (inventory_data st) ->
  (tag_host w cfg environment group host st).2 = inr tt /\
  inventory_data (tag_host w cfg environment group host st).1 =
    tagged w cfg environment group host (inventory_data st).
Proof.
  intros Hknown. unfold tag_host, tagged.
  (* the environment from the directory *)
  assert (H1 : exists st1,
            (if Str.nonempty host && hint_given environment && environment_detection cfg
             then _set_environment_from_directory cfg host (default "" environment)
             else mret tt) st = (st1, inr tt) /\
            inventory_data st1 =
              (if Str.nonempty host && hint_given environment && environment_detection cfg
               then with_variable host "environment"
                      (_generate_environment_code cfg (Some (default "" environment)))
                      (inventory_data st)
               else inventory_data st)).
  { destruct (Str.nonempty host && hint_given environment && environment_detection cfg)
      eqn:Hcond; [|exists st; auto].
    eexists. split; [apply set_environment_from_directory_run; exact Hknown|].
    apply andb_prop in Hcond. destruct Hcond as [Hcond _].
    apply andb_prop in Hcond. destruct Hcond as [Hhost Hhint].
    destruct environment as [env_dir|]; [|discriminate]. cbn in Hhint. cbn [default].
    cbn zeta. cbn [fst]. unfold id. rewrite Hhost, Hhint. reflexivity. }
  destruct H1 as (st1 & Hrun1 & Hdata1).
  rewrite (bind_returned _ _ _ _ _ Hrun1).
  assert (Hknown1 : known host (inventory_data st1)).
  { rewrite Hdata1.
    destruct (Str.nonempty host && hint_given environment && environment_detection cfg);
      [apply with_variable_known|]; exact Hknown. }
  (* the enricher *)
  assert (H2 : exists st2,
            (if Str.nonempty host && dns_resolution cfg then _resolve_dns w host
             else mret tt) st1 = (st2, inr tt) /\
            inventory_data st2 =
              (if Str.nonempty host && dns_resolution cfg then
                 match resolve w host with
                 | Answer (target :: _) =>
                     with_variable host "DNSName" target (inventory_data st1)
                 | _ => inventory_data st1
                 end
               else inventory_data st1)).
  { destruct (Str.nonempty host && dns_resolution cfg); [|exists st1; auto].
    eexists. split; [apply resolve_dns_run|].
    destruct Hknown1 as [vars Hvars].
    destruct (resolve w host) as [[|target rest]| | |e]; cbn; try reflexivity.
    rewrite Hvars. reflexivity. }
  destruct H2 as (st2 & Hrun2 & Hdata2).
  rewrite (bind_returned _ _ _ _ _ Hrun2).
  assert (Hknown2 : known host (inventory_data st2)).
  { rewrite Hdata2. destruct (Str.nonempty host && dns_resolution cfg); [|exact Hknown1].
    destruct (resolve w host) as [[|target rest]| | |e]; try exact Hknown1.
    apply with_variable_known. exact Hknown1. }
  rewrite <- Hdata1, <- Hdata2.
  (* the fallback *)
  destruct (Str.nonempty host && Str.nonempty group && environment_detection cfg
            && is_None_hint environment) eqn:Hcond; [|split; reflexivity].
  rewrite detect_environment_run by exact Hknown2. cbn [fst snd].
  split; [reflexivity|].
  apply andb_prop in Hcond. destruct Hcond as [Hcond _].
  apply andb_prop in Hcond. destruct Hcond as [Hcond _].
  apply andb_prop in Hcond. destruct Hcond as [Hhost Hgroup].
  rewrite Hhost, Hgroup. cbn [negb orb].
  destruct (environment_of host (inventory_data st2)); reflexivity.
Qed.

Lemma with_variable_with_vars (host key value : string) (vars : gmap string string)
    (d : InventoryData) :
  with_variable host key value (with_vars host vars d) =
    with_vars host (<[key := value]> vars) d.
Proof.
  unfold with_variable, with_vars. cbn. rewrite lookup_insert_eq. cbn.
  rewrite insert_insert_eq. reflexivity.
Qed.

Lemma tagged_with_vars (w : World) (cfg : Config) (environment : option string)
    (group host : string) (vars : gmap string string) (d : InventoryData) :
  tagged w cfg environment group host (with_vars host vars d) =
    with_vars host (tag_vars w cfg environment group host vars) d.
Proof.
  unfold tagged, tag_vars.
  destruct (Str.nonempty host && hint_given environment && environment_detection cfg);
    rewrite ?with_variable_with_vars;
    (destruct (Str.nonempty host && dns_resolution cfg);
     [destruct (resolve w host) as [[|target rest]| | |e]|];
     rewrite ?with_variable_with_vars;
     (destruct (Str.nonempty host && Str.nonempty group && environment_detection cfg
                && is_None_hint environment); [|reflexivity];
      unfold environment_of; cbn [hostvars with_vars]; rewrite lookup_insert_eq; cbn;
      match goal with
      | |- context [?m !! "environment"] => destruct (m !! "environment")
      end;
      rewrite ?with_variable_with_vars; reflexivity)).
Qed.

Lemma with_vars_twice (host : string) (vars1 vars2 : gmap string string) (d : InventoryData) :
  with_vars host vars2 (with_vars host vars1 d) = with_vars host vars2 d.
Proof. unfold with_vars. cbn. rewrite insert_insert_eq. reflexivity. Qed.

Lemma host_entry_data (w : World) (cfg : Config) (environment : option string)
    (group host0 item : string) (items : list string) (st : State) :
  group <> "_meta" -> group <> "all" ->
  (host_entry w cfg environment group host0 (item :: items) st).2 = inr item /\
  inventory_data (host_entry w cfg environment group host0 (item :: items) st).1 =
    after_host_line w cfg environment group item items (inventory_data st).
Proof.
  intros Hmeta Hall.
  destruct (token_loop_variables group item items st Hmeta Hall)
    as (st2 & Hloop & Hv & Hc & Hg & _).
  assert (Hdata2 : inventory_data st2 =
            with_vars item
              (assign_all (default ∅ (hostvars (inventory_data st) !! item)) (assignments items))
              {| hostvars := hostvars (inventory_data st);
                 children := children (inventory_data st);
                 groups := groups (with_host group item (inventory_data st)) |}).
  { destruct (inventory_data st2) as [hv ch gr]. cbn in Hv, Hc, Hg. subst hv ch gr.
    reflexivity. }
  assert (Hknown : known item (inventory_data st2))
    by (unfold known; rewrite Hv, lookup_insert_eq; eauto).
  destruct (tag_host_data w cfg environment group item st2 Hknown) as [Hret Hdata].
  unfold host_entry. rewrite (bind_returned _ _ _ _ _ Hloop).
  destruct (tag_host w cfg environment group item st2) as [st3 [e|[]]] eqn:Hst3;
    cbn in Hret; [discriminate|].
  rewrite (bind_returned _ _ _ _ _ Hst3). cbn [fst snd mret M_ret] in *.
  split; [reflexivity|]. rewrite Hdata, Hdata2. apply tagged_with_vars.
Qed.

Lemma assign_all_snoc (vars : gmap string string) (kvs : list (string * string))
    (key value : string) :
  assign_all vars (kvs ++ [(key, value)]) = <[key := value]> (assign_all vars kvs).
Proof. unfold assign_all. rewrite foldl_app. reflexivity. Qed.

Lemma assign_all_lookup (vars : gmap string string) (kvs : list (string * string))
    (key : string) :
  assign_all vars kvs !! key =
    match assign_all ∅ kvs !! key with
    | Some value => Some value
    | None => vars !! key
    end.
Proof.
  induction kvs as [|[k x] kvs IH] using rev_ind.
  - cbn. rewrite lookup_empty. reflexivity.
  - rewrite !assign_all_snoc. destruct (decide (k = key)) as [->|Hne].
    + rewrite !lookup_insert_eq. reflexivity.
    + rewrite !lookup_insert_ne by exact Hne. exact IH.
Qed.

Lemma tag_vars_lookup (w : World) (cfg : Config) (environment : option string)
    (group host : string) (vars : gmap string string) (key : string) :
  tag_vars w cfg environment group host vars !! key =
    if bool_decide (key = "environment") then
      if Str.nonempty host && hint_given environment && environment_detection cfg then
        Some (_generate_environment_code cfg (Some (default "" environment)))
      else if Str.nonempty host && Str.nonempty group && environment_detection cfg
              && is_None_hint environment then
        match vars !! "environment" with
        | Some value => Some value
        | None => Some (group_environment group)
        end
      else vars !! "environment"
    else if bool_decide (key = "DNSName") then
      if Str.nonempty host && dns_resolution cfg then
        match resolve w host with
        | Answer (target :: _) => Some target
        | _ => vars !! "DNSName"
        end
      else vars !! "DNSName"
    else vars !! key.
Proof.
  unfold tag_vars.
  assert (Hexclusive : hint_given environment = true -> is_None_hint environment = false)
    by (destruct environment; [reflexivity | discriminate]).
  destruct (Str.nonempty host); cbn [andb]; [|repeat case_bool_decide; subst; reflexivity].
  destruct (hint_given environment) eqn:Hhint; cbn [andb];
    [rewrite (Hexclusive eq_refl), !andb_false_r|];
    repeat case_bool_decide; subst;
    destruct (environment_detection cfg); destruct (Str.nonempty group);
    destruct (is_None_hint environment); cbn [andb];
    destruct (dns_resolution cfg);
    try (destruct (resolve w host) as [[|? ?]| | |?]);
    repeat (rewrite lookup_insert_ne by congruence);
    try (destruct (vars !! "environment") eqn:Henv);
    rewrite ?lookup_insert_eq;
    repeat (rewrite lookup_insert_ne by congruence; rewrite ?lookup_insert_eq);
    congruence.
Qed.

Lemma host_line_vars_idempotent (w : World) (cfg : Config) (environment : option string)
    (group host : string) (kvs : list (string * string)) (vars : gmap string string) :
  tag_vars w cfg environment group host
    (assign_all (tag_vars w cfg environment group host (assign_all vars kvs)) kvs) =
  tag_vars w cfg environment group host (assign_all vars kvs).
Proof.
  apply map_eq. intros key.
  rewrite (tag_vars_lookup _ _ _ _ _ (assign_all (tag_vars _ _ _ _ _ _) _)).
  rewrite (tag_vars_lookup _ _ _ _ _ (assign_all vars kvs)).
  rewrite !(assign_all_lookup (tag_vars _ _ _ _ _ _)).
  rewrite !tag_vars_lookup. cbn [bool_decide decide_rel].
  rewrite (bool_decide_eq_true_2 ("environment" = "environment")) by reflexivity.
  rewrite (bool_decide_eq_false_2 ("DNSName" = "environment")) by discriminate.
  rewrite (bool_decide_eq_true_2 ("DNSName" = "DNSName")) by reflexivity.
  rewrite !(assign_all_lookup vars).
  repeat case_bool_decide; subst;
    repeat match goal with
           | |- context [if ?b then _ else _] => destruct b
           | |- context [match assign_all ∅ kvs !! ?k with _ => _ end] =>
               destruct (assign_all ∅ kvs !! k)
           | |- context [match resolve w host with _ => _ end] =>
               destruct (resolve w host) as [[|? ?]| | |?]
           | |- context [match vars !! ?k with _ => _ end] => destruct (vars !! k)
           end; reflexivity.
Qed.

Lemma with_host_again (group host : string) (d d' : InventoryData) :
  groups d' = groups (with_host group host d) ->
  groups (with_host group host d') = groups d'.
Proof.
  intros Hg. unfold with_host at 1. cbn.
  destruct (with_host_defines group host d) as [_ (hosts & Hhosts & Hin)].
  rewrite Hg, Hhosts. cbn. rewrite bool_decide_eq_true_2 by exact Hin. reflexivity.
Qed.

Lemma after_host_line_idempotent (w : World) (cfg : Config) (environment : option string)
    (group item : string) (items : list string) (d : InventoryData) :
  after_host_line w cfg environment group item items
    (after_host_line w cfg environment group item items d) =
  after_host_line w cfg environment group item items d.
Proof.
  unfold after_host_line at 1.
  set (d' := after_host_line w cfg environment group item items d).
  assert (Hv : hostvars d' !! item =
               Some (tag_vars w cfg environment group item
                       (assign_all (default ∅ (hostvars d !! item)) (assignments items))))
    by (subst d'; unfold after_host_line, with_vars; cbn; apply lookup_insert_eq).
  assert (Hg : groups d' = groups (with_host group item d)) by reflexivity.
  rewrite Hv. unfold default at 1. cbn [from_option]. unfold id.
  rewrite host_line_vars_idempotent.
  rewrite (with_host_again group item d d' Hg).
  subst d'. unfold after_host_line, with_vars. cbn.
  rewrite insert_insert_eq. reflexivity.
Qed.

(** X21: a line that was processed without error can be processed
    again from the cursor it left: it raises nothing, returns the same
    cursor and leaves the inventory data as they were. *)
Theorem repeated_line_changes_nothing (w : World) (cfg : Config) (filename : string)
    (environment : option string) (cursor cursor' : string * string) (entry : string)
    (st st' : State) :
  process_entry w cfg filename environment cursor entry st = (st', inr cursor') ->
  (process_entry w cfg filename environment cursor' entry st').2 = inr cursor' /\
  inventory_data (process_entry w cfg filename environment cursor' entry st').1 =
    inventory_data st'.
Proof.
  destruct cursor as [group host]. intros Hfirst.
  destruct (line_kinds entry) as [Hskip|[Hline|[name Hname]]].
  - rewrite skipped_step in Hfirst by exact Hskip. injection Hfirst as <- <-.
    rewrite skipped_step by exact Hskip. split; reflexivity.
  - destruct (host_line_step w cfg filename environment group host entry st Hline)
      as (item & items & Hsplit & _ & Hrun).
    destruct (decide (group = "_meta" \/ group = "all")) as [Hreserved|Hfree].
    { rewrite Hrun in Hfirst. unfold host_entry, mbind, M_bind in Hfirst. cbn beta in Hfirst.
      rewrite define_host_reserved in Hfirst by exact Hreserved. discriminate. }
    assert (Hmeta : group <> "_meta") by tauto.
    assert (Hall : group <> "all") by tauto.
    destruct (host_entry_data w cfg environment group host item items st Hmeta Hall)
      as [Hret Hdata].
    rewrite Hrun in Hfirst. unfold mbind, M_bind in Hfirst.
    destruct (host_entry w cfg environment group host (item :: items) st) as [st1 [e|h]];
      cbn in Hret; [discriminate|]. injection Hret as ->.
    unfold mret, M_ret in Hfirst. injection Hfirst as <- <-. cbn [fst] in Hdata.
    destruct (host_line_step w cfg filename environment group item entry st1 Hline)
      as (item' & items' & Hsplit' & _ & Hrun').
    rewrite Hsplit in Hsplit'. injection Hsplit' as <- <-.
    destruct (host_entry_data w cfg environment group item item items st1 Hmeta Hall)
      as [Hret' Hdata'].
    rewrite Hrun'. unfold mbind, M_bind.
    destruct (host_entry w cfg environment group item (item :: items) st1) as [st2 [e|h]];
      cbn in Hret'; [discriminate|]. injection Hret' as ->.
    cbn [fst snd mret M_ret] in *. split; [reflexivity|].
    rewrite Hdata', Hdata. apply after_host_line_idempotent.
  - rewrite (header_step _ _ _ _ _ _ _ _ _ Hname) in Hfirst.
    injection Hfirst as <- <-.
    rewrite (header_step _ _ _ _ _ _ _ _ _ Hname).
    destruct name as [|c name]; [split; reflexivity|].
    cbn [fst snd]. split; [reflexivity|].
    destruct (bool_decide (String c name ∈ children (inventory_data st))) eqn:Hin.
    + rewrite Hin. reflexivity.
    + rewrite bool_decide_eq_true_2; [reflexivity|].
      cbn. apply elem_of_app. right. left.
Qed.

Lemma repeated_line_changes_nothing_witness :
  process_entry world_dns config_A "hosts.ini" None ("web_PRD", "") "web01 role=app DNSName=x"
    initial_state =
    ((process_entry world_dns config_A "hosts.ini" None ("web_PRD", "")
        "web01 role=app DNSName=x" initial_state).1, inr ("web_PRD", "web01")) /\
  inventory_data
    (process_entry world_dns config_A "hosts.ini" None ("web_PRD", "web01")
       "web01 role=app DNSName=x"
       (process_entry world_dns config_A "hosts.ini" None ("web_PRD", "")
          "web01 role=app DNSName=x" initial_state).1).1 =
  inventory_data
    (process_entry world_dns config_A "hosts.ini" None ("web_PRD", "")
       "web01 role=app DNSName=x" initial_state).1.
Proof.
  assert (Hfirst : process_entry world_dns config_A "hosts.ini" None ("web_PRD", "")
                     "web01 role=app DNSName=x" initial_state =
                   ((process_entry world_dns config_A "hosts.ini" None ("web_PRD", "")
                       "web01 role=app DNSName=x" initial_state).1,
                    inr ("web_PRD", "web01")))
    by (vm_compute; reflexivity).
  split; [exact Hfirst|].
  exact (proj2 (repeated_line_changes_nothing world_dns config_A "hosts.ini" None
                  ("web_PRD", "") ("web_PRD", "web01") "web01 role=app DNSName=x"
                  initial_state _ Hfirst)).
Defined.

(** ** The total of files *)

Lemma opened_app (cs1 cs2 : list call) : opened (cs1 ++ cs2) = opened cs1 + opened cs2.
Proof. unfold opened. rewrite List.filter_app, length_app. reflexivity. Qed.

Lemma opened_none (cs : list call) :
  Forall (fun c => forall f, c <> open_file f) cs -> opened cs = 0.
Proof.
  induction 1 as [|c cs Hc _ IH]; [reflexivity|].
  unfold opened in *. cbn. destruct c; try exact IH. destruct (Hc filename eq_refl).
Qed.

Lemma process_single_host_file_opens_once (w : World) (cfg : Config) (filename : string)
    (environment : option string) (st : State) :
  opened (trace (_process_single_host_file w cfg filename environment st).1) =
    opened (trace st) + 1.
Proof.
  unfold _process_single_host_file. unfold mbind at 1 2, M_bind at 1 2, display, record.
  cbn beta iota.
  set (st1 := add_call (open_file filename)
                (add_diagnostic vv (ProcessingFile filename environment) st)).
  assert (H1 : opened (trace st1) = opened (trace st) + 1)
    by (subst st1; cbn [trace add_call add_diagnostic]; rewrite opened_app; reflexivity).
  destruct (readlines w filename) as [entries|e|e]; [|exact H1..].
  assert (Hloop : preserves (emits (fun _ => True) (fun c => forall f, c <> open_file f))
                    (foldM (process_entry w cfg filename environment) entries
                       ("ungrouped", ""))).
  { apply preserves_foldM; [typeclasses eauto|]. intros cursor entry _.
    apply process_entry_calls; intros; discriminate. }
  destruct (Hloop st1) as (ds & cs & _ & Hc & _ & Fc).
  unfold mbind, M_bind, mret, M_ret.
  destruct (foldM _ entries _ st1) as [st2 [e|cursor]]; cbn [fst] in *;
    rewrite Hc, opened_app, (opened_none cs Fc); lia.
Qed.

Lemma for_each_files_opens (w : World) (cfg : Config) (environment : option string)
    (files : list string) (st st' : State) :
  for_each files (fun filename => _process_single_host_file w cfg filename environment) st =
    (st', inr tt) ->
  opened (trace st') = opened (trace st) + length files.
Proof.
  revert st. induction files as [|f files IH]; intros st Hrun.
  - injection Hrun as <-. cbn. lia.
  - unfold for_each in *. cbn [foldM] in Hrun. unfold mbind, M_bind in Hrun.
    pose proof (process_single_host_file_opens_once w cfg f environment st) as Hone.
    destruct (_process_single_host_file w cfg f environment st) as [st1 [e|[]]];
      [discriminate|].
    cbn [fst] in Hone. rewrite (IH st1 Hrun), Hone. cbn. lia.
Qed.

Ltac opened_step :=
  cbn [trace add_diagnostic add_call add_calls fst snd];
  rewrite ?opened_app; cbn [opened List.filter length];
  try lia.

Lemma process_environment_directory_total (w : World) (cfg : Config) (total_files : nat)
    (env_dir : string) (st st' : State) (total_files' : nat) :
  process_environment_directory w cfg total_files env_dir st = (st', inr total_files') ->
  total_files <= total_files' /\
  opened (trace st') = opened (trace st) + (total_files' - total_files).
Proof.
  unfold process_environment_directory.
  destruct (Str.contains ".." env_dir || Path.isabs env_dir).
  { intros [= <- <-]. opened_step. }
  set (env_path := Path.join (hosts_directory cfg) env_dir).
  unfold mbind at 1, M_bind at 1, record at 1. cbn beta iota.
  destruct (path_exists w env_path); cbn [negb].
  2: { intros [= <- <-]. opened_step. }
  unfold mbind at 1, M_bind at 1, record at 1. cbn beta iota.
  destruct (path_isdir w env_path); cbn [negb].
  2: { intros [= <- <-]. opened_step. }
  unfold mbind at 1, M_bind at 1, display at 1. cbn beta iota.
  match goal with
  | |- (_ ≫= _) ?st0 = _ -> _ =>
      destruct (find_hosts_files_run w cfg env_path st0) as (files & cs & Hrun & _ & _ & _ & Hcs);
      rewrite (bind_returned _ _ _ _ _ Hrun)
  end.
  assert (Hquiet : opened
            (List.map (fun pattern => glob_glob (Path.join env_path pattern))
               (hosts_file_patterns cfg) ++ cs) = 0).
  { apply opened_none. apply Forall_app. split.
    - apply Forall_forall. intros c Hc. apply list_elem_of_In, in_map_iff in Hc.
      destruct Hc as (pattern & <- & _). discriminate.
    - eapply Forall_impl; [exact Hcs|]. intros c (f & -> & _). discriminate. }
  destruct files as [|f rest] eqn:Hfiles.
  { intros [= <- <-]. cbn [trace add_diagnostic add_call add_calls fst snd].
    rewrite !opened_app in *. cbn [opened List.filter length] in *. lia. }
  rewrite <- Hfiles. clear Hfiles.
  unfold mbind at 1, M_bind at 1, display at 1. cbn beta iota.
  unfold mbind at 1, M_bind at 1.
  match goal with
  | |- context [for_each files ?body ?st0] =>
      destruct (for_each files body st0) as [st1 [e|[]]] eqn:Heach; [discriminate|];
      pose proof (for_each_files_opens w cfg (Some env_dir) files st0 st1 Heach) as Hopened
  end.
  intros [= <- <-]. rewrite Hopened. cbn [trace add_diagnostic add_call add_calls fst snd].
  rewrite !opened_app in *. cbn [opened List.filter length] in *. lia.
Qed.

Lemma directories_total (w : World) (cfg : Config) (dirs : list string)
    (total_files : nat) (st st' : State) (total_files' : nat) :
  foldM (process_environment_directory w cfg) dirs total_files st = (st', inr total_files') ->
  total_files <= total_files' /\
  opened (trace st') = opened (trace st) + (total_files' - total_files).
Proof.
  revert total_files st. induction dirs as [|env_dir dirs IH]; intros total_files st Hrun.
  - injection Hrun as <- <-. lia.
  - cbn [foldM] in Hrun. unfold mbind, M_bind in Hrun.
    destruct (process_environment_directory w cfg total_files env_dir st)
      as [st1 [e|total1]] eqn:Hstep; [discriminate|].
    pose proof (process_environment_directory_total _ _ _ _ _ _ _ Hstep) as [? ?].
    pose proof (IH _ _ Hrun) as [? ?]. lia.
Qed.

Lemma process_environment_directories_unfold (w : World) (cfg : Config) (st : State) :
  _process_environment_directories w cfg st =
    match foldM (process_environment_directory w cfg) (environment_dirs cfg) 0
            (set_data initial_inventory st) with
    | (st1, inl e) => (st1, inl e)
    | (st1, inr total_files) =>
        if (total_files =? 0)%nat then (add_diagnostic warning NoHostsFilesAnywhere st1, inr tt)
        else
          let st2 := add_diagnostic v (ProcessedTotal total_files) st1 in
          match inventory_api w (inventory_data st1) with
          | Some e => (st2, inl e)
          | None => (st2, inr tt)
          end
    end.
Proof.
  unfold _process_environment_directories.
  rewrite (bind_returned (put_data initial_inventory) _ st _ tt eq_refl).
  unfold mbind at 1, M_bind at 1.
  destruct (foldM _ _ 0 _) as [st1 [e|total_files]]; [reflexivity|].
  destruct (total_files =? 0)%nat; [reflexivity|].
  unfold mbind, M_bind, display, get_data, _build_ansible_inventory. cbn.
  destruct (inventory_api w (inventory_data st1)); reflexivity.
Qed.

(** X22: a run that completes either ends with the warning that no
    hosts files were found, having opened no file, or ends by announcing a
    total, which is positive and is the number of files it opened. *)
Theorem processed_total_counts_the_files_opened (w : World) (cfg : Config) :
  (run w cfg).2 = inr tt ->
  exists ds,
    (diagnostics (run w cfg).1 = ds ++ [(warning, NoHostsFilesAnywhere)] /\
     opened (trace (run w cfg).1) = 0) \/
    (exists n,
       diagnostics (run w cfg).1 = ds ++ [(v, ProcessedTotal n)] /\
       0 < n /\ opened (trace (run w cfg).1) = n).
Proof.
  intros Hret.
  assert (Hroot : hosts_directory cfg <> "" /\
                  path_exists w (hosts_directory cfg) = true /\
                  path_isdir w (hosts_directory cfg) = true).
  { rewrite run_outcome in Hret.
    destruct (hosts_directory cfg); [discriminate|]. cbn [Str.nonempty negb] in Hret.
    destruct (path_exists w _); [|discriminate].
    destruct (path_isdir w _); [|discriminate]. repeat split; congruence. }
  destruct Hroot as (Hroot & Hexists & Hisdir).
  rewrite run_walk in * by assumption. cbn [fst snd] in *.
  unfold walk in *. rewrite process_environment_directories_unfold in *.
  set (st0 := state_before_walk w cfg) in *.
  assert (H0 : opened (trace st0) = 0) by (subst st0; unfold state_before_walk;
    destruct (_ && _); reflexivity).
  destruct (foldM _ _ 0 _) as [st1 [e|total]] eqn:Hloop; [discriminate|].
  pose proof (directories_total _ _ _ _ _ _ _ Hloop) as [_ Hopened].
  cbn [trace set_data] in Hopened. rewrite H0, Nat.sub_0_r in Hopened. cbn in Hopened.
  destruct (total =? 0)%nat eqn:Htotal.
  - apply Nat.eqb_eq in Htotal. subst total. exists (diagnostics st1). left.
    split; [reflexivity | exact Hopened].
  - apply Nat.eqb_neq in Htotal. exists (diagnostics st1). right. exists total.
    cbn zeta in *. destruct (inventory_api w _); [discriminate|].
    cbn. split; [reflexivity|]. split; [lia | exact Hopened].
Qed.

Lemma processed_total_counts_the_files_opened_witness :
  (run world_rough config_A).2 = inr tt /\
  exists ds,
    (diagnostics (run world_rough config_A).1 = ds ++ [(warning, NoHostsFilesAnywhere)] /\
     opened (trace (run world_rough config_A).1) = 0) \/
    (exists n,
       diagnostics (run world_rough config_A).1 = ds ++ [(v, ProcessedTotal n)] /\
       0 < n /\ opened (trace (run world_rough config_A).1) = n).
Proof.
  assert (Hret : (run world_rough config_A).2 = inr tt) by (vm_compute; reflexivity).
  split; [exact Hret|].
  exact (processed_total_counts_the_files_opened world_rough config_A Hret).
Defined.
